(** * pylgbst.hub: message routing and attachment tracking of the Hub

    A shallow embedding of [src/pylgbst/hub.py] (classes [Hub] and
    [MoveHub]).  Python objects become records, the [peripherals] dict a
    [gmap], exceptions an outcome of a small state monad whose state is the
    hub instance: like in Python, what a method has mutated before it raises
    stays mutated.

    Embedded: [PERIPHERAL_TYPES], [Hub.__init__], [add_message_handler],
    [send], [_notify], [_get_upstream_msg], the four handlers of [Hub], the
    [_handle_device_change] of [MoveHub] and [_wait_for_devices].  Message
    and peripheral instances are true in a boolean context, as Python
    objects are unless their class says otherwise.  The two threads of the
    program, the callers of [send] and the thread that delivers
    notifications, meet in [send], which takes what the other thread does
    meanwhile as an argument, and in the steps of [Action]. *)

From Stdlib Require Import ZArith Lia Bool.
From stdpp Require Import gmap strings list fin_maps.

Local Open Scope Z_scope.

(** ** Messages *)

(** Upstream (device to driver) messages, one constructor per class that
    [hub.py] names, with the attributes that [hub.py] reads. *)
Inductive UpstreamMsg :=
  | MsgHubAttachedIO (port event : Z) (payload : list Z)
  | MsgPortValueSingle (port : Z) (payload : list Z)
  | MsgPortValueCombined (port : Z) (payload : list Z)
  | MsgGenericError (message : string)
  | MsgHubAction (action : Z)
  | MsgHubProperties (property operation : Z) (parameters : list Z)
  | MsgHubAlert (status : Z)
  | MsgUpstreamOther (type : Z) (payload : list Z).

(** The classes that a handler can be registered for. *)
Inductive MsgClass :=
  | ClsHubAttachedIO
  | ClsPortValueSingle
  | ClsPortValueCombined
  | ClsGenericError
  | ClsHubAction
  | ClsHubProperties
  | ClsHubAlert
  | ClsUpstreamOther.

Definition class_of (msg : UpstreamMsg) : MsgClass :=
  match msg with
  | MsgHubAttachedIO _ _ _ => ClsHubAttachedIO
  | MsgPortValueSingle _ _ => ClsPortValueSingle
  | MsgPortValueCombined _ _ => ClsPortValueCombined
  | MsgGenericError _ => ClsGenericError
  | MsgHubAction _ => ClsHubAction
  | MsgHubProperties _ _ _ => ClsHubProperties
  | MsgHubAlert _ => ClsHubAlert
  | MsgUpstreamOther _ _ => ClsUpstreamOther
  end.

Global Instance MsgClass_eq_dec : EqDecision MsgClass.
Proof. solve_decision. Defined.

(** [isinstance(msg, msg_class)] *)
Definition isinstance (msg : UpstreamMsg) (c : MsgClass) : bool :=
  bool_decide (class_of msg = c).

(** A downstream message is an object with a [needs_reply] attribute and the
    methods [bytes()] and [is_reply(msg)]; each message class brings its own
    [is_reply], so the method is a field of the object. *)
Record DownstreamMsg := {
  needs_reply : bool;
  bytes : list Z;
  is_reply : UpstreamMsg -> bool
}.

(** ** Peripherals *)

Inductive PeripheralClass :=
  | Peripheral
  | Motor
  | EncodedMotor
  | VisionSensor
  | LEDRGB
  | TiltSensor
  | Current
  | Voltage.

Global Instance PeripheralClass_eq_dec : EqDecision PeripheralClass.
Proof. solve_decision. Defined.

(** A peripheral instance: its exact type, the port it was constructed with,
    the [virtual_ports] attribute and the port data queued so far by
    [queue_port_data]. *)
Record PeripheralObj := {
  p_type : PeripheralClass;
  p_port : Z;
  virtual_ports : option (Z * Z);
  port_data : list UpstreamMsg
}.

(** Peripheral instances are referred to by identity: a reference is the
    index of the instance in the store of all instances created so far. *)
Abbreviation ref := nat (only parsing).

(** ** Exceptions, logging *)

Inductive Exn :=
  | AssertionError
  | KeyError (key : Z)
  | AttributeError
  | RuntimeError (text : string)
  | ExternalError (code : Z).

Inductive Result (A : Type) :=
  | Ok (a : A)
  | Err (e : Exn).
Arguments Ok {A} a.
Arguments Err {A} e.

(** The callbacks that [_msg_handlers] can hold: the bound methods that
    [Hub.__init__] registers, and callbacks registered by other objects
    through [add_message_handler], which are outside [hub.py]: of the latter
    the model only records that they were called. *)
Inductive Callback :=
  | cb_handle_device_change
  | cb_handle_sensor_data
  | cb_handle_error
  | cb_handle_action
  | cb_external (name : string).

Global Instance Callback_eq_dec : EqDecision Callback.
Proof. solve_decision. Defined.

Inductive Level := DEBUG | INFO | WARNING.

Inductive LogArg :=
  | ArgInt (z : Z)
  | ArgText (s : string)
  | ArgBytes (data : list Z)
  | ArgRef (r : ref)
  | ArgDevices (devices : list (option ref))
  | ArgUp (msg : UpstreamMsg)
  | ArgDown (msg : DownstreamMsg)
  | ArgCallback (handler : Callback).

Record LogRecord := {
  level : Level;
  format : string;
  args : list LogArg
}.

(** ** What [hub.py] imports

    The constants of [pylgbst.messages], the byte readers of
    [pylgbst.utilities] and the table [UPSTREAM_MSGS] are not part of
    [hub.py]; the development is parametric in them.  A reader or a decoder
    may raise, hence the [Result]. *)
Record MsgKind := {
  TYPE : Z;
  decode : list Z -> Result UpstreamMsg
}.

Class Protocol := {
  EVENT_DETACHED : Z;
  EVENT_ATTACHED : Z;
  EVENT_ATTACHED_VIRTUAL : Z;
  DEV_MOTOR : Z;
  DEV_MOTOR_EXTERNAL_TACHO : Z;
  DEV_MOTOR_INTERNAL_TACHO : Z;
  DEV_VISION_SENSOR : Z;
  DEV_RGB_LIGHT : Z;
  DEV_TILT_EXTERNAL : Z;
  DEV_TILT_INTERNAL : Z;
  DEV_CURRENT : Z;
  DEV_VOLTAGE : Z;
  UPSTREAM_DISCONNECT : Z;
  UPSTREAM_SHUTDOWN : Z;
  usbyte : list Z -> Z -> Result Z;
  ushort : list Z -> Z -> Result Z;
  UPSTREAM_MSGS : list MsgKind
}.

(** ** The hub instance *)

(** The connection, seen from the hub: what was written to it and whether it
    is still connected. *)
Record Connection := {
  alive : bool;
  notify_handler_set : bool;
  notifications_enabled : bool;
  written : list (Z * list Z)
}.

(** The shorthand fields of [MoveHub]. *)
Record Shortcuts := {
  led : option ref;
  current : option ref;
  voltage : option ref;
  motor_A : option ref;
  motor_B : option ref;
  motor_AB : option ref;
  vision_sensor : option ref;
  tilt_sensor : option ref;
  motor_external : option ref;
  port_C : option ref;
  port_D : option ref
}.

(** The class of the instance decides which [_handle_device_change] the bound
    method [self._handle_device_change] is. *)
Inductive HubClass := ClassHub | ClassMoveHub.

(** One record for the attributes of a [Hub] or [MoveHub] instance (a plain
    [Hub] never touches [shortcuts]), together with the store of the
    peripheral instances it has created, the log records emitted and the
    calls made to external callbacks. *)
Record Hub := {
  hub_class : HubClass;
  _msg_handlers : list (MsgClass * Callback);
  peripherals : gmap Z ref;
  _sync_request : option DownstreamMsg;
  _sync_replies : list UpstreamMsg;
  connection : Connection;
  shortcuts : Shortcuts;
  objects : list PeripheralObj;
  log : list LogRecord;
  external_calls : list (string * UpstreamMsg)
}.

Definition HUB_HARDWARE_HANDLE : Z := 0x0E.

(** ** The monad of hub methods *)

(** A call returns, raises, or is suspended in a blocking queue operation. *)
Inductive Outcome (A : Type) :=
  | Return (a : A)
  | Raise (e : Exn)
  | Block.
Arguments Return {A} a.
Arguments Raise {A} e.
Arguments Block {A}.

Definition M (A : Type) : Type := Hub -> Hub * Outcome A.

Definition ret {A} (a : A) : M A := fun h => (h, Return a).

Definition bind {A B} (m : M A) (k : A -> M B) : M B :=
  fun h =>
    match m h with
    | (h', Return a) => k a h'
    | (h', Raise e) => (h', Raise e)
    | (h', Block) => (h', Block)
    end.

Notation "'let*' x ':=' m 'in' k" := (bind m (fun x => k))
  (at level 10, x name, m at level 100, k at level 200).
Notation "m '>>' k" := (bind m (fun _ => k))
  (at level 100, k at level 200, right associativity).

Definition raise {A} (e : Exn) : M A := fun h => (h, Raise e).

Definition block {A} : M A := fun h => (h, Block).

Definition lift {A} (r : Result A) : M A :=
  match r with
  | Ok a => ret a
  | Err e => raise e
  end.

Definition get_state : M Hub := fun h => (h, Return h).

Definition modify (f : Hub -> Hub) : M unit := fun h => (f h, Return tt).

Definition assert (b : bool) : M unit :=
  if b then ret tt else raise AssertionError.

(** [for x in xs: body(x)] *)
Fixpoint for_each {A} (xs : list A) (body : A -> M unit) : M unit :=
  match xs with
  | [] => ret tt
  | x :: rest => body x >> for_each rest body
  end.

(** *** Attribute updates *)

Definition set_peripherals (f : gmap Z ref -> gmap Z ref) (h : Hub) : Hub :=
  {| hub_class := hub_class h; _msg_handlers := _msg_handlers h;
     peripherals := f (peripherals h); _sync_request := _sync_request h;
     _sync_replies := _sync_replies h; connection := connection h;
     shortcuts := shortcuts h; objects := objects h; log := log h;
     external_calls := external_calls h |}.

Definition set_sync_request (r : option DownstreamMsg) (h : Hub) : Hub :=
  {| hub_class := hub_class h; _msg_handlers := _msg_handlers h;
     peripherals := peripherals h; _sync_request := r;
     _sync_replies := _sync_replies h; connection := connection h;
     shortcuts := shortcuts h; objects := objects h; log := log h;
     external_calls := external_calls h |}.

Definition set_sync_replies (q : list UpstreamMsg) (h : Hub) : Hub :=
  {| hub_class := hub_class h; _msg_handlers := _msg_handlers h;
     peripherals := peripherals h; _sync_request := _sync_request h;
     _sync_replies := q; connection := connection h;
     shortcuts := shortcuts h; objects := objects h; log := log h;
     external_calls := external_calls h |}.

Definition set_connection (c : Connection) (h : Hub) : Hub :=
  {| hub_class := hub_class h; _msg_handlers := _msg_handlers h;
     peripherals := peripherals h; _sync_request := _sync_request h;
     _sync_replies := _sync_replies h; connection := c;
     shortcuts := shortcuts h; objects := objects h; log := log h;
     external_calls := external_calls h |}.

Definition set_shortcuts (s : Shortcuts) (h : Hub) : Hub :=
  {| hub_class := hub_class h; _msg_handlers := _msg_handlers h;
     peripherals := peripherals h; _sync_request := _sync_request h;
     _sync_replies := _sync_replies h; connection := connection h;
     shortcuts := s; objects := objects h; log := log h;
     external_calls := external_calls h |}.

Definition set_objects (o : list PeripheralObj) (h : Hub) : Hub :=
  {| hub_class := hub_class h; _msg_handlers := _msg_handlers h;
     peripherals := peripherals h; _sync_request := _sync_request h;
     _sync_replies := _sync_replies h; connection := connection h;
     shortcuts := shortcuts h; objects := o; log := log h;
     external_calls := external_calls h |}.

Definition set_log (l : list LogRecord) (h : Hub) : Hub :=
  {| hub_class := hub_class h; _msg_handlers := _msg_handlers h;
     peripherals := peripherals h; _sync_request := _sync_request h;
     _sync_replies := _sync_replies h; connection := connection h;
     shortcuts := shortcuts h; objects := objects h; log := l;
     external_calls := external_calls h |}.

Definition set_msg_handlers (t : list (MsgClass * Callback)) (h : Hub) : Hub :=
  {| hub_class := hub_class h; _msg_handlers := t;
     peripherals := peripherals h; _sync_request := _sync_request h;
     _sync_replies := _sync_replies h; connection := connection h;
     shortcuts := shortcuts h; objects := objects h; log := log h;
     external_calls := external_calls h |}.

Definition set_external_calls (c : list (string * UpstreamMsg)) (h : Hub) : Hub :=
  {| hub_class := hub_class h; _msg_handlers := _msg_handlers h;
     peripherals := peripherals h; _sync_request := _sync_request h;
     _sync_replies := _sync_replies h; connection := connection h;
     shortcuts := shortcuts h; objects := objects h; log := log h;
     external_calls := c |}.

(** *** Primitive operations on the instance *)

(** [log.debug], [log.info], [log.warning] *)
Definition logging (lv : Level) (fmt : string) (a : list LogArg) : M unit :=
  modify (fun h =>
    set_log (log h ++ [{| level := lv; format := fmt; args := a |}]) h).

(** [self.peripherals[port]]: a missing key raises [KeyError]. *)
Definition peripherals_getitem (port : Z) : M ref :=
  fun h =>
    match peripherals h !! port with
    | Some r => (h, Return r)
    | None => (h, Raise (KeyError port))
    end.

(** [self.peripherals.pop(port)]: without a default a missing key raises. *)
Definition peripherals_pop (port : Z) : M ref :=
  let* r := peripherals_getitem port in
  modify (set_peripherals (delete port)) >>
  ret r.

(** [self.peripherals[port] = r] *)
Definition peripherals_setitem (port : Z) (r : ref) : M unit :=
  modify (set_peripherals (<[port := r]>)).

(** [cls(self, port)]: a new instance, distinct from every earlier one. *)
Definition new_peripheral (c : PeripheralClass) (port : Z) : M ref :=
  fun h =>
    (set_objects
       (objects h ++ [{| p_type := c; p_port := port;
                         virtual_ports := None; port_data := [] |}]) h,
     Return (length (objects h))).

Definition with_virtual_ports (v : Z * Z) (o : PeripheralObj) : PeripheralObj :=
  {| p_type := p_type o; p_port := p_port o;
     virtual_ports := Some v; port_data := port_data o |}.

Definition with_port_data (msg : UpstreamMsg) (o : PeripheralObj) : PeripheralObj :=
  {| p_type := p_type o; p_port := p_port o;
     virtual_ports := virtual_ports o; port_data := port_data o ++ [msg] |}.

(** [device.virtual_ports = v]; [device] is a reference that was read from
    [peripherals], so the instance is in the store. *)
Definition set_virtual_ports (device : ref) (v : Z * Z) : M unit :=
  modify (fun h => set_objects (alter (with_virtual_ports v) device (objects h)) h).

(** [device.queue_port_data(msg)] *)
Definition queue_port_data (device : ref) (msg : UpstreamMsg) : M unit :=
  modify (fun h => set_objects (alter (with_port_data msg) device (objects h)) h).

(** [type(device)] *)
Definition type_of (device : ref) : M PeripheralClass :=
  fun h =>
    match objects h !! device with
    | Some o => (h, Return (p_type o))
    | None => (h, Raise AttributeError)
    end.

(** [queue.Queue(1)]: [put] waits while the queue holds [maxsize] items. *)
Definition maxsize : nat := 1.

Definition queue_put (msg : UpstreamMsg) : M unit :=
  fun h =>
    if (length (_sync_replies h) <? maxsize)%nat
    then (set_sync_replies (_sync_replies h ++ [msg]) h, Return tt)
    else (h, Block).

(** [get] waits until an item is there: on an empty queue the caller stays
    suspended. *)
Definition queue_get : M UpstreamMsg :=
  fun h =>
    match _sync_replies h with
    | [] => (h, Block)
    | resp :: rest => (set_sync_replies rest h, Return resp)
    end.

(** The caller of [send] and the thread that delivers notifications run
    concurrently: [concurrently env] is the point of a method where the other
    threads do [env] to the instance. *)
Definition concurrently (env : Hub -> Hub) : M unit := modify env.

(** [self.connection.write(handle, data)] *)
Definition connection_write (handle : Z) (data : list Z) : M unit :=
  modify (fun h =>
    let c := connection h in
    set_connection
      {| alive := alive c; notify_handler_set := notify_handler_set c;
         notifications_enabled := notifications_enabled c;
         written := written c ++ [(handle, data)] |} h).

(** [self.connection.disconnect()] *)
Definition connection_disconnect : M unit :=
  modify (fun h =>
    let c := connection h in
    set_connection
      {| alive := false; notify_handler_set := notify_handler_set c;
         notifications_enabled := notifications_enabled c;
         written := written c |} h).

(** *** Attributes of upstream messages; a missing one raises. *)

Definition attr_event (msg : UpstreamMsg) : M Z :=
  match msg with
  | MsgHubAttachedIO _ event _ => ret event
  | _ => raise AttributeError
  end.

Definition attr_port (msg : UpstreamMsg) : M Z :=
  match msg with
  | MsgHubAttachedIO port _ _ => ret port
  | MsgPortValueSingle port _ => ret port
  | MsgPortValueCombined port _ => ret port
  | _ => raise AttributeError
  end.

Definition attr_payload (msg : UpstreamMsg) : M (list Z) :=
  match msg with
  | MsgHubAttachedIO _ _ payload => ret payload
  | MsgPortValueSingle _ payload => ret payload
  | MsgPortValueCombined _ payload => ret payload
  | MsgUpstreamOther _ payload => ret payload
  | _ => raise AttributeError
  end.

Definition attr_action (msg : UpstreamMsg) : M Z :=
  match msg with
  | MsgHubAction action => ret action
  | _ => raise AttributeError
  end.

(** [msg.message()] *)
Definition msg_message (msg : UpstreamMsg) : M string :=
  match msg with
  | MsgGenericError message => ret message
  | _ => raise AttributeError
  end.

(** ** The methods of [Hub] and [MoveHub] *)

Section Methods.
Context {proto : Protocol}.

(** The dict literal [PERIPHERAL_TYPES]: of two equal keys the later entry
    stays. *)
Definition PERIPHERAL_TYPES : gmap Z PeripheralClass :=
  <[DEV_VOLTAGE := Voltage]>
  (<[DEV_CURRENT := Current]>
  (<[DEV_TILT_INTERNAL := TiltSensor]>
  (<[DEV_TILT_EXTERNAL := TiltSensor]>
  (<[DEV_RGB_LIGHT := LEDRGB]>
  (<[DEV_VISION_SENSOR := VisionSensor]>
  (<[DEV_MOTOR_INTERNAL_TACHO := EncodedMotor]>
  (<[DEV_MOTOR_EXTERNAL_TACHO := EncodedMotor]>
  (<[DEV_MOTOR := Motor]> ∅)))))))).

(** [[usbyte(payload, x) for x in xs]] *)
Fixpoint usbytes (payload : list Z) (xs : list Z) : M (list Z) :=
  match xs with
  | [] => ret []
  | x :: rest =>
      let* b := lift (usbyte payload x) in
      let* bs := usbytes payload rest in
      ret (b :: bs)
  end.

(** [Hub._handle_device_change] *)
Definition Hub_handle_device_change (msg : UpstreamMsg) : M unit :=
  let* event := attr_event msg in
  if event =? EVENT_DETACHED then
    let* port := attr_port msg in
    let* p := peripherals_getitem port in
    logging DEBUG "Detaching peripheral: %s" [ArgRef p] >>
    peripherals_pop port >>
    ret tt
  else
    assert ((event =? EVENT_ATTACHED) || (event =? EVENT_ATTACHED_VIRTUAL)) >>
    let* port := attr_port msg in
    let* payload := attr_payload msg in
    let* dev_type := lift (ushort payload 0) in
    match PERIPHERAL_TYPES !! dev_type with
    | Some cls =>
        let* p := new_peripheral cls port in
        peripherals_setitem port p
    | None =>
        logging WARNING
          "Have not dedicated class for peripheral type 0x%x on port 0x%x"
          [ArgInt dev_type; ArgInt port] >>
        let* p := new_peripheral Peripheral port in
        peripherals_setitem port p
    end >>
    let* p := peripherals_getitem port in
    logging INFO "Attached peripheral: %s" [ArgRef p] >>
    if event =? EVENT_ATTACHED then
      let* hw_revision := usbytes payload [2; 3; 4; 5] in
      let* sw_revision := usbytes payload [6; 7; 8; 9] in
      ret tt
    else if event =? EVENT_ATTACHED_VIRTUAL then
      let* a := lift (usbyte payload 2) in
      let* b := lift (usbyte payload 3) in
      let* p := peripherals_getitem port in
      set_virtual_ports p (a, b)
    else ret tt.

(** [Hub._handle_sensor_data] *)
Definition _handle_sensor_data (msg : UpstreamMsg) : M unit :=
  assert (isinstance msg ClsPortValueSingle
          || isinstance msg ClsPortValueCombined) >>
  let* port := attr_port msg in
  let* h := get_state in
  match peripherals h !! port with
  | None =>
      logging WARNING "Notification on port with no device: %s" [ArgInt port]
  | Some _ =>
      let* device := peripherals_getitem port in
      queue_port_data device msg
  end.

(** [Hub._handle_error] *)
Definition _handle_error (msg : UpstreamMsg) : M unit :=
  let* text := msg_message msg in
  logging WARNING "Command error: %s" [ArgText text] >>
  let* h := get_state in
  match _sync_request h with
  | Some _ =>
      modify (set_sync_request None) >>
      queue_put msg
  | None => ret tt
  end.

(** [Hub._handle_action] *)
Definition _handle_action (msg : UpstreamMsg) : M unit :=
  let* action := attr_action msg in
  if action =? UPSTREAM_DISCONNECT then
    logging WARNING "Hub disconnects" [] >>
    connection_disconnect
  else if action =? UPSTREAM_SHUTDOWN then
    logging WARNING "Hub switches off" [] >>
    connection_disconnect
  else ret tt.

Definition PORT_A : Z := 0x00.
Definition PORT_B : Z := 0x01.
Definition PORT_C : Z := 0x02.
Definition PORT_D : Z := 0x03.
Definition PORT_AB : Z := 0x10.
Definition PORT_LED : Z := 0x32.
Definition PORT_TILT_SENSOR : Z := 0x3A.
Definition PORT_CURRENT : Z := 0x3B.
Definition PORT_VOLTAGE : Z := 0x3C.

(** [self.<field> = p] for each shorthand field *)
Definition set_field (f : Shortcuts -> Shortcuts) : M unit :=
  modify (fun h => set_shortcuts (f (shortcuts h)) h).

Definition with_led (p : ref) (s : Shortcuts) : Shortcuts :=
  {| led := Some p; current := current s; voltage := voltage s;
     motor_A := motor_A s; motor_B := motor_B s; motor_AB := motor_AB s;
     vision_sensor := vision_sensor s; tilt_sensor := tilt_sensor s;
     motor_external := motor_external s; port_C := port_C s;
     port_D := port_D s |}.
Definition with_current (p : ref) (s : Shortcuts) : Shortcuts :=
  {| led := led s; current := Some p; voltage := voltage s;
     motor_A := motor_A s; motor_B := motor_B s; motor_AB := motor_AB s;
     vision_sensor := vision_sensor s; tilt_sensor := tilt_sensor s;
     motor_external := motor_external s; port_C := port_C s;
     port_D := port_D s |}.
Definition with_voltage (p : ref) (s : Shortcuts) : Shortcuts :=
  {| led := led s; current := current s; voltage := Some p;
     motor_A := motor_A s; motor_B := motor_B s; motor_AB := motor_AB s;
     vision_sensor := vision_sensor s; tilt_sensor := tilt_sensor s;
     motor_external := motor_external s; port_C := port_C s;
     port_D := port_D s |}.
Definition with_motor_A (p : ref) (s : Shortcuts) : Shortcuts :=
  {| led := led s; current := current s; voltage := voltage s;
     motor_A := Some p; motor_B := motor_B s; motor_AB := motor_AB s;
     vision_sensor := vision_sensor s; tilt_sensor := tilt_sensor s;
     motor_external := motor_external s; port_C := port_C s;
     port_D := port_D s |}.
Definition with_motor_B (p : ref) (s : Shortcuts) : Shortcuts :=
  {| led := led s; current := current s; voltage := voltage s;
     motor_A := motor_A s; motor_B := Some p; motor_AB := motor_AB s;
     vision_sensor := vision_sensor s; tilt_sensor := tilt_sensor s;
     motor_external := motor_external s; port_C := port_C s;
     port_D := port_D s |}.
Definition with_motor_AB (p : ref) (s : Shortcuts) : Shortcuts :=
  {| led := led s; current := current s; voltage := voltage s;
     motor_A := motor_A s; motor_B := motor_B s; motor_AB := Some p;
     vision_sensor := vision_sensor s; tilt_sensor := tilt_sensor s;
     motor_external := motor_external s; port_C := port_C s;
     port_D := port_D s |}.
Definition with_vision_sensor (p : ref) (s : Shortcuts) : Shortcuts :=
  {| led := led s; current := current s; voltage := voltage s;
     motor_A := motor_A s; motor_B := motor_B s; motor_AB := motor_AB s;
     vision_sensor := Some p; tilt_sensor := tilt_sensor s;
     motor_external := motor_external s; port_C := port_C s;
     port_D := port_D s |}.
Definition with_tilt_sensor (p : ref) (s : Shortcuts) : Shortcuts :=
  {| led := led s; current := current s; voltage := voltage s;
     motor_A := motor_A s; motor_B := motor_B s; motor_AB := motor_AB s;
     vision_sensor := vision_sensor s; tilt_sensor := Some p;
     motor_external := motor_external s; port_C := port_C s;
     port_D := port_D s |}.
Definition with_motor_external (p : ref) (s : Shortcuts) : Shortcuts :=
  {| led := led s; current := current s; voltage := voltage s;
     motor_A := motor_A s; motor_B := motor_B s; motor_AB := motor_AB s;
     vision_sensor := vision_sensor s; tilt_sensor := tilt_sensor s;
     motor_external := Some p; port_C := port_C s;
     port_D := port_D s |}.
Definition with_port_C (p : ref) (s : Shortcuts) : Shortcuts :=
  {| led := led s; current := current s; voltage := voltage s;
     motor_A := motor_A s; motor_B := motor_B s; motor_AB := motor_AB s;
     vision_sensor := vision_sensor s; tilt_sensor := tilt_sensor s;
     motor_external := motor_external s; port_C := Some p;
     port_D := port_D s |}.
Definition with_port_D (p : ref) (s : Shortcuts) : Shortcuts :=
  {| led := led s; current := current s; voltage := voltage s;
     motor_A := motor_A s; motor_B := motor_B s; motor_AB := motor_AB s;
     vision_sensor := vision_sensor s; tilt_sensor := tilt_sensor s;
     motor_external := motor_external s; port_C := port_C s;
     port_D := Some p |}.

(** [self.<field> = self.peripherals[port]] *)
Definition bind_field (w : ref -> Shortcuts -> Shortcuts) (port : Z) : M unit :=
  let* p := peripherals_getitem port in
  set_field (w p).

(** [MoveHub._handle_device_change] *)
Definition MoveHub_handle_device_change (msg : UpstreamMsg) : M unit :=
  Hub_handle_device_change msg >>
  if isinstance msg ClsHubAttachedIO then
    let* event := attr_event msg in
    if negb (event =? EVENT_DETACHED) then
      let* port := attr_port msg in
      (if port =? PORT_A then bind_field with_motor_A port
       else if port =? PORT_B then bind_field with_motor_B port
       else if port =? PORT_AB then bind_field with_motor_AB port
       else if port =? PORT_C then bind_field with_port_C port
       else if port =? PORT_D then bind_field with_port_D port
       else if port =? PORT_LED then bind_field with_led port
       else if port =? PORT_TILT_SENSOR then bind_field with_tilt_sensor port
       else if port =? PORT_CURRENT then bind_field with_current port
       else if port =? PORT_VOLTAGE then bind_field with_voltage port
       else ret tt) >>
      let* p := peripherals_getitem port in
      let* t := type_of p in
      if bool_decide (t = VisionSensor) then
        bind_field with_vision_sensor port
      else
        let* p := peripherals_getitem port in
        let* t := type_of p in
        if bool_decide (t = EncodedMotor)
           && negb ((port =? PORT_A) || (port =? PORT_B) || (port =? PORT_AB))
        then bind_field with_motor_external port
        else ret tt
    else ret tt
  else ret tt.

(** The bound method [self._handle_device_change]. *)
Definition _handle_device_change (msg : UpstreamMsg) : M unit :=
  let* h := get_state in
  match hub_class h with
  | ClassHub => Hub_handle_device_change msg
  | ClassMoveHub => MoveHub_handle_device_change msg
  end.

(** [Hub._get_upstream_msg]: the first kind of [UPSTREAM_MSGS] whose
    [TYPE] is the type byte decodes the data. *)
Fixpoint find_msg_kind (data : list Z) (msg_type : Z) (kinds : list MsgKind)
  : M (option UpstreamMsg) :=
  match kinds with
  | [] => ret None
  | msg_kind :: rest =>
      if msg_type =? TYPE msg_kind then
        let* msg := lift (decode msg_kind data) in
        logging DEBUG "Decoded message: %r" [ArgUp msg] >>
        ret (Some msg)
      else find_msg_kind data msg_type rest
  end.

Definition _get_upstream_msg (data : list Z) : M UpstreamMsg :=
  let* msg_type := lift (usbyte data 2) in
  let* msg := find_msg_kind data msg_type UPSTREAM_MSGS in
  match msg with
  | Some m => ret m
  | None => raise AssertionError
  end.

(** [handler(msg)] for a callback of the handler table. *)
Definition call (handler : Callback) (msg : UpstreamMsg) : M unit :=
  match handler with
  | cb_handle_device_change => _handle_device_change msg
  | cb_handle_sensor_data => _handle_sensor_data msg
  | cb_handle_error => _handle_error msg
  | cb_handle_action => _handle_action msg
  | cb_external name =>
      modify (fun h => set_external_calls (external_calls h ++ [(name, msg)]) h)
  end.

(** The [with self._sync_lock] block of [_notify]. *)
Definition correlate (msg : UpstreamMsg) : M unit :=
  let* h := get_state in
  match _sync_request h with
  | Some req =>
      if is_reply req msg then
        logging DEBUG "Found matching upstream msg: %r" [ArgUp msg] >>
        queue_put msg >>
        modify (set_sync_request None)
      else ret tt
  | None => ret tt
  end.

(** The body of the loop over [_msg_handlers] in [_notify]. *)
Definition dispatch (msg : UpstreamMsg) (entry : MsgClass * Callback) : M unit :=
  if isinstance msg (fst entry) then
    logging DEBUG "Handling msg with %s: %r"
      [ArgCallback (snd entry); ArgUp msg] >>
    call (snd entry) msg
  else ret tt.

(** [Hub._notify] *)
Definition _notify (handle : Z) (data : list Z) : M unit :=
  logging DEBUG "Notification on %s: %s" [ArgInt handle; ArgBytes data] >>
  let* msg := _get_upstream_msg data in
  correlate msg >>
  let* h := get_state in
  for_each (_msg_handlers h) (dispatch msg).

(** [Hub.send], the branch of a message that needs a reply, in two parts:
    up to the write, and from the blocking [get] on. *)
Definition send_request (msg : DownstreamMsg) (msgbytes : list Z) : M unit :=
  (let* h := get_state in
   assert (negb (bool_decide (is_Some (_sync_request h)))) >>
   modify (set_sync_request (Some msg)) >>
   logging DEBUG "Waiting for sync reply to %r..." [ArgDown msg]) >>
  connection_write HUB_HARDWARE_HANDLE msgbytes.

Definition send_await : M UpstreamMsg :=
  let* resp := queue_get in
  logging DEBUG "Fetched sync reply: %r" [ArgUp resp] >>
  if isinstance resp ClsGenericError then
    let* text := msg_message resp in
    raise (RuntimeError text)
  else ret resp.

(** [Hub.send]; [env] is what the notification thread does to the instance
    between the write and the moment the caller looks into the queue. *)
Definition send (env : Hub -> Hub) (msg : DownstreamMsg) : M (option UpstreamMsg) :=
  logging DEBUG "Send message: %r" [ArgDown msg] >>
  let msgbytes := bytes msg in
  if needs_reply msg then
    send_request msg msgbytes >>
    concurrently env >>
    let* resp := send_await in
    ret (Some resp)
  else
    connection_write HUB_HARDWARE_HANDLE msgbytes >>
    ret None.

(** [Hub.add_message_handler] *)
Definition add_message_handler (classname : MsgClass) (callback : Callback) : M unit :=
  modify (fun h => set_msg_handlers (_msg_handlers h ++ [(classname, callback)]) h).

End Methods.

(** [Hub.__init__] on the connection that it ends up with; [MoveHub.__init__]
    then sets every shorthand field to [None]. *)
Definition no_shortcuts : Shortcuts :=
  {| led := None; current := None; voltage := None; motor_A := None;
     motor_B := None; motor_AB := None; vision_sensor := None;
     tilt_sensor := None; motor_external := None; port_C := None;
     port_D := None |}.

Definition Hub__init__ (cls : HubClass) (conn : Connection) : Hub :=
  {| hub_class := cls;
     _msg_handlers :=
       [(ClsHubAttachedIO, cb_handle_device_change);
        (ClsPortValueSingle, cb_handle_sensor_data);
        (ClsPortValueCombined, cb_handle_sensor_data);
        (ClsGenericError, cb_handle_error);
        (ClsHubAction, cb_handle_action)];
     peripherals := ∅;
     _sync_request := None;
     _sync_replies := [];
     connection :=
       {| alive := alive conn; notify_handler_set := true;
          notifications_enabled := true; written := written conn |};
     shortcuts := no_shortcuts;
     objects := [];
     log := [];
     external_calls := [] |}.

(** ** [MoveHub._wait_for_devices] *)

(** What the loop does to the outside: it sleeps and it logs. *)
Inductive Effect :=
  | Sleep (milliseconds : Z)
  | Log (r : LogRecord).

(** The default [get_dev_set] reads seven shorthand fields. *)
Definition default_dev_set (h : Hub) : list (option ref) :=
  let s := shortcuts h in
  [motor_A s; motor_B s; motor_AB s; led s; tilt_sensor s; current s; voltage s].

(** [all(devices)]: [None] is false, an instance is true. *)
Definition all (devices : list (option ref)) : bool :=
  forallb (fun d => bool_decide (is_Some d)) devices.

(** The loop [for num in range(0, 60)] and the warning after it.
    [get_dev_set] is called again in every round while the notification
    thread fills the fields: [get_dev_set k] is what its call number [k]
    returns. *)
Fixpoint wait_rounds (get_dev_set : nat -> list (option ref))
    (nums : list Z) (k : nat) : list Effect * Outcome unit :=
  match nums with
  | [] =>
      ([Log {| level := WARNING; format := "Got only these devices: %s";
               args := [ArgDevices (get_dev_set k)] |}],
       Return tt)
  | num :: rest =>
      let devices := get_dev_set k in
      if all devices then
        ([Log {| level := DEBUG; format := "All devices are present: %s";
                 args := [ArgDevices devices] |}],
         Return tt)
      else
        let '(effects, out) := wait_rounds get_dev_set rest (S k) in
        (Log {| level := DEBUG;
                format := "Waiting for builtin devices to appear: %s";
                args := [ArgDevices devices] |}
         :: Sleep 100 :: effects, out)
  end.

(** [range(0, 60)] *)
Definition range_0_60 : list Z := Z.of_nat <$> seq 0 60.

(** [world k] is the instance as call number [k] of the default [get_dev_set]
    finds it; [time.sleep(0.1)] is recorded as 100 milliseconds. *)
Definition _wait_for_devices (world : nat -> Hub)
    (get_dev_set : option (nat -> list (option ref))) : list Effect * Outcome unit :=
  let get_dev_set :=
    match get_dev_set with
    | Some f => f
    | None => fun k => default_dev_set (world k)
    end in
  wait_rounds get_dev_set range_0_60 0.

(** ** Running the model: one instance of the imported names *)

Module Sample.

(** A byte reader over a list of bytes; reading past the end raises. *)
Definition read_usbyte (seq : list Z) (index : Z) : Result Z :=
  if index <? 0 then Err (ExternalError 0)
  else match seq !! Z.to_nat index with
       | Some b => Ok b
       | None => Err (ExternalError 0)
       end.

Definition read_ushort (seq : list Z) (index : Z) : Result Z :=
  match read_usbyte seq index, read_usbyte seq (index + 1) with
  | Ok lo, Ok hi => Ok (lo + 256 * hi)
  | _, _ => Err (ExternalError 0)
  end.

Definition decode_attached_io (data : list Z) : Result UpstreamMsg :=
  match data with
  | _ :: _ :: _ :: port :: event :: payload =>
      Ok (MsgHubAttachedIO port event payload)
  | _ => Err (ExternalError 1)
  end.

Definition decode_generic_error (data : list Z) : Result UpstreamMsg :=
  Ok (MsgGenericError "Command 0x41 caused error 0x06").

Definition decode_properties (data : list Z) : Result UpstreamMsg :=
  match data with
  | _ :: _ :: _ :: property :: operation :: parameters =>
      Ok (MsgHubProperties property operation parameters)
  | _ => Err (ExternalError 1)
  end.

Definition protocol : Protocol :=
  {| EVENT_DETACHED := 0x00;
     EVENT_ATTACHED := 0x01;
     EVENT_ATTACHED_VIRTUAL := 0x02;
     DEV_MOTOR := 0x0001;
     DEV_MOTOR_EXTERNAL_TACHO := 0x0026;
     DEV_MOTOR_INTERNAL_TACHO := 0x0027;
     DEV_VISION_SENSOR := 0x0025;
     DEV_RGB_LIGHT := 0x0017;
     DEV_TILT_EXTERNAL := 0x0022;
     DEV_TILT_INTERNAL := 0x0028;
     DEV_CURRENT := 0x0015;
     DEV_VOLTAGE := 0x0014;
     UPSTREAM_DISCONNECT := 0x31;
     UPSTREAM_SHUTDOWN := 0x30;
     usbyte := read_usbyte;
     ushort := read_ushort;
     UPSTREAM_MSGS :=
       [ {| TYPE := 0x01; decode := decode_properties |};
         {| TYPE := 0x04; decode := decode_attached_io |};
         {| TYPE := 0x05; decode := decode_generic_error |} ] |}.

Definition conn : Connection :=
  {| alive := true; notify_handler_set := false;
     notifications_enabled := false; written := [] |}.

(** a motor with tacho attaches at port 0 *)
Definition attach_motor_A : UpstreamMsg :=
  MsgHubAttachedIO 0 0x01 [0x27; 0; 0; 0; 0; 1; 0; 0; 0; 1].

(** a device of a type without a class attaches at port 2 *)
Definition attach_unknown_C : UpstreamMsg :=
  MsgHubAttachedIO 2 0x01 [0x99; 0; 0; 0; 0; 1; 0; 0; 0; 1].

(** the virtual port 0x10 that joins ports 0 and 1 *)
Definition attach_virtual_AB : UpstreamMsg :=
  MsgHubAttachedIO 0x10 0x02 [0x27; 0; 0; 1].

Definition detach (port : Z) : UpstreamMsg := MsgHubAttachedIO port 0x00 [].

(** Modelled from the spec: the request for a hub property, of
    [pylgbst.messages], which is not part of [hub.py]; "a property reply
    matches if its property id equals the request's property id". *)
Definition property_request (property : Z) : DownstreamMsg :=
  {| needs_reply := true;
     bytes := [5; 0; 0x01; property; 0x05];
     is_reply := fun msg =>
       match msg with
       | MsgHubProperties p _ _ => p =? property
       | _ => false
       end |}.

(** a frame of type 0x05: a generic error *)
Definition error_frame : list Z := [5; 0; 0x05; 0x41; 0x06].

Definition error_msg : UpstreamMsg :=
  MsgGenericError "Command 0x41 caused error 0x06".

(** a new [MoveHub] *)
Definition new_hub : Hub := Hub__init__ ClassMoveHub conn.

(** the same with the request for property 6 pending *)
Definition waiting_hub : Hub := set_sync_request (Some (property_request 6)) new_hub.

(** a [MoveHub] after the motor at port 0 has attached *)
Definition hub_with_motor : Hub :=
  fst (_handle_device_change (proto := protocol) attach_motor_A new_hub).

End Sample.

(** ** Notions used to state the properties *)

Section Notions.
Context {proto : Protocol}.

Definition is_ok {A} (r : Result A) : bool :=
  match r with
  | Ok _ => true
  | Err _ => false
  end.

(** A detach notification, as the handler tells it. *)
Definition is_detach (msg : UpstreamMsg) : bool :=
  match msg with
  | MsgHubAttachedIO _ event _ => event =? EVENT_DETACHED
  | _ => false
  end.

(** An attach notification: not a detach, and one of the two attach
    events. *)
Definition is_attach (msg : UpstreamMsg) : bool :=
  match msg with
  | MsgHubAttachedIO _ event _ =>
      negb (event =? EVENT_DETACHED)
      && ((event =? EVENT_ATTACHED) || (event =? EVENT_ATTACHED_VIRTUAL))
  | _ => false
  end.

(** The payload of an attach notification holds what the handler reads from
    it: the device type, and the revisions or the pair of ports. *)
Definition readable (msg : UpstreamMsg) : bool :=
  match msg with
  | MsgHubAttachedIO _ event payload =>
      is_ok (ushort payload 0)
      && (if event =? EVENT_ATTACHED then
            forallb (fun x => is_ok (usbyte payload x)) [2; 3; 4; 5; 6; 7; 8; 9]
          else if event =? EVENT_ATTACHED_VIRTUAL then
            is_ok (usbyte payload 2) && is_ok (usbyte payload 3)
          else true)
  | _ => false
  end.

Definition port_of (msg : UpstreamMsg) : option Z :=
  match msg with
  | MsgHubAttachedIO port _ _ => Some port
  | MsgPortValueSingle port _ => Some port
  | MsgPortValueCombined port _ => Some port
  | _ => None
  end.

(** The last notification about [port] in [msgs]. *)
Definition last_event (port : Z) (msgs : list UpstreamMsg) : option UpstreamMsg :=
  last (filter (fun msg => port_of msg = Some port) msgs).

(** [port] is attached after [msgs] on a hub that started with the ports
    [initial]: its last event is an attach, or it has none and was there. *)
Definition attached_after (initial : gset Z) (msgs : list UpstreamMsg) (port : Z) : bool :=
  match last_event port msgs with
  | Some msg => is_attach msg
  | None => bool_decide (port ∈ initial)
  end.

(** Every notification of [msgs] is an attach with a readable payload or a
    detach of a port that is attached at that moment; [before] are the
    notifications that came earlier. *)
Fixpoint well_formed (initial : gset Z) (before msgs : list UpstreamMsg) : bool :=
  match msgs with
  | [] => true
  | msg :: rest =>
      (if is_detach msg then
         match port_of msg with
         | Some port => attached_after initial before port
         | None => false
         end
       else is_attach msg && readable msg)
      && well_formed initial (before ++ [msg]) rest
  end.

(** Replaying notifications through the attachment handler. *)
Definition replay (msgs : list UpstreamMsg) : M unit :=
  for_each msgs _handle_device_change.

(** The fields that the attachment handler of [Hub] leaves alone. *)
Definition same_engine (h h' : Hub) : Prop :=
  hub_class h' = hub_class h
  /\ _msg_handlers h' = _msg_handlers h
  /\ _sync_request h' = _sync_request h
  /\ _sync_replies h' = _sync_replies h
  /\ connection h' = connection h
  /\ external_calls h' = external_calls h.

(** The references held by [peripherals] point into the store and no
    instance sits at two ports. *)
Definition store_ok (h : Hub) : Prop :=
  (forall port p, peripherals h !! port = Some p -> (p < length (objects h))%nat)
  /\ (forall port port' p,
        peripherals h !! port = Some p -> peripherals h !! port' = Some p ->
        port = port').

Definition store_okb (h : Hub) : bool :=
  let refs := (map_to_list (peripherals h)).*2 in
  forallb (fun p => (p <? length (objects h))%nat) refs
  && bool_decide (NoDup refs).

(** [data] is a frame that [_get_upstream_msg] decodes to [msg]; decoding
    only logs. *)
Definition decodes (data : list Z) (msg : UpstreamMsg) : Prop :=
  forall h, exists records,
    _get_upstream_msg data h = (set_log (log h ++ records) h, Return msg).

(** The handler table as [Hub.__init__] fills it, followed by callbacks of
    other objects. *)
Definition builtin_handlers : list (MsgClass * Callback) :=
  _msg_handlers (Hub__init__ ClassHub
    {| alive := true; notify_handler_set := false;
       notifications_enabled := false; written := [] |}).

Definition is_external (entry : MsgClass * Callback) : bool :=
  match snd entry with
  | cb_external _ => true
  | _ => false
  end.

Definition registered (h : Hub) : bool :=
  bool_decide (take 5 (_msg_handlers h) = builtin_handlers)
  && forallb is_external (drop 5 (_msg_handlers h)).

(** The steps that the threads take one at a time: a caller of [send]
    enters it with a message that needs a reply, or writes one that needs
    none, or comes back from the blocking [get]; the notification thread
    runs the locked block of [_notify] or calls one handler. *)
Inductive Action :=
  | ActSendRequest (msg : DownstreamMsg)
  | ActWrite (msg : DownstreamMsg)
  | ActAwait
  | ActCorrelate (msg : UpstreamMsg)
  | ActCall (handler : Callback) (msg : UpstreamMsg).

Definition exec (a : Action) : M unit :=
  match a with
  | ActSendRequest msg => send_request msg (bytes msg)
  | ActWrite msg => connection_write HUB_HARDWARE_HANDLE (bytes msg)
  | ActAwait => send_await >> ret tt
  | ActCorrelate msg => correlate msg
  | ActCall handler msg => call handler msg
  end.

(** An observer of the steps keeps a ledger of the requests that [send]
    has accepted and that no reply was put into the queue for.  A step
    that is suspended on the queue has not happened yet. *)
Definition accepted (a : Action) (out : Outcome unit)
    (ledger : list DownstreamMsg) : list DownstreamMsg :=
  match a, out with
  | ActSendRequest msg, Return _ => ledger ++ [msg]
  | _, _ => ledger
  end.

Definition answered (h h' : Hub) (ledger : list DownstreamMsg)
  : list DownstreamMsg :=
  if (length (_sync_replies h) <? length (_sync_replies h'))%nat
  then tail ledger
  else ledger.

Definition observe (a : Action) (st : Hub * list DownstreamMsg)
  : Hub * list DownstreamMsg :=
  match exec a (fst st) with
  | (_, Block) => st
  | (h', out) => (h', answered (fst st) h' (accepted a out (snd st)))
  end.

Definition run (actions : list Action) (st : Hub * list DownstreamMsg)
  : Hub * list DownstreamMsg :=
  foldl (fun st a => observe a st) st actions.

(** The class that an attach of device type [dev_type] instantiates. *)
Definition class_for (dev_type : Z) : PeripheralClass :=
  default Peripheral (PERIPHERAL_TYPES !! dev_type).

(** [m] leaves the observation [f] of the instance as it is, however [m]
    ends. *)
Definition preserves {A X} (f : Hub -> X) (m : M A) : Prop :=
  forall h, f (fst (m h)) = f h.

(** The pending request and the reply queue. *)
Definition sync_state (h : Hub) : option DownstreamMsg * list UpstreamMsg :=
  (_sync_request h, _sync_replies h).

(** From [h] to [h'] at most one message, [msg], was put into the reply
    queue, and only for a pending request, which is then cleared. *)
Definition at_most_one_put (msg : UpstreamMsg) (h h' : Hub) : Prop :=
  (_sync_replies h' = _sync_replies h
   /\ (_sync_request h' = _sync_request h \/ _sync_request h' = None))
  \/ (_sync_replies h' = _sync_replies h ++ [msg]
      /\ is_Some (_sync_request h)
      /\ _sync_request h' = None
      /\ (length (_sync_replies h) < maxsize)%nat).

(** A step that is not suspended either leaves the pending request and the
    queue alone or answers the pending request. *)
Definition answers_or_same (h h' : Hub) : Prop :=
  sync_state h' = sync_state h
  \/ ((length (_sync_replies h) < length (_sync_replies h'))%nat
      /\ is_Some (_sync_request h)
      /\ _sync_request h' = None).

(** [m] is never suspended in a queue operation. *)
Definition unsuspended {A} (m : M A) : Prop :=
  forall h, snd (m h) <> Block.

(** A run from [h] that ends suspended waits in its first [put], in front
    of a queue that was full before the run began; it has put nothing. *)
Definition suspended_when_full {A} (h : Hub) (r : Hub * Outcome A) : Prop :=
  snd r = Block ->
  (maxsize <= length (_sync_replies h))%nat
  /\ _sync_replies (fst r) = _sync_replies h
  /\ is_Some (_sync_request h).

(** The steps of the notification thread. *)
Definition of_notification (a : Action) : bool :=
  match a with
  | ActCorrelate _ | ActCall _ _ => true
  | _ => false
  end.

(** The step in which [send] takes a new request. *)
Definition is_send_request (a : Action) : bool :=
  match a with
  | ActSendRequest _ => true
  | _ => false
  end.

(** The number of messages that the steps of the notification thread place
    into the reply queue in a run of the steps [actions] from [h]. *)
Fixpoint placed_by_notification (actions : list Action) (h : Hub) : nat :=
  match actions with
  | [] => 0
  | a :: rest =>
      let h' := fst (observe a (h, [])) in
      ((if of_notification a
        then length (_sync_replies h') - length (_sync_replies h)
        else 0)
       + placed_by_notification rest h')%nat
  end.

(** The sleeps of a run of the wait loop, and the warnings it logs. *)
Fixpoint sleeps (effects : list Effect) : list Z :=
  match effects with
  | [] => []
  | Sleep ms :: rest => ms :: sleeps rest
  | Log _ :: rest => sleeps rest
  end.

Fixpoint warnings (effects : list Effect) : list LogRecord :=
  match effects with
  | [] => []
  | Log r :: rest =>
      match level r with
      | WARNING => r :: warnings rest
      | _ => warnings rest
      end
  | Sleep _ :: rest => warnings rest
  end.

Definition total_sleep (effects : list Effect) : Z :=
  foldr Z.add 0 (sleeps effects).

(** The first of [count] calls of [get_dev_set], from call [k] on, that
    finds every device. *)
Definition first_complete (get_dev_set : nat -> list (option ref))
    (k count : nat) : option nat :=
  find (fun j => all (get_dev_set j)) (seq k count).

Definition got_only (devices : list (option ref)) : LogRecord :=
  {| level := WARNING; format := "Got only these devices: %s";
     args := [ArgDevices devices] |}.

(** The record that the error handler logs. *)
Definition command_error (text : string) : LogRecord :=
  {| level := WARNING; format := "Command error: %s"; args := [ArgText text] |}.

(** [records] were logged from [h] to [h'], among other records. *)
Definition logs_between (h h' : Hub) (r : LogRecord) : Prop :=
  exists before after, log h' = log h ++ before ++ [r] ++ after.

(** The ledger of the observer agrees with the instance: it holds the
    pending request and nothing else. *)
Definition ledger_agrees (st : Hub * list DownstreamMsg) : Prop :=
  snd st = option_list (_sync_request (fst st)).

(** A log record of the given level and format. *)
Definition logged (lv : Level) (fmt : string) (records : list LogRecord) : Prop :=
  exists a, {| level := lv; format := fmt; args := a |} ∈ records.

End Notions.

(** ** Notions for the properties of the other methods *)

Section MoreNotions.
Context {proto : Protocol}.

(** [m] keeps the invariant [I], however [m] ends. *)
Definition keeps {A} (I : Hub -> Prop) (m : M A) : Prop :=
  forall h, I h -> I (fst (m h)).

(** What [store_ok] looks at. *)
Definition store_view (h : Hub) : gmap Z nat * nat :=
  (peripherals h, length (objects h)).

(** What a notification must not touch: the frames written to the
    connection, the handler table and the class of the instance. *)
Definition wiring (h : Hub) : list (Z * list Z) * list (MsgClass * Callback) * HubClass :=
  (written (connection h), _msg_handlers h, hub_class h).

(** The calls that the dispatch of [msg] makes to the external callbacks of
    a handler table, in the order of the table. *)
Fixpoint calls_of (msg : UpstreamMsg) (table : list (MsgClass * Callback))
  : list (string * UpstreamMsg) :=
  match table with
  | [] => []
  | (c, cb_external name) :: rest =>
      if isinstance msg c then (name, msg) :: calls_of msg rest
      else calls_of msg rest
  | _ :: rest => calls_of msg rest
  end.

(** Every shorthand field that is set in [s] is set in [s']. *)
Definition fields_kept (s s' : Shortcuts) : Prop :=
  (is_Some (led s) -> is_Some (led s'))
  /\ (is_Some (current s) -> is_Some (current s'))
  /\ (is_Some (voltage s) -> is_Some (voltage s'))
  /\ (is_Some (motor_A s) -> is_Some (motor_A s'))
  /\ (is_Some (motor_B s) -> is_Some (motor_B s'))
  /\ (is_Some (motor_AB s) -> is_Some (motor_AB s'))
  /\ (is_Some (vision_sensor s) -> is_Some (vision_sensor s'))
  /\ (is_Some (tilt_sensor s) -> is_Some (tilt_sensor s'))
  /\ (is_Some (motor_external s) -> is_Some (motor_external s'))
  /\ (is_Some (port_C s) -> is_Some (port_C s'))
  /\ (is_Some (port_D s) -> is_Some (port_D s')).

(** What only attach and detach notifications change. *)
Definition attachments (h : Hub) : gmap Z nat * Shortcuts :=
  (peripherals h, shortcuts h).

(** The shorthand fields after [MoveHub._handle_device_change] has bound the
    instance [p] that attached at [port]: first by the port, then by the
    type [t] of the instance. *)
Definition bound_by_port (port : Z) (p : nat) (s : Shortcuts) : Shortcuts :=
  if port =? PORT_A then with_motor_A p s
  else if port =? PORT_B then with_motor_B p s
  else if port =? PORT_AB then with_motor_AB p s
  else if port =? PORT_C then with_port_C p s
  else if port =? PORT_D then with_port_D p s
  else if port =? PORT_LED then with_led p s
  else if port =? PORT_TILT_SENSOR then with_tilt_sensor p s
  else if port =? PORT_CURRENT then with_current p s
  else if port =? PORT_VOLTAGE then with_voltage p s
  else s.

Definition bound_by_type (port : Z) (t : PeripheralClass) (p : nat)
    (s : Shortcuts) : Shortcuts :=
  if bool_decide (t = VisionSensor) then with_vision_sensor p s
  else if bool_decide (t = EncodedMotor)
          && negb ((port =? PORT_A) || (port =? PORT_B) || (port =? PORT_AB))
       then with_motor_external p s
       else s.

(** [m] unsets no shorthand field. *)
Definition keeps_fields {A} (m : M A) : Prop :=
  forall h, fields_kept (shortcuts h) (shortcuts (fst (m h))).

(** The ports of the devices that [_wait_for_devices] waits for. *)
Definition builtin_ports : list Z :=
  [PORT_A; PORT_B; PORT_AB; PORT_LED; PORT_TILT_SENSOR; PORT_CURRENT;
   PORT_VOLTAGE].

(** [msgs] holds an attach notification for [port]. *)
Definition attaches_at (port : Z) (msgs : list UpstreamMsg) : bool :=
  existsb (fun msg => is_attach msg && bool_decide (port_of msg = Some port)) msgs.

(** The built-in handler that [Hub.__init__] registers for the class of
    [msg]. *)
Definition builtin_for (msg : UpstreamMsg) : option Callback :=
  match class_of msg with
  | ClsHubAttachedIO => Some cb_handle_device_change
  | ClsPortValueSingle => Some cb_handle_sensor_data
  | ClsPortValueCombined => Some cb_handle_sensor_data
  | ClsGenericError => Some cb_handle_error
  | ClsHubAction => Some cb_handle_action
  | _ => None
  end.

(** Everything of the instance but the pending request, the reply queue and
    the log. *)
Definition outside_sync (h : Hub) :=
  (hub_class h, _msg_handlers h, peripherals h, connection h, shortcuts h,
   objects h, external_calls h).

(** What the locked block of [_notify] makes of the pending request and the
    queue when the queue has room. *)
Definition correlated (msg : UpstreamMsg) (h : Hub)
  : option DownstreamMsg * list UpstreamMsg :=
  match _sync_request h with
  | Some req =>
      if is_reply req msg then (None, _sync_replies h ++ [msg])
      else (Some req, _sync_replies h)
  | None => (None, _sync_replies h)
  end.

(** [m] does not look at the handler table: with another table in the
    instance it does the same to the rest of the instance and ends the
    same. *)
Definition ignores_table {A} (m : M A) : Prop :=
  forall t h, m (set_msg_handlers t h) = (set_msg_handlers t (fst (m h)), snd (m h)).

(** The body of [_notify], with the table that its loop runs over. *)
Definition notify_through (table : list (MsgClass * Callback))
    (handle : Z) (data : list Z) : M unit :=
  logging DEBUG "Notification on %s: %s" [ArgInt handle; ArgBytes data] >>
  let* msg := _get_upstream_msg data in
  correlate msg >>
  for_each table (dispatch msg).

End MoreNotions.

(** ** A second instance of the imported names, with more kinds of frames *)

Module Sample2.

Definition decode_port_value_single (data : list Z) : Result UpstreamMsg :=
  match data with
  | _ :: _ :: _ :: port :: payload => Ok (MsgPortValueSingle port payload)
  | _ => Err (ExternalError 1)
  end.

Definition decode_port_value_combined (data : list Z) : Result UpstreamMsg :=
  match data with
  | _ :: _ :: _ :: port :: payload => Ok (MsgPortValueCombined port payload)
  | _ => Err (ExternalError 1)
  end.

Definition decode_hub_action (data : list Z) : Result UpstreamMsg :=
  match data with
  | _ :: _ :: _ :: action :: _ => Ok (MsgHubAction action)
  | _ => Err (ExternalError 1)
  end.

Definition protocol : Protocol :=
  {| EVENT_DETACHED := @EVENT_DETACHED Sample.protocol;
     EVENT_ATTACHED := @EVENT_ATTACHED Sample.protocol;
     EVENT_ATTACHED_VIRTUAL := @EVENT_ATTACHED_VIRTUAL Sample.protocol;
     DEV_MOTOR := @DEV_MOTOR Sample.protocol;
     DEV_MOTOR_EXTERNAL_TACHO := @DEV_MOTOR_EXTERNAL_TACHO Sample.protocol;
     DEV_MOTOR_INTERNAL_TACHO := @DEV_MOTOR_INTERNAL_TACHO Sample.protocol;
     DEV_VISION_SENSOR := @DEV_VISION_SENSOR Sample.protocol;
     DEV_RGB_LIGHT := @DEV_RGB_LIGHT Sample.protocol;
     DEV_TILT_EXTERNAL := @DEV_TILT_EXTERNAL Sample.protocol;
     DEV_TILT_INTERNAL := @DEV_TILT_INTERNAL Sample.protocol;
     DEV_CURRENT := @DEV_CURRENT Sample.protocol;
     DEV_VOLTAGE := @DEV_VOLTAGE Sample.protocol;
     UPSTREAM_DISCONNECT := @UPSTREAM_DISCONNECT Sample.protocol;
     UPSTREAM_SHUTDOWN := @UPSTREAM_SHUTDOWN Sample.protocol;
     usbyte := Sample.read_usbyte;
     ushort := Sample.read_ushort;
     UPSTREAM_MSGS :=
       @UPSTREAM_MSGS Sample.protocol
       ++ [ {| TYPE := 0x02; decode := decode_hub_action |};
            {| TYPE := 0x45; decode := decode_port_value_single |};
            {| TYPE := 0x46; decode := decode_port_value_combined |} ] |}.

(** a value of the device at port 0 *)
Definition value_frame : list Z := [6; 0; 0x45; 0; 0x2A; 0].

Definition value_msg : UpstreamMsg := MsgPortValueSingle 0 [0x2A; 0].

(** the hub reports that it disconnects *)
Definition disconnect_frame : list Z := [4; 0; 0x02; 0x31].

(** a new [MoveHub] with a callback of a button registered for hub
    properties and one of a logger registered for errors *)
Definition hub_with_callbacks : Hub :=
  set_msg_handlers
    (_msg_handlers Sample.new_hub
     ++ [(ClsHubProperties, cb_external "button");
         (ClsGenericError, cb_external "logger")])
    Sample.new_hub.

(** the seven built-in devices at their ports *)
Definition attach_builtin (port type : Z) : UpstreamMsg :=
  MsgHubAttachedIO port 0x01 [type; 0; 0; 0; 0; 1; 0; 0; 0; 1].

Definition builtin_attaches : list UpstreamMsg :=
  [attach_builtin 0x00 0x27; attach_builtin 0x01 0x27;
   MsgHubAttachedIO 0x10 0x02 [0x27; 0; 0; 1];
   attach_builtin 0x32 0x17; attach_builtin 0x3A 0x28;
   attach_builtin 0x3B 0x15; attach_builtin 0x3C 0x14].

(** frames and messages of the runs below: an attach of a motor with tacho
    at port 0, detaches, replies to a property request *)
Definition attach_frame : list Z :=
  [15; 0; 0x04; 0; 0x01; 0x27; 0; 0; 0; 0; 1; 0; 0; 0; 1].
Definition detach_frame_3 : list Z := [5; 0; 0x04; 3; 0x00].
Definition reply_frame_6 : list Z := [6; 0; 0x01; 6; 6; 100].
Definition reply_frame_7 : list Z := [6; 0; 0x01; 7; 6; 100].

Definition full_hub : Hub :=
  fst (replay (proto := Sample.protocol) builtin_attaches Sample.new_hub).
Definition detach_frame_0 : list Z := [5; 0; 0x04; 0; 0x00].
Definition fire_and_forget : DownstreamMsg :=
  {| needs_reply := false; bytes := [8; 0; 0x81; 0x32; 0x11; 0x51; 0; 5];
     is_reply := fun _ => false |}.
Definition attach_vision_C : UpstreamMsg :=
  MsgHubAttachedIO 2 0x01 [0x25; 0; 0; 0; 0; 1; 0; 0; 0; 1].
Definition attach_truncated : UpstreamMsg := MsgHubAttachedIO 0 0x01 [0x27; 0].

(** a request that takes whatever arrives next as its reply, a generic
    error included *)
Definition request_any : DownstreamMsg :=
  {| needs_reply := true; bytes := [8; 0; 0x81; 0x00; 0x11; 0x51; 0; 50];
     is_reply := fun _ => true |}.

(** a new [MoveHub] on which [send] has accepted [request_any] *)
Definition hub_awaiting_any : Hub :=
  fst (send_request request_any (bytes request_any) Sample.new_hub).

(** the reply to an earlier request is still in the queue when
    [request_any] is accepted *)
Definition hub_with_unfetched_reply : Hub :=
  set_sync_replies [MsgHubProperties 6 6 [100]] hub_awaiting_any.

(** One error notification, step by step: a caller has sent [request_any];
    the locked block of [_notify] runs; the caller takes the error out of
    the queue; [send] accepts the next request; then [_notify] comes to the
    error handler. *)
Definition interleaved_error : list Action :=
  [ActSendRequest request_any;
   ActCorrelate Sample.error_msg;
   ActAwait;
   ActSendRequest (Sample.property_request 6);
   ActCall cb_handle_error Sample.error_msg].


(** a request to change a port, which a notification of attached IO
    answers *)
Definition port_request : DownstreamMsg :=
  {| needs_reply := true; bytes := [6; 0; 0x61; 0x00; 3; 0];
     is_reply := fun msg =>
       match msg with
       | MsgHubAttachedIO _ _ _ => true
       | _ => false
       end |}.

(** a new [MoveHub] with a callback of a listener registered for attached
    IO, on which [port_request] is pending *)
Definition hub_with_listener : Hub :=
  set_sync_request (Some port_request)
    (set_msg_handlers
       (_msg_handlers Sample.new_hub ++ [(ClsHubAttachedIO, cb_external "listener")])
       Sample.new_hub).

End Sample2.

(** * Properties *)

Example sample_attach_motor :
  let h := fst (Hub_handle_device_change (proto := Sample.protocol)
                  Sample.attach_motor_A (Hub__init__ ClassHub Sample.conn)) in
  peripherals h !! 0 = Some 0%nat /\ p_type <$> objects h !! 0%nat = Some EncodedMotor.
Proof. vm_compute. split; reflexivity. Qed.

(** ** The attachment handler *)

Section Attachment.
Context {proto : Protocol}.

Ltac run := repeat (progress (unfold bind, ret, raise, modify, get_state,
  logging, assert, lift, peripherals_pop, peripherals_getitem,
  peripherals_setitem, new_peripheral, set_virtual_ports; simpl)).

Lemma detach_absent h port payload :
  peripherals h !! port = None ->
  Hub_handle_device_change (MsgHubAttachedIO port EVENT_DETACHED payload) h
  = (h, Raise (KeyError port)).
Proof.
  intros Hnone. unfold Hub_handle_device_change. run.
  rewrite Z.eqb_refl. rewrite Hnone. reflexivity.
Qed.

Lemma detach_present h port payload p :
  peripherals h !! port = Some p ->
  Hub_handle_device_change (MsgHubAttachedIO port EVENT_DETACHED payload) h
  = (set_peripherals (delete port)
       (set_log (log h ++ [{| level := DEBUG;
                              format := "Detaching peripheral: %s";
                              args := [ArgRef p] |}]) h),
     Return tt).
Proof.
  intros Hsome. unfold Hub_handle_device_change. run.
  rewrite Z.eqb_refl. rewrite Hsome. simpl. rewrite ?Hsome. reflexivity.
Qed.

Lemma usbytes_readable payload xs h :
  forallb (fun x => is_ok (usbyte payload x)) xs = true ->
  exists bs, usbytes payload xs h = (h, Return bs).
Proof.
  induction xs as [|x xs IH]; simpl; intros Hok.
  - eexists. reflexivity.
  - apply andb_prop in Hok as [Hx Hxs].
    destruct (IH Hxs) as [bs Hbs].
    unfold bind. destruct (usbyte payload x); [|discriminate].
    simpl. rewrite Hbs. eexists. reflexivity.
Qed.

Lemma alter_last {A} (f : A -> A) (l : list A) (x : A) :
  alter f (length l) (l ++ [x]) = l ++ [f x].
Proof. induction l as [|y l IH]; simpl; [reflexivity|]. f_equal. exact IH. Qed.

(** What an attach notification with a readable payload does. *)
Lemma attach_effect h port event payload :
  is_attach (MsgHubAttachedIO port event payload) = true ->
  readable (MsgHubAttachedIO port event payload) = true ->
  exists h' dev_type o,
    Hub_handle_device_change (MsgHubAttachedIO port event payload) h
    = (h', Return tt)
    /\ ushort payload 0 = Ok dev_type
    /\ peripherals h' = <[port := length (objects h)]> (peripherals h)
    /\ objects h' = objects h ++ [o]
    /\ p_type o = class_for dev_type
    /\ p_port o = port
    /\ same_engine h h'
    /\ shortcuts h' = shortcuts h
    /\ log h' =
        log h
        ++ match PERIPHERAL_TYPES !! dev_type with
           | Some _ => []
           | None =>
               [{| level := WARNING;
                   format := "Have not dedicated class for peripheral type 0x%x on port 0x%x";
                   args := [ArgInt dev_type; ArgInt port] |}]
           end
        ++ [{| level := INFO; format := "Attached peripheral: %s";
               args := [ArgRef (length (objects h))] |}].
Proof.
  simpl. intros Hatt Hread.
  apply andb_prop in Hatt as [Hnd Hev].
  apply andb_prop in Hread as [Hus Hrest].
  apply negb_true_iff in Hnd.
  destruct (ushort payload 0) as [dev_type|] eqn:Hdt; [|discriminate].
  assert (Hbytes : forall x,
    is_ok (usbyte payload x) = true -> exists b, usbyte payload x = Ok b).
  { intros x Hx. destruct (usbyte payload x); [eauto|discriminate]. }
  unfold Hub_handle_device_change. run.
  rewrite Hnd, Hev. simpl. rewrite Hdt. simpl.
  unfold class_for.
  destruct (PERIPHERAL_TYPES !! dev_type) as [cls|] eqn:Hcls; simpl;
    rewrite lookup_insert_eq; simpl;
    (destruct (event =? EVENT_ATTACHED) eqn:Ea;
     [| destruct (event =? EVENT_ATTACHED_VIRTUAL) eqn:Ev; [|discriminate]]);
    repeat (apply andb_prop in Hrest as [?Hb Hrest]);
    repeat match goal with
      | Hb : is_ok (usbyte payload ?x) = true |- _ =>
          apply Hbytes in Hb as [? ->]
      end; simpl; rewrite ?lookup_insert_eq; simpl; rewrite ?alter_last;
    do 3 eexists; repeat split; try reflexivity;
    simpl; rewrite Hcls; simpl; rewrite <- ?app_assoc; reflexivity.
Qed.

Lemma set_shortcuts_same h : set_shortcuts (shortcuts h) h = h.
Proof. destruct h; reflexivity. Qed.

Lemma bind_field_run w port p h :
  peripherals h !! port = Some p ->
  bind_field w port h = (set_shortcuts (w p (shortcuts h)) h, Return tt).
Proof. intros Hp. unfold bind_field, set_field. run. rewrite Hp. reflexivity. Qed.

(** On a detach the handler of [MoveHub] does what the one of [Hub] does. *)
Lemma MoveHub_detach h port payload :
  MoveHub_handle_device_change (MsgHubAttachedIO port EVENT_DETACHED payload) h
  = Hub_handle_device_change (MsgHubAttachedIO port EVENT_DETACHED payload) h.
Proof.
  unfold MoveHub_handle_device_change. unfold bind at 1.
  destruct (Hub_handle_device_change _ h) as [h1 [[]|e|]]; try reflexivity.
  run. rewrite Z.eqb_refl. reflexivity.
Qed.

(** On an attach it goes on to set shorthand fields, and nothing else. *)
Lemma MoveHub_attach h port event payload h1 :
  is_attach (MsgHubAttachedIO port event payload) = true ->
  Hub_handle_device_change (MsgHubAttachedIO port event payload) h
  = (h1, Return tt) ->
  peripherals h1 !! port = Some (length (objects h)) ->
  (length (objects h) < length (objects h1))%nat ->
  exists s,
    MoveHub_handle_device_change (MsgHubAttachedIO port event payload) h
    = (set_shortcuts s h1, Return tt).
Proof.
  simpl. intros Hatt Hrun Hp Hlen.
  apply andb_prop in Hatt as [Hnd _]. apply negb_true_iff in Hnd.
  destruct (lookup_lt_is_Some_2 _ _ Hlen) as [o Ho].
  unfold MoveHub_handle_device_change. unfold bind at 1. rewrite Hrun.
  assert (Hfixed : forall w h2, peripherals h2 = peripherals h1 ->
    bind_field w port h2
    = (set_shortcuts (w (length (objects h)) (shortcuts h2)) h2, Return tt)).
  { intros w h2 Hh2. apply bind_field_run. rewrite Hh2. exact Hp. }
  assert (Hstep : forall (m : M unit) (k : M unit) s,
    m h1 = (set_shortcuts s h1, Return tt) ->
    (exists s', k (set_shortcuts s h1) = (set_shortcuts s' h1, Return tt)) ->
    exists s', (m >> k) h1 = (set_shortcuts s' h1, Return tt)).
  { intros m k s Hm [s' Hk]. exists s'. unfold bind. rewrite Hm. exact Hk. }
  unfold isinstance. simpl. unfold bind at 1. simpl. rewrite Hnd. simpl.
  unfold bind at 1. simpl.
  assert (Hchain : exists s,
    (if port =? PORT_A then bind_field with_motor_A port
     else if port =? PORT_B then bind_field with_motor_B port
     else if port =? PORT_AB then bind_field with_motor_AB port
     else if port =? PORT_C then bind_field with_port_C port
     else if port =? PORT_D then bind_field with_port_D port
     else if port =? PORT_LED then bind_field with_led port
     else if port =? PORT_TILT_SENSOR then bind_field with_tilt_sensor port
     else if port =? PORT_CURRENT then bind_field with_current port
     else if port =? PORT_VOLTAGE then bind_field with_voltage port
     else ret tt) h1 = (set_shortcuts s h1, Return tt)).
  { repeat match goal with
      | |- context [if ?b then _ else _] =>
          destruct b; [rewrite Hfixed by reflexivity; eexists; reflexivity|]
      end.
    exists (shortcuts h1). rewrite set_shortcuts_same. reflexivity. }
  destruct Hchain as [s Hchain].
  eapply Hstep; [exact Hchain|].
  run. rewrite Hp. unfold type_of. simpl. rewrite Ho.
  destruct (bool_decide (p_type o = VisionSensor)).
  - rewrite Hfixed by reflexivity. eexists. reflexivity.
  - simpl. rewrite Hp. simpl. rewrite Ho.
    match goal with
    | |- context [if ?b then _ else _] => destruct b
    end.
    + rewrite Hfixed by reflexivity. eexists. reflexivity.
    + exists s. reflexivity.
Qed.

(** The bound method on an attach, for either class: the port now maps to
    a new instance of the class for the device type. *)
Lemma attach_bound h port event payload :
  is_attach (MsgHubAttachedIO port event payload) = true ->
  readable (MsgHubAttachedIO port event payload) = true ->
  exists h' dev_type o,
    _handle_device_change (MsgHubAttachedIO port event payload) h
    = (h', Return tt)
    /\ ushort payload 0 = Ok dev_type
    /\ peripherals h' = <[port := length (objects h)]> (peripherals h)
    /\ objects h' = objects h ++ [o]
    /\ p_type o = class_for dev_type
    /\ p_port o = port
    /\ same_engine h h'.
Proof.
  intros Hatt Hread.
  destruct (attach_effect h port event payload Hatt Hread)
    as (h1 & dev_type & o & Hrun & Hdt & Hper & Hobj & Hty & Hpo & Hsame & _).
  unfold _handle_device_change. run.
  destruct (hub_class h).
  - exists h1, dev_type, o. repeat split; try assumption; apply Hsame.
  - destruct (MoveHub_attach h port event payload h1 Hatt Hrun) as [s Hs].
    + rewrite Hper. apply lookup_insert_eq.
    + rewrite Hobj, length_app. simpl. lia.
    + exists (set_shortcuts s h1), dev_type, o.
      repeat split; try assumption; apply Hsame.
Qed.

Lemma detach_bound h port payload :
  _handle_device_change (MsgHubAttachedIO port EVENT_DETACHED payload) h
  = Hub_handle_device_change (MsgHubAttachedIO port EVENT_DETACHED payload) h.
Proof.
  unfold _handle_device_change. run.
  destruct (hub_class h); [reflexivity|apply MoveHub_detach].
Qed.

(** Claim C5.  A detach notification for a port that is not in
    [peripherals] makes the attachment handler raise ([KeyError]) and
    leaves the instance as it was, log included; a detach notification for
    a port that is in [peripherals] returns and removes exactly that
    port.  This holds for the handler of [Hub] and for the bound method of
    either class. *)
Theorem detach_raises_or_removes (h : Hub) (port : Z) (payload : list Z) :
  let msg := MsgHubAttachedIO port EVENT_DETACHED payload in
  _handle_device_change msg h = Hub_handle_device_change msg h
  /\ match peripherals h !! port with
     | None => Hub_handle_device_change msg h = (h, Raise (KeyError port))
     | Some p =>
         exists h',
           Hub_handle_device_change msg h = (h', Return tt)
           /\ peripherals h' = delete port (peripherals h)
           /\ peripherals h' !! port = None
           /\ objects h' = objects h
           /\ same_engine h h'
     end.
Proof.
  simpl. split; [apply detach_bound|].
  destruct (peripherals h !! port) as [p|] eqn:Hp.
  - eexists. split; [apply (detach_present _ _ _ _ Hp)|].
    simpl. repeat split. apply lookup_delete_eq.
  - apply detach_absent. exact Hp.
Qed.

(** Claim C6.  An attach notification with a readable payload never makes
    the attachment handler fail.  When its device type is not a key of
    [PERIPHERAL_TYPES] the handler binds a new instance of the plain
    [Peripheral] class to the port and logs a warning; when it is a key,
    the new instance has the class that [PERIPHERAL_TYPES] gives and no
    warning is logged. *)
Theorem attach_installs_registered_or_fallback
    (h : Hub) (port event : Z) (payload : list Z) :
  is_attach (MsgHubAttachedIO port event payload) = true ->
  readable (MsgHubAttachedIO port event payload) = true ->
  exists h' dev_type o,
    Hub_handle_device_change (MsgHubAttachedIO port event payload) h
    = (h', Return tt)
    /\ ushort payload 0 = Ok dev_type
    /\ peripherals h' !! port = Some (length (objects h))
    /\ objects h' !! length (objects h) = Some o
    /\ p_port o = port
    /\ match PERIPHERAL_TYPES !! dev_type with
       | None =>
           p_type o = Peripheral
           /\ logged WARNING
                "Have not dedicated class for peripheral type 0x%x on port 0x%x"
                (drop (length (log h)) (log h'))
       | Some cls =>
           p_type o = cls
           /\ Forall (fun r => level r <> WARNING)
                (drop (length (log h)) (log h'))
       end.
Proof.
  intros Hatt Hread.
  destruct (attach_effect h port event payload Hatt Hread)
    as (h' & dev_type & o & Hrun & Hdt & Hper & Hobj & Hty & Hpo & _ & _ & Hlog).
  exists h', dev_type, o. repeat split; try assumption.
  - rewrite Hper. apply lookup_insert_eq.
  - rewrite Hobj. apply list_lookup_middle. reflexivity.
  - rewrite Hlog, drop_app_length. unfold class_for in Hty.
    destruct (PERIPHERAL_TYPES !! dev_type) as [cls|]; simpl in *.
    + split; [exact Hty|]. repeat constructor. discriminate.
    + split; [exact Hty|]. eexists. apply list_elem_of_here.
Qed.

(** *** The store of instances *)

Lemma NoDup_fmap_elem_inj {A B} (f : A -> B) (l : list A) (x y : A) :
  NoDup (f <$> l) -> x ∈ l -> y ∈ l -> f x = f y -> x = y.
Proof.
  induction l as [|a l IH]; simpl; intros Hnd Hx Hy Hf.
  - inversion Hx.
  - apply NoDup_cons in Hnd as [Ha Hnd].
    apply elem_of_cons in Hx as [->|Hx]; apply elem_of_cons in Hy as [->|Hy].
    + reflexivity.
    + exfalso. apply Ha. rewrite Hf. apply list_elem_of_fmap_2. exact Hy.
    + exfalso. apply Ha. rewrite <- Hf. apply list_elem_of_fmap_2. exact Hx.
    + apply IH; assumption.
Qed.

Lemma store_okb_sound h : store_okb h = true -> store_ok h.
Proof.
  unfold store_okb, store_ok. intros Hb.
  apply andb_prop in Hb as [Hlt Hnd].
  apply bool_decide_eq_true in Hnd.
  rewrite forallb_forall in Hlt. split.
  - intros port p Hp. apply Nat.ltb_lt, Hlt, list_elem_of_In.
    apply (list_elem_of_fmap_2 snd _ (port, p)), elem_of_map_to_list. exact Hp.
  - intros port port' p Hp Hp'.
    apply elem_of_map_to_list in Hp, Hp'.
    assert (Heq : (port, p) = (port', p))
      by (eapply (NoDup_fmap_elem_inj snd); eauto).
    congruence.
Qed.

Lemma store_ok_init cls conn : store_ok (Hub__init__ cls conn).
Proof. split; simpl; intros *; rewrite lookup_empty; discriminate. Qed.

Lemma store_ok_insert_new h h' port o :
  store_ok h ->
  peripherals h' = <[port := length (objects h)]> (peripherals h) ->
  objects h' = objects h ++ [o] ->
  store_ok h'.
Proof.
  intros [Hlt Hinj] Hper Hobj. split.
  - intros q p. rewrite Hper, Hobj, length_app, lookup_insert. simpl.
    case_decide; intros Hq.
    + inversion Hq. lia.
    + apply Hlt in Hq. lia.
  - intros q q' p. rewrite Hper, !lookup_insert.
    repeat case_decide; intros Hq Hq'; subst; try reflexivity.
    + inversion Hq; subst. apply Hlt in Hq'. lia.
    + inversion Hq'; subst. apply Hlt in Hq. lia.
    + eapply Hinj; eassumption.
Qed.

Lemma store_ok_delete h h' port :
  store_ok h ->
  peripherals h' = delete port (peripherals h) ->
  objects h' = objects h ->
  store_ok h'.
Proof.
  intros [Hlt Hinj] Hper Hobj. split.
  - intros q p. rewrite Hper, Hobj. intros Hq.
    apply lookup_delete_Some in Hq as [_ Hq]. eapply Hlt, Hq.
  - intros q q' p. rewrite Hper. intros Hq Hq'.
    apply lookup_delete_Some in Hq as [_ Hq].
    apply lookup_delete_Some in Hq' as [_ Hq'].
    eapply Hinj; eassumption.
Qed.

Lemma store_ok_attach h port event payload :
  is_attach (MsgHubAttachedIO port event payload) = true ->
  readable (MsgHubAttachedIO port event payload) = true ->
  store_ok h ->
  store_ok (fst (_handle_device_change (MsgHubAttachedIO port event payload) h)).
Proof.
  intros Hatt Hread Hok.
  destruct (attach_bound h port event payload Hatt Hread)
    as (h' & dev_type & o & -> & _ & Hper & Hobj & _).
  exact (store_ok_insert_new h h' port o Hok Hper Hobj).
Qed.

Lemma store_ok_detach h port payload :
  store_ok h ->
  store_ok (fst (_handle_device_change
                   (MsgHubAttachedIO port EVENT_DETACHED payload) h)).
Proof.
  intros Hok. rewrite detach_bound.
  destruct (peripherals h !! port) as [p|] eqn:Hp.
  - rewrite (detach_present _ _ _ _ Hp). simpl.
    eapply store_ok_delete; [exact Hok|reflexivity..].
  - rewrite (detach_absent _ _ _ Hp). exact Hok.
Qed.

(** Claim C8.  An attach notification (readable payload) for a port that
    already holds a peripheral returns without an error and logs what any
    attach logs.  The port then maps to an instance that did not exist
    before, the instance it held is no longer a value of [peripherals] at
    any port, and the other ports are untouched. *)
Theorem attach_replaces_existing
    (h : Hub) (port event : Z) (payload : list Z) (old : ref) :
  is_attach (MsgHubAttachedIO port event payload) = true ->
  readable (MsgHubAttachedIO port event payload) = true ->
  store_ok h ->
  peripherals h !! port = Some old ->
  exists h' dev_type o,
    Hub_handle_device_change (MsgHubAttachedIO port event payload) h
    = (h', Return tt)
    /\ ushort payload 0 = Ok dev_type
    /\ peripherals h' !! port = Some (length (objects h))
    /\ length (objects h) <> old
    /\ objects h !! length (objects h) = None
    /\ objects h' !! length (objects h) = Some o
    /\ p_type o = class_for dev_type
    /\ (forall q, peripherals h' !! q <> Some old)
    /\ (forall q, q <> port -> peripherals h' !! q = peripherals h !! q)
    /\ objects h' !! old = objects h !! old
    /\ log h' =
        log h
        ++ match PERIPHERAL_TYPES !! dev_type with
           | Some _ => []
           | None =>
               [{| level := WARNING;
                   format := "Have not dedicated class for peripheral type 0x%x on port 0x%x";
                   args := [ArgInt dev_type; ArgInt port] |}]
           end
        ++ [{| level := INFO; format := "Attached peripheral: %s";
               args := [ArgRef (length (objects h))] |}].
Proof.
  intros Hatt Hread [Hlt Hinj] Hold.
  destruct (attach_effect h port event payload Hatt Hread)
    as (h' & dev_type & o & Hrun & Hdt & Hper & Hobj & Hty & Hpo & _ & _ & Hlog).
  pose proof (Hlt _ _ Hold) as Holdlt.
  exists h', dev_type, o. repeat split; try assumption.
  - rewrite Hper. apply lookup_insert_eq.
  - lia.
  - apply lookup_ge_None. lia.
  - rewrite Hobj. apply list_lookup_middle. reflexivity.
  - intros q. rewrite Hper, lookup_insert.
    destruct (decide (port = q)) as [_|Hne]; intros Hq.
    + inversion Hq. lia.
    + apply Hne. eapply Hinj; eassumption.
  - intros q Hq. rewrite Hper. apply lookup_insert_ne. congruence.
  - rewrite Hobj. apply lookup_app_l. exact Holdlt.
Qed.

(** Claim C9.  A detach notification handled by [MoveHub] leaves every
    shorthand field as it was, whether the handler raises or returns.  When
    the port held a peripheral the handler returns, the port is gone from
    [peripherals], and the instance is still in the store: a shorthand
    field that referred to it keeps referring to it. *)
Theorem detach_keeps_shortcuts (h : Hub) (port : Z) (payload : list Z) :
  let msg := MsgHubAttachedIO port EVENT_DETACHED payload in
  let h' := fst (MoveHub_handle_device_change msg h) in
  shortcuts h' = shortcuts h
  /\ objects h' = objects h
  /\ match peripherals h !! port with
     | Some p =>
         snd (MoveHub_handle_device_change msg h) = Return tt
         /\ peripherals h' = delete port (peripherals h)
         /\ peripherals h' !! port = None
     | None =>
         snd (MoveHub_handle_device_change msg h) = Raise (KeyError port)
         /\ peripherals h' = peripherals h
     end.
Proof.
  simpl. rewrite MoveHub_detach.
  destruct (peripherals h !! port) as [p|] eqn:Hp.
  - rewrite (detach_present _ _ _ _ Hp). simpl.
    repeat split. apply lookup_delete_eq.
  - rewrite (detach_absent _ _ _ Hp). simpl. repeat split.
Qed.

(** *** Replaying a sequence of notifications *)

Lemma for_each_app {A} (xs ys : list A) (body : A -> M unit) h :
  for_each (xs ++ ys) body h = (for_each xs body >> for_each ys body) h.
Proof.
  revert h. induction xs as [|x xs IH]; intros h; simpl.
  - reflexivity.
  - unfold bind. destruct (body x h) as [h1 [[]|e|]]; try reflexivity.
    rewrite IH. reflexivity.
Qed.

Lemma last_event_snoc port msgs msg :
  last_event port (msgs ++ [msg])
  = if decide (port_of msg = Some port) then Some msg else last_event port msgs.
Proof.
  unfold last_event. rewrite filter_app, filter_cons, filter_nil.
  destruct (decide (port_of msg = Some port)).
  - apply last_snoc.
  - rewrite app_nil_r. reflexivity.
Qed.

Lemma well_formed_snoc initial before msgs msg :
  well_formed initial before (msgs ++ [msg])
  = well_formed initial before msgs
    && well_formed initial (before ++ msgs) [msg].
Proof.
  revert before. induction msgs as [|m msgs IH]; intros before.
  - rewrite app_nil_r. reflexivity.
  - simpl. rewrite IH, <- app_assoc. simpl.
    rewrite !andb_true_r, andb_assoc. reflexivity.
Qed.

(** Claim C1.  Replaying through the attachment handler a sequence of
    notifications, each an attach with a readable payload or a detach of a
    port that is attached at that moment, raises nothing, and afterwards
    the keys of [peripherals] are exactly the ports whose last event in
    the sequence is an attach (for a port without an event: a port that was
    a key before).  The keys are pairwise distinct. *)
Theorem replay_tracks_attached_ports (h : Hub) (msgs : list UpstreamMsg) :
  well_formed (dom (peripherals h)) [] msgs = true ->
  exists h',
    replay msgs h = (h', Return tt)
    /\ (forall port,
          port ∈ dom (peripherals h')
          <-> attached_after (dom (peripherals h)) msgs port = true)
    /\ NoDup (map_to_list (peripherals h')).*1.
Proof.
  intros Hwf.
  cut (exists h', replay msgs h = (h', Return tt)
         /\ forall port, port ∈ dom (peripherals h')
              <-> attached_after (dom (peripherals h)) msgs port = true).
  { intros (h' & Hrun & Hdom). exists h'.
    repeat split; try apply Hdom; try assumption.
    apply NoDup_fst_map_to_list. }
  induction msgs as [|msg msgs IH] using rev_ind.
  - exists h. split; [reflexivity|]. intros port.
    unfold attached_after, last_event. simpl.
    rewrite bool_decide_eq_true. reflexivity.
  - rewrite well_formed_snoc in Hwf. apply andb_prop in Hwf as [Hwf Hmsg].
    destruct (IH Hwf) as (h1 & Hrun & Hdom). clear IH.
    simpl in Hmsg. rewrite andb_true_r in Hmsg.
    unfold replay. rewrite for_each_app. unfold bind at 1.
    fold (replay msgs). rewrite Hrun. simpl. unfold bind at 1.
    destruct (is_detach msg) eqn:Hdet.
    + destruct msg as [port event payload| | | | | | |]; try discriminate.
      simpl in Hdet, Hmsg. apply Z.eqb_eq in Hdet. subst event.
      apply Hdom in Hmsg. apply elem_of_dom in Hmsg as [p Hp].
      rewrite detach_bound, (detach_present _ _ _ _ Hp).
      eexists. split; [reflexivity|]. intros q. simpl.
      unfold attached_after. rewrite last_event_snoc. simpl.
      rewrite dom_delete, elem_of_difference, elem_of_singleton.
      case_decide as Hq.
      * inversion Hq. subst q. cbn [is_attach]. rewrite Z.eqb_refl. simpl.
        split; [tauto|discriminate].
      * rewrite Hdom. unfold attached_after.
        split; [tauto|]. intros Ha. split; [exact Ha|congruence].
    + apply andb_prop in Hmsg as [Hatt Hread].
      destruct msg as [port event payload| | | | | | |]; try discriminate.
      destruct (attach_bound h1 port event payload Hatt Hread)
        as (h2 & dev_type & o & Hrun2 & _ & Hper & _).
      rewrite Hrun2. exists h2. split; [reflexivity|]. intros q.
      unfold attached_after. rewrite last_event_snoc.
      rewrite Hper, dom_insert, elem_of_union, elem_of_singleton.
      cbn [port_of]. case_decide as Hq.
      * inversion Hq. subst q. rewrite Hatt. split; [reflexivity|tauto].
      * rewrite Hdom. unfold attached_after.
        split; [|tauto]. intros [->|Ha]; [congruence|exact Ha].
Qed.

End Attachment.

(** ** The engine: requests, replies and dispatch *)

Section Engine.
Context {proto : Protocol}.

Lemma preserves_ret {A X} (f : Hub -> X) (a : A) : preserves f (ret a).
Proof. intros h. reflexivity. Qed.

Lemma preserves_raise {A X} (f : Hub -> X) e : preserves f (raise (A := A) e).
Proof. intros h. reflexivity. Qed.

Lemma preserves_bind {A B X} (f : Hub -> X) (m : M A) (k : A -> M B) :
  preserves f m -> (forall a, preserves f (k a)) -> preserves f (bind m k).
Proof.
  intros Hm Hk h. unfold bind. specialize (Hm h).
  destruct (m h) as [h1 [a|e|]]; simpl in *; try exact Hm.
  rewrite Hk. exact Hm.
Qed.

Lemma preserves_modify {X} (f : Hub -> X) (g : Hub -> Hub) :
  (forall h, f (g h) = f h) -> preserves f (modify g).
Proof. intros Hg h. apply Hg. Qed.

Lemma preserves_lift {A X} (f : Hub -> X) (r : Result A) : preserves f (lift r).
Proof. destruct r; intros h; reflexivity. Qed.

Lemma preserves_assert {X} (f : Hub -> X) b : preserves f (assert b).
Proof. destruct b; intros h; reflexivity. Qed.

Lemma preserves_get_state {X} (f : Hub -> X) : preserves f get_state.
Proof. intros h. reflexivity. Qed.

Lemma preserves_getitem {X} (f : Hub -> X) port :
  preserves f (peripherals_getitem port).
Proof.
  intros h. unfold peripherals_getitem.
  destruct (peripherals h !! port); reflexivity.
Qed.

Lemma preserves_type_of {X} (f : Hub -> X) device : preserves f (type_of device).
Proof. intros h. unfold type_of. destruct (objects h !! device); reflexivity. Qed.

Lemma preserves_new_peripheral {X} (f : Hub -> X) cls port :
  (forall o h, f (set_objects o h) = f h) ->
  preserves f (new_peripheral cls port).
Proof. intros Hf h. apply Hf. Qed.

Lemma preserves_for_each {A X} (f : Hub -> X) (xs : list A) body :
  (forall x, preserves f (body x)) -> preserves f (for_each xs body).
Proof.
  intros Hbody. induction xs as [|x xs IH]; simpl.
  - apply preserves_ret.
  - apply preserves_bind; [apply Hbody|intros _; exact IH].
Qed.

Ltac frame :=
  repeat first
    [ apply preserves_ret
    | apply preserves_raise
    | apply preserves_lift
    | apply preserves_assert
    | apply preserves_get_state
    | apply preserves_getitem
    | apply preserves_type_of
    | apply preserves_new_peripheral; intros; reflexivity
    | apply preserves_modify; intros; reflexivity
    | apply preserves_bind; [|intros ?]
    | match goal with
      | |- preserves _ (if ?b then _ else _) => destruct b
      | |- preserves _ (match ?x with _ => _ end) => destruct x
      end
    | progress unfold logging, peripherals_pop, peripherals_setitem,
        set_virtual_ports, queue_port_data, connection_write,
        connection_disconnect, bind_field, set_field, attr_event,
        attr_port, attr_payload, attr_action, msg_message ].

Lemma preserves_usbytes {X} (f : Hub -> X) payload xs :
  preserves f (usbytes payload xs).
Proof. induction xs as [|x xs IH]; simpl; frame. exact IH. Qed.

Lemma sync_Hub_handle_device_change msg :
  preserves sync_state (Hub_handle_device_change msg).
Proof.
  unfold Hub_handle_device_change. frame; apply preserves_usbytes.
Qed.

Lemma sync_handle_device_change msg :
  preserves sync_state (_handle_device_change msg).
Proof.
  unfold _handle_device_change, MoveHub_handle_device_change.
  frame; apply sync_Hub_handle_device_change.
Qed.

Lemma sync_handle_sensor_data msg : preserves sync_state (_handle_sensor_data msg).
Proof. unfold _handle_sensor_data. frame. Qed.

Lemma sync_handle_action msg : preserves sync_state (_handle_action msg).
Proof. unfold _handle_action. frame. Qed.

Lemma sync_find_msg_kind data msg_type kinds :
  preserves sync_state (find_msg_kind data msg_type kinds).
Proof. induction kinds as [|k kinds IH]; simpl; frame. exact IH. Qed.

Lemma sync_get_upstream_msg data : preserves sync_state (_get_upstream_msg data).
Proof. unfold _get_upstream_msg. frame. apply sync_find_msg_kind. Qed.

(** Every handler but the error handler leaves the pending request and the
    reply queue alone. *)
Lemma sync_call handler msg :
  handler <> cb_handle_error -> preserves sync_state (call handler msg).
Proof.
  destruct handler; simpl; intros Hne.
  - apply sync_handle_device_change.
  - apply sync_handle_sensor_data.
  - congruence.
  - apply sync_handle_action.
  - frame.
Qed.

Lemma at_most_one_put_refl msg h : at_most_one_put msg h h.
Proof. left. split; [reflexivity|left; reflexivity]. Qed.

Lemma at_most_one_put_preserved msg h h' :
  sync_state h' = sync_state h -> at_most_one_put msg h h'.
Proof. intros Heq. inversion Heq. left. split; [|left]; assumption. Qed.

Lemma at_most_one_put_trans msg h h1 h2 :
  at_most_one_put msg h h1 -> at_most_one_put msg h1 h2 ->
  at_most_one_put msg h h2.
Proof.
  intros [[Hq1 Hr1]|(Hq1 & Hs1 & Hr1 & Hl1)] [[Hq2 Hr2]|(Hq2 & Hs2 & Hr2 & Hl2)].
  - left. split; [congruence|]. destruct Hr1, Hr2; [left|right..]; congruence.
  - right. rewrite Hq2, Hq1. repeat split; try assumption.
    + destruct Hr1 as [Hr1|Hr1]; rewrite Hr1 in Hs2; [exact Hs2|].
      destruct Hs2; discriminate.
    + rewrite <- Hq1. exact Hl2.
  - right. rewrite Hq2. repeat split; try assumption.
    destruct Hr2; congruence.
  - rewrite Hr1 in Hs2. destruct Hs2; discriminate.
Qed.

(** The error handler: it raises on a message without [message()], and
    otherwise logs, and puts the message into the queue if a request is
    pending. *)
Lemma handle_error_put msg h : at_most_one_put msg h (fst (_handle_error msg h)).
Proof.
  unfold _handle_error.
  destruct msg as [| | |text| | | |]; try apply at_most_one_put_refl.
  unfold bind, ret, modify, get_state, logging, queue_put, msg_message; simpl.
  destruct (_sync_request h) as [req|] eqn:Hreq; simpl.
  - destruct (length (_sync_replies h) <? maxsize)%nat eqn:Hroom; simpl.
    + right. rewrite Hreq. repeat split; [eauto|].
      apply Nat.ltb_lt. exact Hroom.
    + left. split; [reflexivity|right; reflexivity].
  - left. split; [reflexivity|left; reflexivity].
Qed.

Lemma call_put handler msg h : at_most_one_put msg h (fst (call handler msg h)).
Proof.
  destruct (decide (handler = cb_handle_error)) as [->|Hne].
  - apply handle_error_put.
  - apply at_most_one_put_preserved, (sync_call handler msg Hne).
Qed.

Lemma correlate_put msg h : at_most_one_put msg h (fst (correlate msg h)).
Proof.
  unfold correlate, bind, ret, modify, get_state, logging, queue_put; simpl.
  destruct (_sync_request h) as [req|] eqn:Hreq; simpl;
    [|apply at_most_one_put_refl].
  destruct (is_reply req msg); simpl; [|apply at_most_one_put_refl].
  destruct (length (_sync_replies h) <? maxsize)%nat eqn:Hroom; simpl.
  - right. rewrite Hreq. repeat split; [eauto|].
    apply Nat.ltb_lt. exact Hroom.
  - left. split; [reflexivity|left]. simpl. reflexivity.
Qed.

Lemma bind_put {A B} msg (m : M A) (k : A -> M B) h :
  at_most_one_put msg h (fst (m h)) ->
  (forall a h1, at_most_one_put msg h1 (fst (k a h1))) ->
  at_most_one_put msg h (fst (bind m k h)).
Proof.
  intros Hm Hk. unfold bind. specialize (Hk).
  destruct (m h) as [h1 [a|e|]]; simpl in *; try exact Hm.
  eapply at_most_one_put_trans; [exact Hm|apply Hk].
Qed.

Lemma dispatch_put msg entry h :
  at_most_one_put msg h (fst (dispatch msg entry h)).
Proof.
  unfold dispatch. destruct (isinstance msg entry.1);
    [|apply at_most_one_put_refl].
  apply bind_put; [apply at_most_one_put_preserved; reflexivity|].
  intros _ h1. apply call_put.
Qed.

Lemma for_each_dispatch_put msg table h :
  at_most_one_put msg h (fst (for_each table (dispatch msg) h)).
Proof.
  revert h. induction table as [|entry table IH]; intros h; simpl.
  - apply at_most_one_put_refl.
  - apply bind_put; [apply dispatch_put|]. intros _ h1. apply IH.
Qed.

Lemma notify_put h handle data :
  exists msg, at_most_one_put msg h (fst (_notify handle data h)).
Proof.
  unfold _notify. unfold bind at 1. simpl.
  set (h0 := set_log _ h).
  assert (H0 : sync_state h0 = sync_state h) by reflexivity.
  unfold bind at 1.
  pose proof (sync_get_upstream_msg data h0) as Hdec.
  destruct (_get_upstream_msg data h0) as [h1 [msg|e|]];
    cbn [fst] in Hdec; rewrite H0 in Hdec.
  - exists msg.
    apply at_most_one_put_trans with h1;
      [apply at_most_one_put_preserved; exact Hdec|].
    apply bind_put; [apply correlate_put|]. intros _ h2.
    apply bind_put; [apply at_most_one_put_refl|]. intros h3 h4.
    apply for_each_dispatch_put.
  - exists (MsgHubAlert 0). apply at_most_one_put_preserved. exact Hdec.
  - exists (MsgHubAlert 0). apply at_most_one_put_preserved. exact Hdec.
Qed.

(** *** Where a run can be suspended *)

Lemma unsuspended_ret {A} (a : A) : unsuspended (ret a).
Proof. intros h. discriminate. Qed.

Lemma unsuspended_raise {A} e : unsuspended (raise (A := A) e).
Proof. intros h. discriminate. Qed.

Lemma unsuspended_bind {A B} (m : M A) (k : A -> M B) :
  unsuspended m -> (forall a, unsuspended (k a)) -> unsuspended (bind m k).
Proof.
  intros Hm Hk h. unfold bind. specialize (Hm h).
  destruct (m h) as [h1 [a|e|]]; simpl in *;
    [apply Hk|discriminate|congruence].
Qed.

Lemma unsuspended_modify (g : Hub -> Hub) : unsuspended (modify g).
Proof. intros h. discriminate. Qed.

Lemma unsuspended_lift {A} (r : Result A) : unsuspended (lift r).
Proof. destruct r; intros h; discriminate. Qed.

Lemma unsuspended_assert b : unsuspended (assert b).
Proof. destruct b; intros h; discriminate. Qed.

Lemma unsuspended_get_state : unsuspended get_state.
Proof. intros h. discriminate. Qed.

Lemma unsuspended_getitem port : unsuspended (peripherals_getitem port).
Proof.
  intros h. unfold peripherals_getitem.
  destruct (peripherals h !! port); discriminate.
Qed.

Lemma unsuspended_type_of device : unsuspended (type_of device).
Proof. intros h. unfold type_of. destruct (objects h !! device); discriminate. Qed.

Lemma unsuspended_new_peripheral cls port : unsuspended (new_peripheral cls port).
Proof. intros h. discriminate. Qed.

Lemma unsuspended_for_each {A} (xs : list A) body :
  (forall x, unsuspended (body x)) -> unsuspended (for_each xs body).
Proof.
  intros Hbody. induction xs as [|x xs IH]; simpl.
  - apply unsuspended_ret.
  - apply unsuspended_bind; [apply Hbody|intros _; exact IH].
Qed.

Ltac runs_on :=
  repeat first
    [ apply unsuspended_ret
    | apply unsuspended_raise
    | apply unsuspended_lift
    | apply unsuspended_assert
    | apply unsuspended_get_state
    | apply unsuspended_getitem
    | apply unsuspended_type_of
    | apply unsuspended_new_peripheral
    | apply unsuspended_modify
    | apply unsuspended_bind; [|intros ?]
    | match goal with
      | |- unsuspended (if ?b then _ else _) => destruct b
      | |- unsuspended (match ?x with _ => _ end) => destruct x
      end
    | progress unfold logging, peripherals_pop, peripherals_setitem,
        set_virtual_ports, queue_port_data, connection_write,
        connection_disconnect, bind_field, set_field, attr_event,
        attr_port, attr_payload, attr_action, msg_message ].

Lemma unsuspended_usbytes payload xs : unsuspended (usbytes payload xs).
Proof. induction xs as [|x xs IH]; simpl; runs_on. exact IH. Qed.

Lemma unsuspended_Hub_handle_device_change msg :
  unsuspended (Hub_handle_device_change msg).
Proof.
  unfold Hub_handle_device_change. runs_on; apply unsuspended_usbytes.
Qed.

Lemma unsuspended_handle_device_change msg :
  unsuspended (_handle_device_change msg).
Proof.
  unfold _handle_device_change, MoveHub_handle_device_change.
  runs_on; apply unsuspended_Hub_handle_device_change.
Qed.

Lemma unsuspended_handle_sensor_data msg : unsuspended (_handle_sensor_data msg).
Proof. unfold _handle_sensor_data. runs_on. Qed.

Lemma unsuspended_handle_action msg : unsuspended (_handle_action msg).
Proof. unfold _handle_action. runs_on. Qed.

Lemma unsuspended_find_msg_kind data msg_type kinds :
  unsuspended (find_msg_kind data msg_type kinds).
Proof. induction kinds as [|k kinds IH]; simpl; runs_on. exact IH. Qed.

Lemma unsuspended_get_upstream_msg data : unsuspended (_get_upstream_msg data).
Proof. unfold _get_upstream_msg. runs_on. apply unsuspended_find_msg_kind. Qed.

(** Only the error handler can be suspended. *)
Lemma unsuspended_call handler msg :
  handler <> cb_handle_error -> unsuspended (call handler msg).
Proof.
  destruct handler; simpl; intros Hne.
  - apply unsuspended_handle_device_change.
  - apply unsuspended_handle_sensor_data.
  - congruence.
  - apply unsuspended_handle_action.
  - runs_on.
Qed.

Lemma suspended_never {A} (m : M A) h :
  unsuspended m -> suspended_when_full h (m h).
Proof. intros Hm Hblock. destruct (Hm h Hblock). Qed.

Lemma suspended_bind {A B} msg (m : M A) (k : A -> M B) h :
  at_most_one_put msg h (fst (m h)) ->
  suspended_when_full h (m h) ->
  (forall a h1, suspended_when_full h1 (k a h1)) ->
  suspended_when_full h (bind m k h).
Proof.
  intros Hput Hm Hk. unfold bind.
  destruct (m h) as [h1 [a|e|]] eqn:Hrun; simpl in *.
  - intros Hblock. destruct (Hk a h1 Hblock) as (Hfull & Hq & Hreq).
    destruct Hput as [[Hq1 Hr1]|(_ & _ & Hr1 & _)].
    + destruct Hr1 as [Hr1|Hr1].
      * rewrite <- Hq1, <- Hr1. repeat split; assumption.
      * rewrite Hr1 in Hreq. destruct Hreq; discriminate.
    + rewrite Hr1 in Hreq. destruct Hreq; discriminate.
  - discriminate.
  - intros _. apply Hm. reflexivity.
Qed.

Lemma correlate_suspended msg h : suspended_when_full h (correlate msg h).
Proof.
  unfold suspended_when_full, correlate, bind, ret, modify, get_state,
    logging, queue_put; simpl.
  destruct (_sync_request h) as [req|] eqn:Hreq; simpl; [|discriminate].
  destruct (is_reply req msg); simpl; [|discriminate].
  destruct (length (_sync_replies h) <? maxsize)%nat eqn:Hroom; simpl;
    [discriminate|].
  intros _. apply Nat.ltb_ge in Hroom. repeat split; [exact Hroom|eauto].
Qed.

Lemma handle_error_suspended msg h :
  suspended_when_full h (_handle_error msg h).
Proof.
  unfold suspended_when_full, _handle_error.
  destruct msg as [| | |text| | | |]; try discriminate.
  unfold bind, ret, modify, get_state, logging, queue_put, msg_message; simpl.
  destruct (_sync_request h) as [req|] eqn:Hreq; simpl; [|discriminate].
  destruct (length (_sync_replies h) <? maxsize)%nat eqn:Hroom; simpl;
    [discriminate|].
  intros _. apply Nat.ltb_ge in Hroom. repeat split; [exact Hroom|eauto].
Qed.

Lemma call_suspended handler msg h :
  suspended_when_full h (call handler msg h).
Proof.
  destruct (decide (handler = cb_handle_error)) as [->|Hne].
  - apply handle_error_suspended.
  - apply suspended_never, unsuspended_call, Hne.
Qed.

Lemma dispatch_suspended msg entry h :
  suspended_when_full h (dispatch msg entry h).
Proof.
  unfold dispatch. destruct (isinstance msg entry.1); [|discriminate].
  apply (suspended_bind msg).
  - apply at_most_one_put_preserved. reflexivity.
  - discriminate.
  - intros _ h1. apply call_suspended.
Qed.

Lemma for_each_dispatch_suspended msg table h :
  suspended_when_full h (for_each table (dispatch msg) h).
Proof.
  revert h. induction table as [|entry table IH]; intros h; simpl.
  - discriminate.
  - apply (suspended_bind msg);
      [apply dispatch_put|apply dispatch_suspended|intros _ h1; apply IH].
Qed.

Lemma notify_suspended h handle data :
  suspended_when_full h (_notify handle data h).
Proof.
  unfold _notify. unfold bind at 1. simpl.
  set (h0 := set_log _ h).
  change (suspended_when_full h0
    ((let* msg := _get_upstream_msg data in
      correlate msg >>
      let* h := get_state in for_each (_msg_handlers h) (dispatch msg)) h0)).
  unfold bind at 1.
  pose proof (sync_get_upstream_msg data h0) as Hdec.
  pose proof (unsuspended_get_upstream_msg data h0) as Hrun.
  destruct (_get_upstream_msg data h0) as [h1 [msg|e|]];
    cbn [fst snd] in *; [|discriminate|congruence].
  intros Hblock.
  assert (Hs : suspended_when_full h1
    ((correlate msg >>
      let* h := get_state in for_each (_msg_handlers h) (dispatch msg)) h1)).
  { apply (suspended_bind msg);
      [apply correlate_put|apply correlate_suspended|].
    intros _ h2. apply (suspended_bind msg);
      [apply at_most_one_put_refl|discriminate|].
    intros h3 h4. apply for_each_dispatch_suspended. }
  destruct (Hs Hblock) as (Hfull & Hq & Hreq).
  assert (Hr1 : _sync_request h1 = _sync_request h) by exact (f_equal fst Hdec).
  assert (Hq1 : _sync_replies h1 = _sync_replies h) by exact (f_equal snd Hdec).
  change (_sync_replies h0) with (_sync_replies h).
  change (_sync_request h0) with (_sync_request h).
  split; [rewrite <- Hq1; exact Hfull|].
  split; [rewrite <- Hq1; exact Hq|rewrite <- Hr1; exact Hreq].
Qed.

(** A step that is not suspended either leaves the request and the queue
    alone, or takes a reply out of the queue, or puts one message for the
    pending request, which it clears. *)
Lemma observe_put a h :
  is_send_request a = false ->
  let h' := fst (observe a (h, [])) in
  (_sync_request h' = _sync_request h \/ _sync_request h' = None)
  /\ ((length (_sync_replies h') <= length (_sync_replies h))%nat
      \/ (length (_sync_replies h') = S (length (_sync_replies h))
          /\ is_Some (_sync_request h)
          /\ _sync_request h' = None)).
Proof.
  intros Hsend. simpl.
  assert (Hput : forall msg h1,
    at_most_one_put msg h h1 ->
    (_sync_request h1 = _sync_request h \/ _sync_request h1 = None)
    /\ ((length (_sync_replies h1) <= length (_sync_replies h))%nat
        \/ (length (_sync_replies h1) = S (length (_sync_replies h))
            /\ is_Some (_sync_request h)
            /\ _sync_request h1 = None))).
  { intros msg h1 [[Hq Hr]|(Hq & Hs & Hr & _)].
    - split; [exact Hr|]. left. rewrite Hq. lia.
    - split; [right; exact Hr|]. right. rewrite Hq, length_app. simpl.
      repeat split; [lia|exact Hs|exact Hr]. }
  unfold observe. cbn [fst snd].
  destruct a as [msg|msg| |msg|handler msg]; [discriminate|..]; cbn [exec].
  - simpl. split; [left; reflexivity|left; lia].
  - unfold send_await, bind, ret, raise, logging, modify, queue_get,
      msg_message.
    destruct (_sync_replies h) as [|resp rest] eqn:Hq; simpl.
    + rewrite Hq. split; [left; reflexivity|left; simpl; lia].
    + destruct resp; simpl; (split; [left; reflexivity|left; simpl; lia]).
  - pose proof (correlate_put msg h) as Hc.
    destruct (correlate msg h) as [h1 [[]|e|]]; cbn [fst] in *;
      try (apply (Hput msg), Hc).
    split; [left; reflexivity|left; lia].
  - pose proof (call_put handler msg h) as Hc.
    destruct (call handler msg h) as [h1 [[]|e|]]; cbn [fst] in *;
      try (apply (Hput msg), Hc).
    split; [left; reflexivity|left; lia].
Qed.

(** Without a new request no second message is placed: a put clears the
    request, and only [send] sets one. *)
Lemma placed_bound actions h :
  forallb (fun a => negb (is_send_request a)) actions = true ->
  (placed_by_notification actions h
   <= match _sync_request h with Some _ => 1 | None => 0 end)%nat.
Proof.
  revert h. induction actions as [|a actions IH]; intros h Hsend.
  - simpl. destruct (_sync_request h); lia.
  - cbn [forallb] in Hsend. apply andb_prop in Hsend as [Ha Hsend].
    apply negb_true_iff in Ha.
    cbn [placed_by_notification]. cbv zeta.
    destruct (observe_put a h Ha) as [Hreq Hq]. cbv zeta in Hreq, Hq.
    specialize (IH (fst (observe a (h, []))) Hsend).
    set (h' := fst (observe a (h, []))) in *.
    destruct Hq as [Hq|(Hq & Hs & Hr)].
    + assert (Hzero : (length (_sync_replies h') - length (_sync_replies h) = 0)%nat)
        by lia.
      rewrite Hzero. destruct Hreq as [Hreq|Hreq]; rewrite Hreq in IH.
      * destruct (of_notification a); simpl; exact IH.
      * destruct (of_notification a), (_sync_request h); simpl; lia.
    + rewrite Hr in IH. destruct Hs as [req Hs]. rewrite Hs.
      destruct (of_notification a); simpl; lia.
Qed.

(** Claim C10, for a notification that [_notify] processes in one run,
    with no step of another thread in between.  The run puts at most one
    message into the reply queue, and only into a queue that has room: the
    queue never holds more than [maxsize] items because of it.  A put goes
    with a pending request, which is cleared.  A run that ends suspended
    waits in its first [put], in front of a queue that was full before the
    run, and has put nothing: a second [put] is never attempted.  When the
    locked block has put the message it returns with the request cleared,
    and the handlers, whatever the table is, put nothing more and are not
    suspended; the error handler, finding no pending request, leaves the
    request and the queue alone.  The same holds of the steps of the
    threads one at a time: as long as [send] takes no new request, the
    steps of the notification thread place at most one message. *)
Theorem notify_puts_at_most_one (h : Hub) (handle : Z) (data : list Z) :
  let r := _notify handle data h in
  let h' := fst r in
  (exists puts,
      _sync_replies h' = _sync_replies h ++ puts
      /\ (length puts <= 1)%nat
      /\ (puts <> [] -> is_Some (_sync_request h) /\ _sync_request h' = None))
  /\ (length (_sync_replies h') <= Nat.max maxsize (length (_sync_replies h)))%nat
  /\ suspended_when_full h r
  /\ (forall msg table,
        let h1 := fst (correlate msg h) in
        _sync_replies h1 <> _sync_replies h ->
        snd (correlate msg h) = Return tt
        /\ _sync_replies h1 = _sync_replies h ++ [msg]
        /\ _sync_request h1 = None
        /\ _sync_replies (fst (for_each table (dispatch msg) h1))
           = _sync_replies h1
        /\ snd (for_each table (dispatch msg) h1) <> Block)
  /\ (forall msg h1,
        _sync_request h1 = None ->
        sync_state (fst (_handle_error msg h1)) = sync_state h1
        /\ snd (_handle_error msg h1) <> Block)
  /\ (forall actions,
        forallb (fun a => negb (is_send_request a)) actions = true ->
        (placed_by_notification actions h <= 1)%nat).
Proof.
  simpl. split; [|split; [|split; [|split; [|split]]]].
  - destruct (notify_put h handle data) as [msg [[Hq Hr]|(Hq & Hs & Hr & Hl)]].
    + exists []. rewrite app_nil_r. repeat split; try congruence. simpl. lia.
    + exists [msg]. repeat split; try assumption. simpl. lia.
  - destruct (notify_put h handle data) as [msg [[Hq Hr]|(Hq & Hs & Hr & Hl)]].
    + rewrite Hq. lia.
    + rewrite Hq, length_app. simpl. unfold maxsize in *. lia.
  - apply notify_suspended.
  - intros msg table Hput.
    destruct (correlate_put msg h) as [[Hq Hr]|(Hq & Hs & Hr & Hl)];
      [congruence|].
    split.
    { pose proof (correlate_suspended msg h) as Hsusp.
      destruct (correlate msg h) as [h1 [[]|e|]] eqn:Hrun; simpl in *.
      - reflexivity.
      - exfalso. revert Hrun.
        unfold correlate, bind, ret, modify, get_state, logging, queue_put;
          simpl.
        destruct (_sync_request h) as [req|]; simpl; [|discriminate].
        destruct (is_reply req msg); simpl; [|discriminate].
        destruct (length (_sync_replies h) <? maxsize)%nat; simpl;
          discriminate.
      - destruct (Hsusp eq_refl) as (_ & Hsame & _). simpl in Hsame.
        congruence. }
    repeat split; try assumption.
    + destruct (for_each_dispatch_put msg table (fst (correlate msg h)))
        as [[Hq2 _]|(_ & Hs2 & _)]; [exact Hq2|].
      rewrite Hr in Hs2. destruct Hs2; discriminate.
    + intros Hblock.
      destruct (for_each_dispatch_suspended msg table _ Hblock)
        as (_ & _ & Hs2).
      rewrite Hr in Hs2. destruct Hs2; discriminate.
  - intros msg h1 Hnone. unfold _handle_error.
    destruct msg as [| | |text| | | |]; try (split; [reflexivity|discriminate]).
    unfold bind, ret, modify, get_state, logging, queue_put, msg_message; simpl.
    rewrite Hnone. split; [reflexivity|discriminate].
  - intros actions Hsend. pose proof (placed_bound actions h Hsend) as Hle.
    destruct (_sync_request h); lia.
Qed.

(** *** One pending request *)

Lemma send_rejected env h msg req :
  needs_reply msg = true ->
  _sync_request h = Some req ->
  send env msg h
  = (set_log (log h ++ [{| level := DEBUG; format := "Send message: %r";
                           args := [ArgDown msg] |}]) h,
     Raise AssertionError).
Proof.
  intros Hsync Hreq. unfold send, send_request. rewrite Hsync.
  unfold bind, logging, modify, get_state, assert. simpl.
  rewrite Hreq. reflexivity.
Qed.

Lemma correlate_answers msg h :
  snd (correlate msg h) <> Block -> answers_or_same h (fst (correlate msg h)).
Proof.
  unfold correlate, bind, ret, modify, get_state, logging, queue_put; simpl.
  destruct (_sync_request h) as [req|] eqn:Hreq; simpl; [|left; reflexivity].
  destruct (is_reply req msg); simpl; [|left; reflexivity].
  destruct (length (_sync_replies h) <? maxsize)%nat; simpl; [|congruence].
  intros _. right. simpl. rewrite Hreq, length_app. simpl.
  repeat split; [lia|eauto].
Qed.

Lemma handle_error_answers msg h :
  snd (_handle_error msg h) <> Block ->
  answers_or_same h (fst (_handle_error msg h)).
Proof.
  unfold _handle_error.
  destruct msg as [| | |text| | | |]; try (left; reflexivity).
  unfold bind, ret, modify, get_state, logging, queue_put, msg_message; simpl.
  destruct (_sync_request h) as [req|] eqn:Hreq; simpl.
  - destruct (length (_sync_replies h) <? maxsize)%nat; simpl; [|congruence].
    intros _. right. simpl. rewrite Hreq, length_app. simpl.
    repeat split; [lia|eauto].
  - intros _. left. unfold sync_state. simpl. rewrite Hreq. reflexivity.
Qed.

Lemma call_answers handler msg h :
  snd (call handler msg h) <> Block ->
  answers_or_same h (fst (call handler msg h)).
Proof.
  destruct (decide (handler = cb_handle_error)) as [->|Hne].
  - apply handle_error_answers.
  - intros _. left. apply (sync_call handler msg Hne).
Qed.

Lemma send_await_effect h :
  match _sync_replies h with
  | [] => send_await h = (h, Block)
  | resp :: rest =>
      exists h' out,
        send_await h = (h', out)
        /\ out <> Block
        /\ _sync_replies h' = rest
        /\ _sync_request h' = _sync_request h
  end.
Proof.
  unfold send_await, bind, ret, raise, logging, modify, queue_get,
    msg_message.
  destruct (_sync_replies h) as [|resp rest] eqn:Hq; [reflexivity|].
  destruct resp; simpl; do 2 eexists;
    (split; [reflexivity|repeat split; discriminate]).
Qed.

Lemma answered_agrees h h' :
  answers_or_same h h' ->
  answered h h' (option_list (_sync_request h))
  = option_list (_sync_request h').
Proof.
  unfold answered. intros [Hsame|(Hlen & [req Hreq] & Hnone)].
  - inversion Hsame as [[Hr Hq]]. rewrite Hq, Nat.ltb_irrefl. reflexivity.
  - apply Nat.ltb_lt in Hlen. rewrite Hlen, Hnone, Hreq. reflexivity.
Qed.

Lemma observe_agrees a st : ledger_agrees st -> ledger_agrees (observe a st).
Proof.
  destruct st as [h ledger]. unfold ledger_agrees, observe. simpl. intros ->.
  assert (Hstep : forall (m : M unit),
    (snd (m h) <> Block -> answers_or_same h (fst (m h))) ->
    (forall out, accepted a out (option_list (_sync_request h))
                 = option_list (_sync_request h)) ->
    (match m h with
     | (_, Block) => (h, option_list (_sync_request h))
     | (h', out) =>
         (h', answered h h' (accepted a out (option_list (_sync_request h))))
     end).2
    = option_list (_sync_request
        (match m h with
         | (_, Block) => (h, option_list (_sync_request h))
         | (h', out) =>
             (h', answered h h' (accepted a out (option_list (_sync_request h))))
         end).1)).
  { intros m Hm Hacc. destruct (m h) as [h' out]. simpl in Hm.
    destruct out as [[]|e|]; [| |reflexivity]; simpl; rewrite Hacc;
      apply answered_agrees, Hm; discriminate. }
  destruct a as [msg|msg| |msg|handler msg]; simpl.
  - unfold send_request, bind, modify, get_state, assert, logging,
      connection_write, answered; simpl.
    destruct (_sync_request h) as [req|] eqn:Hreq; simpl.
    + rewrite Nat.ltb_irrefl. simpl. rewrite Hreq. reflexivity.
    + rewrite Nat.ltb_irrefl. reflexivity.
  - apply (Hstep (connection_write HUB_HARDWARE_HANDLE (bytes msg)));
      [intros _; left; reflexivity|reflexivity].
  - pose proof (send_await_effect h) as Hget. unfold bind.
    destruct (_sync_replies h) as [|resp rest] eqn:Hq.
    + rewrite Hget. reflexivity.
    + destruct Hget as (h' & out & -> & Hout & Hrest & Hreq').
      assert (Hans : answered h h' (option_list (_sync_request h))
                     = option_list (_sync_request h')).
      { unfold answered. rewrite Hq, Hrest, Hreq'. simpl.
        replace (S (length rest) <? length rest)%nat with false
          by (symmetry; apply Nat.ltb_ge; lia).
        reflexivity. }
      destruct out as [resp'|e|]; [| |congruence]; simpl; exact Hans.
  - apply (Hstep (correlate msg)); [apply correlate_answers|reflexivity].
  - apply (Hstep (call handler msg)); [apply call_answers|reflexivity].
Qed.

Lemma run_agrees actions st : ledger_agrees st -> ledger_agrees (run actions st).
Proof.
  revert st. induction actions as [|a actions IH]; intros st Hst; simpl.
  - exact Hst.
  - apply IH, observe_agrees, Hst.
Qed.

(** Claim C2.  A [send] of a message that needs a reply, on an instance
    that has a pending request, raises [AssertionError] before anything is
    written to the connection, and the pending request stays.  In every
    state that the steps of the threads reach from a new instance, the
    requests accepted by [send] and not yet answered are the one held in
    [_sync_request], or none: never more than one. *)
Theorem single_pending_request :
  (forall env h msg req,
      needs_reply msg = true ->
      _sync_request h = Some req ->
      exists h',
        send env msg h = (h', Raise AssertionError)
        /\ connection h' = connection h
        /\ _sync_request h' = Some req
        /\ _sync_replies h' = _sync_replies h)
  /\ (forall cls conn actions,
        let st := run actions (Hub__init__ cls conn, []) in
        snd st = option_list (_sync_request (fst st))
        /\ (length (snd st) <= 1)%nat).
Proof.
  split.
  - intros env h msg req Hsync Hreq. eexists.
    split; [apply (send_rejected env h msg req Hsync Hreq)|].
    simpl. repeat split. exact Hreq.
  - intros cls conn actions. simpl.
    pose proof (run_agrees actions (Hub__init__ cls conn, []) eq_refl) as Hag.
    unfold ledger_agrees in Hag. split; [exact Hag|].
    rewrite Hag. destruct (_sync_request _); simpl; lia.
Qed.

(** *** Correlation and the error handler *)

Lemma registered_split h :
  registered h = true ->
  exists ext,
    _msg_handlers h = builtin_handlers ++ ext
    /\ forallb is_external ext = true.
Proof.
  unfold registered. intros Hreg. apply andb_prop in Hreg as [Htake Hext].
  apply bool_decide_eq_true in Htake.
  exists (drop 5 (_msg_handlers h)). split; [|exact Hext].
  rewrite <- Htake. symmetry. apply take_drop.
Qed.

(** External callbacks return, and touch neither the pending request, the
    queue nor the connection. *)
Lemma externals_run ext msg h :
  forallb is_external ext = true ->
  exists h',
    for_each ext (dispatch msg) h = (h', Return tt)
    /\ sync_state h' = sync_state h
    /\ connection h' = connection h
    /\ exists after, log h' = log h ++ after.
Proof.
  revert h. induction ext as [|[c cb] ext IH]; intros h Hext; simpl in *.
  - exists h. repeat split. exists []. rewrite app_nil_r. reflexivity.
  - apply andb_prop in Hext as [Hcb Hext].
    unfold is_external in Hcb. simpl in Hcb.
    destruct cb as [| | | |name]; try discriminate.
    unfold bind at 1. unfold dispatch at 1. simpl.
    destruct (isinstance msg c).
    + unfold bind, logging, modify. simpl.
      match goal with
      | |- context [for_each ext (dispatch msg) ?h1] =>
          destruct (IH h1 Hext) as (h' & Hrun & Hsync & Hconn & after & Hlog)
      end.
      exists h'. rewrite Hrun. repeat split; try assumption.
      eexists. rewrite Hlog. simpl. rewrite <- app_assoc. reflexivity.
    + simpl. apply IH, Hext.
Qed.

(** A handler table whose error handler is registered for errors only. *)
Lemma typed_dispatch msg entry :
  class_of msg <> ClsGenericError ->
  (snd entry = cb_handle_error -> fst entry = ClsGenericError) ->
  preserves sync_state (dispatch msg entry).
Proof.
  intros Hmsg Hentry. unfold dispatch, isinstance.
  case_bool_decide as Hc; [|apply preserves_ret].
  apply preserves_bind; [apply preserves_modify; reflexivity|].
  intros _. apply sync_call. intros Hcb. apply Hmsg.
  rewrite Hc. apply Hentry, Hcb.
Qed.

Lemma registered_typed h entry :
  registered h = true ->
  entry ∈ _msg_handlers h ->
  snd entry = cb_handle_error -> fst entry = ClsGenericError.
Proof.
  intros Hreg Hin Hcb.
  destruct (registered_split h Hreg) as (ext & Htable & Hext).
  rewrite Htable in Hin. apply elem_of_app in Hin as [Hin|Hin].
  - unfold builtin_handlers in Hin. simpl in Hin.
    repeat (apply elem_of_cons in Hin as [->|Hin]; [simpl in *; congruence|]).
    inversion Hin.
  - rewrite forallb_forall in Hext. apply list_elem_of_In, Hext in Hin.
    unfold is_external in Hin. rewrite Hcb in Hin. discriminate.
Qed.

Lemma for_each_typed msg table :
  class_of msg <> ClsGenericError ->
  (forall entry, entry ∈ table ->
     snd entry = cb_handle_error -> fst entry = ClsGenericError) ->
  preserves sync_state (for_each table (dispatch msg)).
Proof.
  intros Hmsg. induction table as [|entry table IH]; intros Htyped; simpl.
  - apply preserves_ret.
  - apply preserves_bind.
    + apply typed_dispatch; [exact Hmsg|]. apply Htyped, list_elem_of_here.
    + intros _. apply IH. intros e He. apply Htyped, list_elem_of_further, He.
Qed.

(** The handlers on an error notification: the error handler logs, clears
    a pending request and puts the error into the queue. *)
Lemma builtin_error_loop text h1 :
  _sync_request h1 = None \/ _sync_replies h1 = [] ->
  exists h2,
    for_each builtin_handlers (dispatch (MsgGenericError text)) h1
    = (h2, Return tt)
    /\ _sync_request h2 = None
    /\ _sync_replies h2
       = _sync_replies h1
         ++ match _sync_request h1 with
            | Some _ => [MsgGenericError text]
            | None => []
            end
    /\ connection h2 = connection h1
    /\ log h2
       = log h1
         ++ [{| level := DEBUG; format := "Handling msg with %s: %r";
                args := [ArgCallback cb_handle_error;
                         ArgUp (MsgGenericError text)] |};
             command_error text].
Proof.
  intros Hroom. unfold builtin_handlers. simpl.
  repeat (progress (unfold dispatch, isinstance, call, _handle_error, bind,
    ret, logging, modify, get_state, msg_message, queue_put; simpl)).
  destruct (_sync_request h1) as [req|] eqn:Hreq; simpl.
  - destruct Hroom as [Hroom|Hroom]; [discriminate|]. rewrite Hroom. simpl.
    eexists. split; [reflexivity|]. simpl.
    rewrite <- app_assoc. repeat split.
  - eexists. split; [reflexivity|]. simpl.
    rewrite <- app_assoc, app_nil_r. repeat split. exact Hreq.
Qed.

Lemma error_loop text ext h1 :
  forallb is_external ext = true ->
  _sync_request h1 = None \/ _sync_replies h1 = [] ->
  exists h2,
    for_each (builtin_handlers ++ ext) (dispatch (MsgGenericError text)) h1
    = (h2, Return tt)
    /\ _sync_request h2 = None
    /\ _sync_replies h2
       = _sync_replies h1
         ++ match _sync_request h1 with
            | Some _ => [MsgGenericError text]
            | None => []
            end
    /\ connection h2 = connection h1
    /\ logs_between h1 h2 (command_error text).
Proof.
  intros Hext Hroom. rewrite for_each_app. unfold bind.
  destruct (builtin_error_loop text h1 Hroom)
    as (h2 & -> & Hreq2 & Hq2 & Hconn2 & Hlog2).
  destruct (externals_run ext (MsgGenericError text) h2 Hext)
    as (h3 & -> & Hsync & Hconn3 & after & Hlog3).
  inversion Hsync as [[Hr Hq]].
  exists h3. split; [reflexivity|].
  repeat split; try congruence.
  eexists [_], after. rewrite Hlog3, Hlog2, <- !app_assoc. reflexivity.
Qed.

Lemma correlate_run msg h req :
  _sync_request h = Some req ->
  _sync_replies h = [] ->
  exists h1,
    correlate msg h = (h1, Return tt)
    /\ _msg_handlers h1 = _msg_handlers h
    /\ connection h1 = connection h
    /\ (exists records, log h1 = log h ++ records)
    /\ if is_reply req msg
       then _sync_request h1 = None /\ _sync_replies h1 = [msg]
       else _sync_request h1 = Some req /\ _sync_replies h1 = [].
Proof.
  intros Hreq Hq.
  unfold correlate, bind, ret, modify, get_state, logging, queue_put. simpl.
  rewrite Hreq. destruct (is_reply req msg); simpl.
  - rewrite Hq. simpl. eexists. split; [reflexivity|]. simpl.
    repeat split. eexists. reflexivity.
  - exists h. repeat split; try assumption.
    exists []. rewrite app_nil_r. reflexivity.
Qed.

(** [_notify] up to the handlers: the frame is logged and decoded, then the
    locked block runs. *)
Lemma notify_unfold h handle data msg req :
  decodes data msg ->
  _sync_request h = Some req ->
  _sync_replies h = [] ->
  exists h1,
    _notify handle data h = for_each (_msg_handlers h) (dispatch msg) h1
    /\ _msg_handlers h1 = _msg_handlers h
    /\ connection h1 = connection h
    /\ (exists records, log h1 = log h ++ records)
    /\ if is_reply req msg
       then _sync_request h1 = None /\ _sync_replies h1 = [msg]
       else _sync_request h1 = Some req /\ _sync_replies h1 = [].
Proof.
  intros Hdec Hreq Hq. unfold _notify. unfold bind at 1. simpl.
  set (h0 := set_log _ h). unfold bind at 1.
  destruct (Hdec h0) as [records ->].
  set (h0' := set_log _ h0).
  destruct (correlate_run msg h0' req Hreq Hq)
    as (h1 & Hcor & Hhand & Hconn & [records' Hlog] & Hsync).
  unfold bind at 1. rewrite Hcor. unfold bind, get_state. rewrite Hhand.
  exists h1. split; [reflexivity|]. repeat split; try assumption.
  eexists. rewrite Hlog. simpl. rewrite <- !app_assoc. reflexivity.
Qed.

Lemma notify_error h handle data text req :
  decodes data (MsgGenericError text) ->
  registered h = true ->
  _sync_request h = Some req ->
  _sync_replies h = [] ->
  exists h',
    _notify handle data h = (h', Return tt)
    /\ _sync_request h' = None
    /\ _sync_replies h' = [MsgGenericError text]
    /\ connection h' = connection h
    /\ logs_between h h' (command_error text).
Proof.
  intros Hdec Hreg Hreq Hq.
  destruct (notify_unfold h handle data _ req Hdec Hreq Hq)
    as (h1 & -> & _ & Hconn & [records Hlog] & Hsync).
  destruct (registered_split h Hreg) as (ext & -> & Hext).
  assert (Hroom : _sync_request h1 = None \/ _sync_replies h1 = []).
  { destruct (is_reply req _); [left|right]; apply Hsync. }
  destruct (error_loop text ext h1 Hext Hroom)
    as (h2 & -> & Hreq2 & Hq2 & Hconn2 & before & after & Hlog2).
  exists h2. split; [reflexivity|]. repeat split.
  - exact Hreq2.
  - rewrite Hq2. destruct (is_reply req _); destruct Hsync as [-> ->];
      reflexivity.
  - congruence.
  - exists (records ++ before), after.
    rewrite Hlog2, Hlog, <- !app_assoc. reflexivity.
Qed.

Lemma notify_other h handle data msg req :
  decodes data msg ->
  registered h = true ->
  _sync_request h = Some req ->
  _sync_replies h = [] ->
  class_of msg <> ClsGenericError ->
  let h' := fst (_notify handle data h) in
  if is_reply req msg
  then _sync_request h' = None /\ _sync_replies h' = [msg]
  else _sync_request h' = Some req /\ _sync_replies h' = [].
Proof.
  intros Hdec Hreg Hreq Hq Hcls. simpl.
  destruct (notify_unfold h handle data _ req Hdec Hreq Hq)
    as (h1 & -> & _ & _ & _ & Hsync).
  pose proof (for_each_typed msg (_msg_handlers h) Hcls
                (fun entry => registered_typed h entry Hreg) h1) as Hframe.
  inversion Hframe as [[Hr Hs]]. rewrite Hr, Hs. exact Hsync.
Qed.

Lemma send_await_error h text rest :
  _sync_replies h = MsgGenericError text :: rest ->
  exists h',
    send_await h = (h', Raise (RuntimeError text))
    /\ _sync_replies h' = rest
    /\ _sync_request h' = _sync_request h
    /\ connection h' = connection h.
Proof.
  intros Hq.
  unfold send_await, bind, ret, raise, logging, modify, queue_get, msg_message.
  rewrite Hq. simpl. eexists. split; [reflexivity|]. repeat split.
Qed.

(** Claim C3, as the code has it.  A notification that is processed while a
    request is pending (queue empty, handler table as [Hub.__init__] set
    it up, possibly followed by callbacks of other objects) is put into
    the reply queue, for the blocked sender, exactly when [is_reply] of the
    pending request holds of it or it is a generic error; the request is
    cleared exactly then.  A generic error is put exactly once, the error
    handler logs it, and the sender that fetches it fails with its
    text. *)
Theorem reply_delivered_iff_reply_or_error
    (h : Hub) (handle : Z) (data : list Z) (msg : UpstreamMsg)
    (req : DownstreamMsg) :
  decodes data msg ->
  registered h = true ->
  _sync_request h = Some req ->
  _sync_replies h = [] ->
  let h' := fst (_notify handle data h) in
  (_sync_replies h' = [msg]
   <-> is_reply req msg = true \/ class_of msg = ClsGenericError)
  /\ (_sync_replies h' = [msg] /\ _sync_request h' = None
      \/ _sync_replies h' = [] /\ _sync_request h' = Some req)
  /\ (forall text,
        msg = MsgGenericError text ->
        snd (_notify handle data h) = Return tt
        /\ _sync_request h' = None
        /\ _sync_replies h' = [msg]
        /\ logs_between h h' (command_error text)
        /\ snd (send_await h') = Raise (RuntimeError text)).
Proof.
  intros Hdec Hreg Hreq Hq. simpl.
  destruct (decide (class_of msg = ClsGenericError)) as [Hcls|Hcls].
  - destruct msg as [| | |text| | | |]; try discriminate.
    destruct (notify_error h handle data text req Hdec Hreg Hreq Hq)
      as (h' & Hrun & Hreq' & Hq' & _ & Hlog).
    rewrite Hrun. simpl. split; [|split].
    + split; [right; reflexivity|intros _; exact Hq'].
    + left. split; assumption.
    + intros text' Htext. inversion Htext. subst text'.
      repeat split; try assumption.
      destruct (send_await_error h' text [] Hq') as (h'' & -> & _).
      reflexivity.
  - pose proof (notify_other h handle data msg req Hdec Hreg Hreq Hq Hcls)
      as Hother. simpl in Hother.
    destruct (is_reply req msg); destruct Hother as [Hreq' Hq'].
    + split; [|split].
      * split; [left; reflexivity|intros _; exact Hq'].
      * left. split; assumption.
      * intros text ->. contradiction Hcls. reflexivity.
    + split; [|split].
      * rewrite Hq'. split; [discriminate|].
        intros [Hf|Hf]; [discriminate|contradiction].
      * right. split; assumption.
      * intros text ->. contradiction Hcls. reflexivity.
Qed.

(** Claim C4.  Whatever put it there, a generic error at the head of the
    reply queue makes the waiting [send] raise [RuntimeError] with the text
    of the error.  A [send] of a message that needs a reply, on an instance
    with no pending request and an empty queue, that is answered by a
    generic-error notification, writes the message, raises [RuntimeError]
    with the text that the device reported, and leaves no pending request
    and an empty queue: the next [send] of a message that needs a reply is
    accepted. *)
Theorem send_error_reply_raises
    (h : Hub) (msg : DownstreamMsg) (handle : Z) (data : list Z)
    (text : string) :
  needs_reply msg = true ->
  _sync_request h = None ->
  _sync_replies h = [] ->
  registered h = true ->
  decodes data (MsgGenericError text) ->
  (forall h0 rest,
      _sync_replies h0 = MsgGenericError text :: rest ->
      snd (send_await h0) = Raise (RuntimeError text))
  /\ exists h',
      send (fun h1 => fst (_notify handle data h1)) msg h
      = (h', Raise (RuntimeError text))
      /\ _sync_request h' = None
      /\ _sync_replies h' = []
      /\ written (connection h')
         = written (connection h) ++ [(HUB_HARDWARE_HANDLE, bytes msg)]
      /\ forall msg', snd (send_request msg' (bytes msg') h') = Return tt.
Proof.
  intros Hsync Hreq Hq Hreg Hdec. split.
  - intros h0 rest Hq0.
    destruct (send_await_error h0 text rest Hq0) as (h' & -> & _).
    reflexivity.
  - unfold send, send_request. rewrite Hsync.
    unfold bind at 1. simpl. unfold bind at 1. unfold bind at 1.
    unfold bind at 1. unfold get_state at 1. simpl. rewrite Hreq. simpl.
    unfold bind at 1. simpl. unfold bind at 1. simpl.
    set (h2 := set_connection _ _).
    assert (Hreg2 : registered h2 = true) by exact Hreg.
    assert (Hreq2 : _sync_request h2 = Some msg) by reflexivity.
    assert (Hq2 : _sync_replies h2 = []) by exact Hq.
    destruct (notify_error h2 handle data text msg Hdec Hreg2 Hreq2 Hq2)
      as (h3 & Hrun & Hreq3 & Hq3 & Hconn3 & _).
    unfold bind at 1. unfold concurrently, modify. rewrite Hrun. simpl.
    destruct (send_await_error h3 text [] Hq3)
      as (h4 & Hawait & Hq4 & Hreq4 & Hconn4).
    unfold bind. rewrite Hawait.
    exists h4. split; [reflexivity|]. repeat split.
    + congruence.
    + exact Hq4.
    + rewrite Hconn4, Hconn3. reflexivity.
    + intros msg'.
      unfold bind, get_state, assert, modify, logging, connection_write.
      simpl. rewrite Hreq4, Hreq3. reflexivity.
Qed.

End Engine.

(** ** The wait for the built-in devices *)

Section Wait.

Lemma wait_rounds_spec get_dev_set nums k :
  let result := wait_rounds get_dev_set nums k in
  snd result = Return tt
  /\ match first_complete get_dev_set k (length nums) with
     | Some j =>
         sleeps (fst result) = replicate (j - k) 100
         /\ warnings (fst result) = []
     | None =>
         sleeps (fst result) = replicate (length nums) 100
         /\ warnings (fst result)
            = [got_only (get_dev_set (k + length nums)%nat)]
     end.
Proof.
  revert k. induction nums as [|num nums IH]; intros k; simpl.
  - rewrite Nat.add_0_r. repeat split.
  - unfold first_complete. simpl.
    destruct (all (get_dev_set k)) eqn:Hall; simpl.
    + rewrite Nat.sub_diag. repeat split.
    + specialize (IH (S k)). simpl in IH.
      destruct (wait_rounds get_dev_set nums (S k)) as [effects out].
      simpl in *. destruct IH as [Hout IH]. split; [exact Hout|].
      unfold first_complete in IH.
      destruct (find _ (seq (S k) (length nums))) as [j|] eqn:Hfind.
      * destruct IH as [Hs Hw]. rewrite Hs. split; [|exact Hw].
        apply find_some in Hfind as [Hin _]. apply in_seq in Hin.
        replace (j - k)%nat with (S (j - S k)) by lia. reflexivity.
      * destruct IH as [Hs Hw]. rewrite Hs, Hw.
        rewrite Nat.add_succ_r. repeat split.
Qed.

Lemma wait_rounds_bound get_dev_set nums k :
  (length (sleeps (fst (wait_rounds get_dev_set nums k))) <= length nums)%nat
  /\ 0 <= total_sleep (fst (wait_rounds get_dev_set nums k))
       <= 100 * Z.of_nat (length nums).
Proof.
  unfold total_sleep.
  revert k. induction nums as [|num nums IH]; intros k; simpl.
  - lia.
  - destruct (all (get_dev_set k)); simpl; [lia|].
    specialize (IH (S k)).
    destruct (wait_rounds get_dev_set nums (S k)) as [effects out].
    simpl in *. lia.
Qed.

(** Claim C7.  [_wait_for_devices] always returns, and returns normally:
    it raises nothing.  It sleeps at most 60 times, 100 milliseconds each,
    6 seconds at most in all.  If call number [j] of [get_dev_set], with
    [j < 60], is the first that finds every device, the loop returns then,
    after [j] sleeps and without a warning; if none of the 60 calls does,
    it sleeps 60 times and logs one warning with the devices it has. *)
Theorem wait_for_devices_terminates
    (world : nat -> Hub) (get_dev_set : option (nat -> list (option ref))) :
  let result := _wait_for_devices world get_dev_set in
  let calls := default (fun k => default_dev_set (world k)) get_dev_set in
  snd result = Return tt
  /\ (length (sleeps (fst result)) <= 60)%nat
  /\ 0 <= total_sleep (fst result) <= 6000
  /\ match first_complete calls 0 60 with
     | Some j =>
         (j < 60)%nat
         /\ sleeps (fst result) = replicate j 100
         /\ warnings (fst result) = []
     | None =>
         sleeps (fst result) = replicate 60 100
         /\ warnings (fst result) = [got_only (calls 60%nat)]
     end.
Proof.
  simpl. unfold _wait_for_devices.
  set (calls := match get_dev_set with Some f => f | None => _ end).
  replace (default _ get_dev_set) with calls
    by (destruct get_dev_set; reflexivity).
  pose proof (wait_rounds_spec calls range_0_60 0) as [Hout Hspec].
  pose proof (wait_rounds_bound calls range_0_60 0) as [Hlen Htotal].
  change (length range_0_60) with 60%nat in *.
  repeat split; try assumption; try lia.
  destruct (first_complete calls 0 60) as [j|] eqn:Hfirst.
  - destruct Hspec as [Hs Hw]. rewrite Nat.sub_0_r in Hs.
    repeat split; try assumption.
    unfold first_complete in Hfirst.
    apply find_some in Hfirst as [Hin _]. apply in_seq in Hin. lia.
  - exact Hspec.
Qed.

End Wait.

(** ** Frames and invariants of the methods *)

Lemma preserves_queue_put {X} (f : Hub -> X) msg :
  (forall q h, f (set_sync_replies q h) = f h) -> preserves f (queue_put msg).
Proof.
  intros Hf h. unfold queue_put.
  destruct (length (_sync_replies h) <? maxsize)%nat; simpl; [apply Hf|reflexivity].
Qed.

Lemma preserves_queue_get {X} (f : Hub -> X) :
  (forall q h, f (set_sync_replies q h) = f h) -> preserves f queue_get.
Proof.
  intros Hf h. unfold queue_get.
  destruct (_sync_replies h); simpl; [reflexivity|apply Hf].
Qed.

(** [frame_with side] proves [preserves f m] along the structure of [m];
    [side] proves that one update of the instance leaves [f] alone. *)
Ltac frame_with side :=
  repeat first
    [ apply preserves_ret
    | apply preserves_raise
    | apply preserves_lift
    | apply preserves_assert
    | apply preserves_get_state
    | apply preserves_getitem
    | apply preserves_type_of
    | apply preserves_usbytes
    | apply preserves_queue_put; intros; solve [side]
    | apply preserves_queue_get; intros; solve [side]
    | apply preserves_new_peripheral; intros; solve [side]
    | apply preserves_modify; intros; solve [side]
    | apply preserves_bind; [|intros ?]
    | match goal with
      | |- preserves _ (if ?b then _ else _) => destruct b
      | |- preserves _ (match ?x with _ => _ end) => destruct x
      end
    | progress unfold logging, peripherals_pop, peripherals_setitem,
        set_virtual_ports, queue_port_data, connection_write,
        connection_disconnect, bind_field, set_field, attr_event,
        attr_port, attr_payload, attr_action, msg_message, concurrently ].

Section Frames.
Context {proto : Protocol}.

Lemma preserves_find_msg_kind {X} (f : Hub -> X) data msg_type kinds :
  (forall l h, f (set_log l h) = f h) ->
  preserves f (find_msg_kind data msg_type kinds).
Proof.
  intros Hf. induction kinds as [|k kinds IH]; simpl.
  - apply preserves_ret.
  - frame_with ltac:(idtac; apply Hf). exact IH.
Qed.

Lemma preserves_get_upstream_msg {X} (f : Hub -> X) data :
  (forall l h, f (set_log l h) = f h) ->
  preserves f (_get_upstream_msg data).
Proof.
  intros Hf. unfold _get_upstream_msg.
  frame_with ltac:(idtac; apply Hf). apply preserves_find_msg_kind, Hf.
Qed.

Lemma wiring_call handler msg : preserves wiring (call handler msg).
Proof.
  destruct handler; simpl;
    unfold _handle_device_change, MoveHub_handle_device_change,
      Hub_handle_device_change, _handle_sensor_data, _handle_error,
      _handle_action;
    frame_with ltac:(idtac; reflexivity).
Qed.

Lemma wiring_notify handle data : preserves wiring (_notify handle data).
Proof.
  unfold _notify, correlate. frame_with ltac:(idtac; reflexivity).
  - apply preserves_find_msg_kind. reflexivity.
  - apply preserves_for_each. intros entry. unfold dispatch.
    frame_with ltac:(idtac; reflexivity). apply wiring_call.
Qed.

End Frames.

(** ** The store of instances in every reachable state *)

Lemma keeps_ret {A} (I : Hub -> Prop) (a : A) : keeps I (ret a).
Proof. intros h Hh. exact Hh. Qed.

Lemma keeps_bind {A B} (I : Hub -> Prop) (m : M A) (k : A -> M B) :
  keeps I m -> (forall a, keeps I (k a)) -> keeps I (bind m k).
Proof.
  intros Hm Hk h Hh. unfold bind. specialize (Hm h Hh).
  destruct (m h) as [h1 [a|e|]]; simpl in *; try exact Hm.
  apply Hk, Hm.
Qed.

Lemma keeps_for_each {A} (I : Hub -> Prop) (xs : list A) body :
  (forall x, keeps I (body x)) -> keeps I (for_each xs body).
Proof.
  intros Hbody. induction xs as [|x xs IH]; simpl.
  - apply keeps_ret.
  - apply keeps_bind; [apply Hbody|intros _; exact IH].
Qed.

Lemma store_ok_view h h' :
  store_view h' = store_view h -> store_ok h -> store_ok h'.
Proof.
  unfold store_view, store_ok. intros Hview. inversion Hview as [[Hper Hlen]].
  rewrite Hper, Hlen. tauto.
Qed.

Lemma keeps_preserved {A} (m : M A) :
  preserves store_view m -> keeps store_ok m.
Proof. intros Hm h. apply store_ok_view, Hm. Qed.

Lemma keeps_install cls port :
  keeps store_ok (let* p := new_peripheral cls port in peripherals_setitem port p).
Proof.
  intros h Hh. unfold bind, new_peripheral, peripherals_setitem, modify. simpl.
  eapply (store_ok_insert_new h); [exact Hh|reflexivity..].
Qed.

Lemma keeps_pop port : keeps store_ok (peripherals_pop port).
Proof.
  intros h Hh. unfold peripherals_pop, bind, peripherals_getitem, modify, ret.
  destruct (peripherals h !! port); simpl; [|exact Hh].
  eapply (store_ok_delete h); [exact Hh|reflexivity..].
Qed.

Ltac store_side :=
  first [ reflexivity
        | unfold store_view; simpl; rewrite length_alter; reflexivity ].

Ltac keep_store :=
  repeat first
    [ apply keeps_install
    | apply keeps_pop
    | apply keeps_preserved; solve [frame_with ltac:(idtac; store_side)]
    | apply keeps_bind; [|intros ?]
    | match goal with
      | |- keeps _ (if ?b then _ else _) => destruct b
      | |- keeps _ (match ?x with _ => _ end) => destruct x
      end ].

Section Store.
Context {proto : Protocol}.

Lemma store_Hub_handle_device_change msg :
  keeps store_ok (Hub_handle_device_change msg).
Proof. unfold Hub_handle_device_change. keep_store. Qed.

Lemma store_call handler msg : keeps store_ok (call handler msg).
Proof.
  destruct handler; simpl.
  - unfold _handle_device_change, MoveHub_handle_device_change.
    keep_store; apply store_Hub_handle_device_change.
  - unfold _handle_sensor_data. keep_store.
  - unfold _handle_error. keep_store.
  - unfold _handle_action. keep_store.
  - keep_store.
Qed.

Lemma store_notify handle data : keeps store_ok (_notify handle data).
Proof.
  unfold _notify.
  apply keeps_bind; [keep_store|intros _].
  apply keeps_bind.
  { apply keeps_preserved, preserves_get_upstream_msg. reflexivity. }
  intros msg. apply keeps_bind; [unfold correlate; keep_store|intros _].
  apply keeps_bind; [keep_store|intros h1].
  apply keeps_for_each. intros entry. unfold dispatch.
  keep_store. apply store_call.
Qed.

Lemma store_exec a : keeps store_ok (exec a).
Proof.
  destruct a; simpl.
  - unfold send_request. keep_store.
  - keep_store.
  - unfold send_await. keep_store.
  - unfold correlate. keep_store.
  - apply store_call.
Qed.

Lemma store_observe a st : store_ok (fst st) -> store_ok (fst (observe a st)).
Proof.
  intros Hst. unfold observe. pose proof (store_exec a (fst st) Hst) as Hexec.
  destruct (exec a st.1) as [h' [[]|e|]]; simpl in *; assumption.
Qed.

(** Property X1.  The references that [peripherals] holds always point to
    instances that exist, and no instance sits at two ports: a run of
    [_notify] on any frame keeps this, however it ends, and it holds in
    every state that the steps of the threads reach from a new instance. *)
Theorem store_invariant :
  (forall h handle data,
      store_ok h -> store_ok (fst (_notify handle data h)))
  /\ (forall cls conn actions,
        store_ok (fst (run actions (Hub__init__ cls conn, [])))).
Proof.
  split.
  - intros h handle data. apply store_notify.
  - intros cls conn actions.
    assert (Hgen : forall st, store_ok (fst st) -> store_ok (fst (run actions st))).
    { induction actions as [|a actions IH]; intros st Hst; simpl.
      - exact Hst.
      - apply IH, store_observe, Hst. }
    apply Hgen, store_ok_init.
Qed.

End Store.

(** ** Notifications, handler by handler *)

Section Dispatch.
Context {proto : Protocol}.

Lemma find_msg_kind_none data t kinds h :
  Forall (fun k => TYPE k <> t) kinds ->
  find_msg_kind data t kinds h = (h, Return None).
Proof.
  induction 1 as [|k kinds Hk _ IH]; simpl; [reflexivity|].
  destruct (t =? TYPE k) eqn:E; [|exact IH].
  apply Z.eqb_eq in E. congruence.
Qed.

Lemma find_msg_kind_first data t pre k post h :
  Forall (fun k' => TYPE k' <> t) pre ->
  TYPE k = t ->
  find_msg_kind data t (pre ++ k :: post) h
  = match decode k data with
    | Ok msg =>
        (set_log (log h ++ [{| level := DEBUG; format := "Decoded message: %r";
                               args := [ArgUp msg] |}]) h,
         Return (Some msg))
    | Err e => (h, Raise e)
    end.
Proof.
  intros Hpre Hk. induction Hpre as [|k' pre Hk' _ IH]; simpl.
  - rewrite Hk, Z.eqb_refl. destruct (decode k data); reflexivity.
  - destruct (t =? TYPE k') eqn:E; [|exact IH].
    apply Z.eqb_eq in E. congruence.
Qed.

(** Property X2.  A frame whose type byte is the [TYPE] of no kind in
    [UPSTREAM_MSGS] makes [_notify] raise [AssertionError]; but for the one
    debug record that [_notify] logs first the instance is as before: no
    handler has run and no reply was put. *)
Theorem notify_unknown_type (h : Hub) (handle : Z) (data : list Z) (t : Z) :
  usbyte data 2 = Ok t ->
  Forall (fun k => TYPE k <> t) UPSTREAM_MSGS ->
  _notify handle data h
  = (set_log (log h ++ [{| level := DEBUG; format := "Notification on %s: %s";
                           args := [ArgInt handle; ArgBytes data] |}]) h,
     Raise AssertionError).
Proof.
  intros Ht Hnone. unfold _notify, _get_upstream_msg.
  unfold bind at 1. simpl. unfold bind at 1. unfold bind at 1.
  rewrite Ht. simpl. unfold bind at 1.
  rewrite (find_msg_kind_none data t _ _ Hnone). reflexivity.
Qed.

(** Property X3.  [_get_upstream_msg] decodes a frame with the first kind of
    [UPSTREAM_MSGS] whose [TYPE] is the byte at index 2, whatever kinds
    follow it; when that decoder raises, the exception is raised and no
    later kind is tried. *)
Theorem get_upstream_msg_first_kind
    (h : Hub) (data : list Z) (t : Z) (pre post : list MsgKind) (k : MsgKind) :
  usbyte data 2 = Ok t ->
  UPSTREAM_MSGS = pre ++ k :: post ->
  Forall (fun k' => TYPE k' <> t) pre ->
  TYPE k = t ->
  _get_upstream_msg data h
  = match decode k data with
    | Ok msg =>
        (set_log (log h ++ [{| level := DEBUG; format := "Decoded message: %r";
                               args := [ArgUp msg] |}]) h,
         Return msg)
    | Err e => (h, Raise e)
    end.
Proof.
  intros Ht Hkinds Hpre Hk. unfold _get_upstream_msg.
  unfold bind at 1. rewrite Ht. simpl. unfold bind.
  rewrite Hkinds, (find_msg_kind_first data t pre k post h Hpre Hk).
  destruct (decode k data); reflexivity.
Qed.

End Dispatch.

(** ** Running the methods step by step *)

Ltac exec_all :=
  repeat (progress (unfold bind, ret, raise, modify, get_state, logging,
    assert, lift, isinstance, peripherals_pop, peripherals_getitem,
    peripherals_setitem, new_peripheral, set_virtual_ports, queue_port_data,
    queue_put, queue_get, connection_write, connection_disconnect,
    attr_event, attr_port, attr_payload, attr_action, msg_message,
    _handle_sensor_data, _handle_error, _handle_action, concurrently; simpl)).

Lemma preserves_bind_raise {A B X} (f : Hub -> X) e (k : A -> M B) :
  preserves f (bind (raise e) k).
Proof. intros h. reflexivity. Qed.

Section Dispatch2.
Context {proto : Protocol}.

(** The loop over the built-in part of the handler table calls the one
    handler registered for the class of the message. *)
Lemma builtin_loop msg h :
  for_each builtin_handlers (dispatch msg) h
  = match builtin_for msg with
    | Some handler =>
        (logging DEBUG "Handling msg with %s: %r" [ArgCallback handler; ArgUp msg]
         >> call handler msg) h
    | None => (h, Return tt)
    end.
Proof.
  unfold builtin_handlers, builtin_for.
  destruct msg; simpl; unfold dispatch, isinstance; simpl;
    unfold bind, ret, logging, modify; simpl; try reflexivity;
    match goal with
    | |- context [?f ?m (set_log ?l h)] =>
        destruct (f m (set_log l h)) as [h' [[]|e|]]; reflexivity
    end.
Qed.

(** External callbacks return and leave the instance alone, log and record
    of their calls apart; they are called in the order of the table. *)
Lemma externals_calls ext msg h :
  forallb is_external ext = true ->
  exists h',
    for_each ext (dispatch msg) h = (h', Return tt)
    /\ sync_state h' = sync_state h
    /\ hub_class h' = hub_class h
    /\ _msg_handlers h' = _msg_handlers h
    /\ peripherals h' = peripherals h
    /\ connection h' = connection h
    /\ shortcuts h' = shortcuts h
    /\ objects h' = objects h
    /\ external_calls h' = external_calls h ++ calls_of msg ext
    /\ exists after, log h' = log h ++ after.
Proof.
  revert h. induction ext as [|[c cb] ext IH]; intros h Hext; simpl in *.
  - exists h. rewrite app_nil_r. repeat split. exists []. rewrite app_nil_r.
    reflexivity.
  - apply andb_prop in Hext as [Hcb Hext].
    unfold is_external in Hcb. simpl in Hcb.
    destruct cb as [| | | |name]; try discriminate.
    unfold bind at 1. unfold dispatch at 1. simpl.
    destruct (isinstance msg c).
    + unfold bind, logging, modify. simpl.
      match goal with
      | |- context [for_each ext (dispatch msg) ?h1] =>
          destruct (IH h1 Hext)
            as (h' & Hrun & Hsync & Hc & Hh & Hp & Hconn & Hs & Ho & Hcalls
                & after & Hlog)
      end.
      exists h'. rewrite Hrun. repeat split; try assumption.
      * rewrite Hcalls. simpl. rewrite <- app_assoc. reflexivity.
      * eexists. rewrite Hlog. simpl. rewrite <- app_assoc. reflexivity.
    + simpl. apply IH, Hext.
Qed.

(** [_notify] up to the handlers, when the locked block does not have to
    wait for room in the queue. *)
Lemma notify_to_handlers h handle data msg :
  decodes data msg ->
  _sync_request h = None \/ _sync_replies h = [] ->
  exists h1,
    _notify handle data h = for_each (_msg_handlers h) (dispatch msg) h1
    /\ outside_sync h1 = outside_sync h
    /\ sync_state h1 = correlated msg h
    /\ exists records, log h1 = log h ++ records.
Proof.
  intros Hdec Hroom. unfold _notify. unfold bind at 1. simpl.
  set (h0 := set_log _ h). unfold bind at 1.
  destruct (Hdec h0) as [records ->].
  set (h0' := set_log _ h0).
  unfold bind at 1. unfold correlate, correlated.
  unfold bind at 1. unfold get_state at 1. simpl.
  destruct (_sync_request h) as [req|] eqn:Hreq.
  - destruct Hroom as [Hroom|Hroom]; [discriminate|].
    destruct (is_reply req msg).
    + unfold bind, logging, modify, queue_put, get_state. simpl.
      rewrite Hroom. simpl. eexists. split; [reflexivity|].
      unfold sync_state. simpl. repeat split.
      eexists. rewrite <- !app_assoc. reflexivity.
    + unfold bind, ret, get_state. simpl. exists h0'.
      split; [reflexivity|]. unfold sync_state. simpl. rewrite Hreq.
      repeat split. eexists. rewrite <- !app_assoc. reflexivity.
  - unfold bind, ret, get_state. simpl. exists h0'.
    split; [reflexivity|]. unfold sync_state. simpl. rewrite Hreq.
    repeat split. eexists. rewrite <- !app_assoc. reflexivity.
Qed.

Lemma outside_sync_eq h h1 :
  outside_sync h1 = outside_sync h ->
  hub_class h1 = hub_class h
  /\ _msg_handlers h1 = _msg_handlers h
  /\ peripherals h1 = peripherals h
  /\ connection h1 = connection h
  /\ shortcuts h1 = shortcuts h
  /\ objects h1 = objects h
  /\ external_calls h1 = external_calls h.
Proof.
  unfold outside_sync. intros Heq. inversion Heq. repeat split; assumption.
Qed.

Lemma correlated_room msg h h1 :
  _sync_request h = None \/ _sync_replies h = [] ->
  sync_state h1 = correlated msg h ->
  _sync_request h1 = None \/ _sync_replies h1 = [].
Proof.
  unfold sync_state, correlated. intros Hroom Hs.
  destruct (_sync_request h) as [req|].
  - destruct Hroom as [|Hq]; [discriminate|].
    destruct (is_reply req msg); inversion Hs; [left|right]; congruence.
  - inversion Hs. left. reflexivity.
Qed.

Lemma registered_table h :
  registered h = true ->
  exists ext,
    _msg_handlers h = builtin_handlers ++ ext
    /\ forallb is_external ext = true
    /\ forall msg, calls_of msg (_msg_handlers h) = calls_of msg ext.
Proof.
  intros Hreg. destruct (registered_split h Hreg) as (ext & Htable & Hext).
  exists ext. repeat split; try assumption.
  intros msg. rewrite Htable. reflexivity.
Qed.

(** The built-in handlers of a notification that is no attach or detach
    return, when the error handler has room in the queue. *)
Lemma builtin_returns msg h :
  class_of msg <> ClsHubAttachedIO ->
  _sync_request h = None \/ _sync_replies h = [] ->
  exists h',
    for_each builtin_handlers (dispatch msg) h = (h', Return tt)
    /\ external_calls h' = external_calls h
    /\ peripherals h' = peripherals h
    /\ shortcuts h' = shortcuts h.
Proof.
  intros Hcls Hroom. rewrite builtin_loop. unfold builtin_for.
  destruct msg as [port event payload | port payload | port payload | text
                   | action | | | ];
    simpl in *; try congruence; try (eexists; repeat split; reflexivity).
  - exec_all. destruct (peripherals h !! port) eqn:Hp; exec_all; rewrite ?Hp;
      eexists; repeat split; reflexivity.
  - exec_all. destruct (peripherals h !! port) eqn:Hp; exec_all; rewrite ?Hp;
      eexists; repeat split; reflexivity.
  - exec_all. destruct (_sync_request h) eqn:Hreq; exec_all.
    + destruct Hroom as [|Hq]; [discriminate|]. rewrite Hq. simpl.
      eexists; repeat split; reflexivity.
    + eexists; repeat split; reflexivity.
  - exec_all.
    destruct (action =? UPSTREAM_DISCONNECT); exec_all;
      [|destruct (action =? UPSTREAM_SHUTDOWN); exec_all];
      eexists; repeat split; reflexivity.
Qed.

(** Property X4.  A run of [_notify], on any frame and however it ends,
    writes nothing to the connection and leaves the handler table and the
    class of the instance as they are. *)
Theorem notify_leaves_wiring (h : Hub) (handle : Z) (data : list Z) :
  let h' := fst (_notify handle data h) in
  written (connection h') = written (connection h)
  /\ _msg_handlers h' = _msg_handlers h
  /\ hub_class h' = hub_class h.
Proof.
  simpl. pose proof (wiring_notify handle data h) as Hw.
  unfold wiring in Hw. inversion Hw. repeat split; assumption.
Qed.

(** Property X5.  After the built-in handlers of a notification that is no
    attach or detach, every external callback registered for the class of
    the message has been called with it, once and in the order of
    registration; the notification returns and changes neither
    [peripherals] nor the shorthand fields. *)
Theorem externals_called_in_order
    (h : Hub) (handle : Z) (data : list Z) (msg : UpstreamMsg) :
  decodes data msg ->
  class_of msg <> ClsHubAttachedIO ->
  registered h = true ->
  _sync_request h = None \/ _sync_replies h = [] ->
  exists h',
    _notify handle data h = (h', Return tt)
    /\ external_calls h' = external_calls h ++ calls_of msg (_msg_handlers h)
    /\ peripherals h' = peripherals h
    /\ shortcuts h' = shortcuts h.
Proof.
  intros Hdec Hcls Hreg Hroom.
  destruct (notify_to_handlers h handle data msg Hdec Hroom)
    as (h1 & -> & Hout & Hsync & _).
  destruct (registered_table h Hreg) as (ext & Htable & Hext & Hcalls).
  rewrite Hcalls, Htable.
  pose proof (correlated_room msg h h1 Hroom Hsync) as Hroom1.
  destruct (builtin_returns msg h1 Hcls Hroom1) as (h2 & Hrun2 & Hc2 & Hp2 & Hs2).
  destruct (externals_calls ext msg h2 Hext)
    as (h3 & Hrun3 & _ & _ & _ & Hp3 & _ & Hs3 & _ & Hc3 & _).
  rewrite for_each_app. unfold bind. rewrite Hrun2, Hrun3.
  apply outside_sync_eq in Hout as (_ & _ & Hp1 & _ & Hs1 & _ & Hc1).
  exists h3. repeat split; congruence.
Qed.

(** Property X6.  A port value notification (single or combined) for a port
    that holds a peripheral is queued at that instance and at no other, and
    [peripherals] stays as it is; for a port that holds none it is dropped
    with a warning.  In both cases the notification returns. *)
Theorem port_value_reaches_device
    (h : Hub) (handle : Z) (data : list Z) (msg : UpstreamMsg)
    (port : Z) (payload : list Z) :
  decodes data msg ->
  msg = MsgPortValueSingle port payload
  \/ msg = MsgPortValueCombined port payload ->
  registered h = true ->
  _sync_request h = None \/ _sync_replies h = [] ->
  exists h',
    _notify handle data h = (h', Return tt)
    /\ peripherals h' = peripherals h
    /\ match peripherals h !! port with
       | Some p =>
           objects h' !! p = with_port_data msg <$> objects h !! p
           /\ (forall q, q <> p -> objects h' !! q = objects h !! q)
       | None =>
           objects h' = objects h
           /\ logs_between h h'
                {| level := WARNING;
                   format := "Notification on port with no device: %s";
                   args := [ArgInt port] |}
       end.
Proof.
  intros Hdec Hmsg Hreg Hroom.
  destruct (notify_to_handlers h handle data msg Hdec Hroom)
    as (h1 & -> & Hout & _ & records & Hlog).
  destruct (registered_table h Hreg) as (ext & -> & Hext & _).
  apply outside_sync_eq in Hout as (_ & _ & Hp & _ & _ & Ho & _).
  rewrite for_each_app, <- Hp, <- Ho. unfold bind at 1. rewrite builtin_loop.
  destruct Hmsg as [-> | ->]; unfold builtin_for; simpl; exec_all;
    (destruct (peripherals h1 !! port) as [p|] eqn:Hp1; exec_all; rewrite ?Hp1;
     match goal with
     | |- context [for_each ext (dispatch ?m) ?h2] =>
         destruct (externals_calls ext m h2 Hext)
           as (h3 & -> & _ & _ & _ & Hp3 & _ & _ & Ho3 & _ & after & Hl3)
     end;
     exists h3; (split; [reflexivity|]); rewrite Hp3, Ho3; simpl;
     (split; [reflexivity|]);
     [ split; [apply list_lookup_alter_eq
              |intros q Hq; apply list_lookup_alter_ne; congruence]
     | split; [reflexivity|];
       eexists (records ++ [_]), after; rewrite Hl3; simpl; rewrite Hlog;
       rewrite <- !app_assoc; reflexivity ]).
Qed.

(** A message that is no attach or detach has no [event]: the attachment
    handler raises at once. *)
Lemma attachments_call handler msg :
  class_of msg <> ClsHubAttachedIO ->
  preserves attachments (call handler msg).
Proof.
  intros Hcls. destruct handler; simpl.
  - unfold _handle_device_change, MoveHub_handle_device_change,
      Hub_handle_device_change.
    destruct msg; simpl in Hcls; try congruence;
      (apply preserves_bind; [apply preserves_get_state|intros h0];
       destruct (hub_class h0);
       [apply preserves_bind_raise
       |apply preserves_bind; [apply preserves_bind_raise|intros _];
        apply preserves_ret]).
  - unfold _handle_sensor_data. frame_with ltac:(idtac; reflexivity).
  - unfold _handle_error. frame_with ltac:(idtac; reflexivity).
  - unfold _handle_action. frame_with ltac:(idtac; reflexivity).
  - frame_with ltac:(idtac; reflexivity).
Qed.

Lemma attachments_for_each msg table :
  class_of msg <> ClsHubAttachedIO ->
  preserves attachments (for_each table (dispatch msg)).
Proof.
  intros Hcls. apply preserves_for_each. intros entry. unfold dispatch.
  frame_with ltac:(idtac; reflexivity). apply attachments_call, Hcls.
Qed.

(** Property X7.  A generic error that arrives while no request is pending is
    logged by the error handler and nothing else happens: the notification
    returns, the reply queue and the pending request are as before, and so
    are the connection and [peripherals]. *)
Theorem error_without_request_is_logged
    (h : Hub) (handle : Z) (data : list Z) (text : string) :
  decodes data (MsgGenericError text) ->
  registered h = true ->
  _sync_request h = None ->
  exists h',
    _notify handle data h = (h', Return tt)
    /\ sync_state h' = sync_state h
    /\ connection h' = connection h
    /\ peripherals h' = peripherals h
    /\ logs_between h h' (command_error text).
Proof.
  intros Hdec Hreg Hreq.
  destruct (notify_to_handlers h handle data _ Hdec (or_introl Hreq))
    as (h1 & -> & Hout & Hsync & records & Hlog).
  destruct (registered_table h Hreg) as (ext & -> & Hext & _).
  apply outside_sync_eq in Hout as (_ & _ & Hp1 & Hc1 & _).
  unfold correlated in Hsync. rewrite Hreq in Hsync.
  inversion Hsync as [[Hr1 Hq1]].
  destruct (error_loop text ext h1 Hext (or_introl Hr1))
    as (h2 & Hrun & Hr2 & Hq2 & Hc2 & before & after & Hlog2).
  rewrite Hrun.
  rewrite Hr1, app_nil_r in Hq2.
  assert (Hp2 : peripherals h2 = peripherals h1).
  { pose proof (attachments_for_each (MsgGenericError text)
                  (builtin_handlers ++ ext) ltac:(discriminate) h1) as Hfr.
    rewrite Hrun in Hfr. inversion Hfr. reflexivity. }
  exists h2. split; [reflexivity|]. repeat split.
  - unfold sync_state. congruence.
  - congruence.
  - congruence.
  - exists (records ++ before), after.
    rewrite Hlog2, Hlog, <- !app_assoc. reflexivity.
Qed.

(** Property X8.  Only attach and detach notifications change
    [peripherals] and the shorthand fields: a frame that does not decode to
    one leaves both as they are, whatever the handler table holds and
    however the notification ends. *)
Theorem only_attachments_change_peripherals
    (h : Hub) (handle : Z) (data : list Z) :
  (forall h0 msg,
      snd (_get_upstream_msg data h0) = Return msg ->
      class_of msg <> ClsHubAttachedIO) ->
  let h' := fst (_notify handle data h) in
  peripherals h' = peripherals h /\ shortcuts h' = shortcuts h.
Proof.
  intros Hdec. simpl.
  cut (attachments (fst (_notify handle data h)) = attachments h).
  { unfold attachments. intros Heq. inversion Heq. split; reflexivity. }
  unfold _notify. unfold bind at 1. simpl.
  set (h0 := set_log _ h).
  change (attachments h) with (attachments h0).
  unfold bind at 1.
  pose proof (preserves_get_upstream_msg attachments data
                ltac:(reflexivity) h0) as Hget.
  specialize (Hdec h0).
  destruct (_get_upstream_msg data h0) as [h1 [msg|e|]]; simpl in *;
    try exact Hget.
  rewrite <- Hget.
  assert (Hrest : preserves attachments
            (correlate msg >>
             let* h2 := get_state in for_each (_msg_handlers h2) (dispatch msg))).
  { apply preserves_bind.
    - unfold correlate. frame_with ltac:(idtac; reflexivity).
    - intros _. apply preserves_bind; [apply preserves_get_state|intros h2].
      apply attachments_for_each, Hdec. reflexivity. }
  apply Hrest.
Qed.

(** Property X9.  A hub action notification that reports a disconnect or a
    shutdown marks the connection as not alive; any other action leaves the
    connection alone.  Nothing is written, and a pending request that the
    action does not answer stays pending. *)
Theorem hub_action_disconnects
    (h : Hub) (handle : Z) (data : list Z) (action : Z) :
  decodes data (MsgHubAction action) ->
  registered h = true ->
  _sync_request h = None \/ _sync_replies h = [] ->
  exists h',
    _notify handle data h = (h', Return tt)
    /\ alive (connection h')
       = (if (action =? UPSTREAM_DISCONNECT) || (action =? UPSTREAM_SHUTDOWN)
          then false else alive (connection h))
    /\ written (connection h') = written (connection h)
    /\ sync_state h' = correlated (MsgHubAction action) h.
Proof.
  intros Hdec Hreg Hroom.
  destruct (notify_to_handlers h handle data _ Hdec Hroom)
    as (h1 & -> & Hout & Hsync & _).
  destruct (registered_table h Hreg) as (ext & -> & Hext & _).
  apply outside_sync_eq in Hout as (_ & _ & _ & Hc1 & _).
  rewrite for_each_app. unfold bind at 1. rewrite builtin_loop.
  unfold builtin_for. simpl. exec_all. rewrite <- Hsync, <- Hc1.
  destruct (action =? UPSTREAM_DISCONNECT); exec_all;
    [|destruct (action =? UPSTREAM_SHUTDOWN); exec_all];
    match goal with
    | |- context [for_each ext (dispatch ?m) ?h2] =>
        destruct (externals_calls ext m h2 Hext)
          as (h3 & -> & Hs3 & _ & _ & _ & Hc3 & _)
    end;
    exists h3; rewrite Hs3, Hc3; repeat split.
Qed.

(** Property X10.  A detach notification for a port that [peripherals] does
    not hold makes [_notify] raise [KeyError], and the handlers registered
    after the attachment handler are not called.  The locked block has run
    before: a pending request that the message answers has its reply. *)
Theorem detach_unknown_port_aborts_dispatch
    (h : Hub) (handle : Z) (data : list Z) (port : Z) (payload : list Z) :
  decodes data (MsgHubAttachedIO port EVENT_DETACHED payload) ->
  peripherals h !! port = None ->
  registered h = true ->
  _sync_request h = None \/ _sync_replies h = [] ->
  exists h',
    _notify handle data h = (h', Raise (KeyError port))
    /\ external_calls h' = external_calls h
    /\ outside_sync h' = outside_sync h
    /\ sync_state h' = correlated (MsgHubAttachedIO port EVENT_DETACHED payload) h.
Proof.
  intros Hdec Hnone Hreg Hroom.
  destruct (notify_to_handlers h handle data _ Hdec Hroom)
    as (h1 & -> & Hout & Hsync & _).
  destruct (registered_table h Hreg) as (ext & -> & Hext & _).
  pose proof (outside_sync_eq _ _ Hout) as (_ & _ & Hp1 & _ & _ & _ & He1).
  rewrite for_each_app. unfold bind at 1. rewrite builtin_loop.
  unfold builtin_for. simpl. unfold bind at 1. simpl.
  rewrite detach_bound, detach_absent by (simpl; congruence).
  eexists. split; [reflexivity|]. simpl. repeat split; assumption.
Qed.

End Dispatch2.

Section Sending.
Context {proto : Protocol}.

Lemma send_await_reply h resp rest :
  _sync_replies h = resp :: rest ->
  class_of resp <> ClsGenericError ->
  exists h',
    send_await h = (h', Return resp)
    /\ _sync_replies h' = rest
    /\ _sync_request h' = _sync_request h
    /\ connection h' = connection h.
Proof.
  intros Hq Hcls. unfold send_await. exec_all. rewrite Hq.
  destruct resp; simpl in *; try congruence;
    eexists; repeat split; reflexivity.
Qed.

(** Property X11.  A [send] of a message that needs no reply writes its bytes
    to the hardware handle and returns [None] at once.  It does not look at
    the pending request: it is accepted while another request is pending,
    and the pending request and the reply queue stay as they are. *)
Theorem send_without_reply
    (env : Hub -> Hub) (h : Hub) (msg : DownstreamMsg) :
  needs_reply msg = false ->
  exists h',
    send env msg h = (h', Return None)
    /\ written (connection h')
       = written (connection h) ++ [(HUB_HARDWARE_HANDLE, bytes msg)]
    /\ sync_state h' = sync_state h
    /\ peripherals h' = peripherals h.
Proof.
  intros Hno. unfold send. rewrite Hno. exec_all.
  eexists. repeat split.
Qed.

(** Property X12.  A [send] of a message that needs a reply, on an instance
    with no pending request and an empty queue, that is answered by a
    notification of which [is_reply] holds and that is no generic error,
    returns that message; afterwards no request is pending, the queue is
    empty and exactly the bytes of the message were written. *)
Theorem send_returns_matching_reply
    (h : Hub) (msg : DownstreamMsg) (handle : Z) (data : list Z)
    (reply : UpstreamMsg) :
  needs_reply msg = true ->
  _sync_request h = None ->
  _sync_replies h = [] ->
  registered h = true ->
  decodes data reply ->
  is_reply msg reply = true ->
  class_of reply <> ClsGenericError ->
  exists h',
    send (fun h1 => fst (_notify handle data h1)) msg h
    = (h', Return (Some reply))
    /\ _sync_request h' = None
    /\ _sync_replies h' = []
    /\ written (connection h')
       = written (connection h) ++ [(HUB_HARDWARE_HANDLE, bytes msg)].
Proof.
  intros Hsync Hreq Hq Hreg Hdec Hreply Hcls.
  unfold send, send_request. rewrite Hsync.
  unfold bind at 1. simpl. unfold bind at 1. unfold bind at 1.
  unfold bind at 1. unfold get_state at 1. simpl. rewrite Hreq. simpl.
  unfold bind at 1. simpl. unfold bind at 1. simpl.
  set (h2 := set_connection _ _).
  assert (Hreg2 : registered h2 = true) by exact Hreg.
  assert (Hreq2 : _sync_request h2 = Some msg) by reflexivity.
  assert (Hq2 : _sync_replies h2 = []) by exact Hq.
  pose proof (notify_other h2 handle data reply msg Hdec Hreg2 Hreq2 Hq2 Hcls)
    as Hnot. simpl in Hnot. rewrite Hreply in Hnot. destruct Hnot as [Hr3 Hq3].
  pose proof (wiring_notify handle data h2) as Hw.
  set (h3 := fst (_notify handle data h2)) in *.
  destruct (send_await_reply h3 reply [] Hq3 Hcls)
    as (h4 & Hawait & Hq4 & Hr4 & Hc4).
  rewrite Hawait.
  exists h4. split; [reflexivity|]. repeat split.
  - congruence.
  - exact Hq4.
  - rewrite Hc4. unfold wiring in Hw. inversion Hw as [[Hwr Hh Hc]].
    rewrite Hwr. reflexivity.
Qed.

(** Property X13.  A notification that does not answer the pending request
    (and is no generic error) does not wake the sender: [send] stays
    suspended in the queue, the request stays pending and the bytes are
    written.  A later notification that answers the request is then what
    the sender gets. *)
Theorem send_waits_for_matching_reply
    (h : Hub) (msg : DownstreamMsg) (handle : Z) (data : list Z)
    (other : UpstreamMsg) :
  needs_reply msg = true ->
  _sync_request h = None ->
  _sync_replies h = [] ->
  registered h = true ->
  decodes data other ->
  is_reply msg other = false ->
  class_of other <> ClsGenericError ->
  exists h',
    send (fun h1 => fst (_notify handle data h1)) msg h = (h', Block)
    /\ _sync_request h' = Some msg
    /\ _sync_replies h' = []
    /\ written (connection h')
       = written (connection h) ++ [(HUB_HARDWARE_HANDLE, bytes msg)]
    /\ forall handle' data' reply,
         decodes data' reply ->
         is_reply msg reply = true ->
         class_of reply <> ClsGenericError ->
         snd (send_await (fst (_notify handle' data' h'))) = Return reply.
Proof.
  intros Hsync Hreq Hq Hreg Hdec Hreply Hcls.
  unfold send, send_request. rewrite Hsync.
  unfold bind at 1. simpl. unfold bind at 1. unfold bind at 1.
  unfold bind at 1. unfold get_state at 1. simpl. rewrite Hreq. simpl.
  unfold bind at 1. simpl. unfold bind at 1. simpl.
  set (h2 := set_connection _ _).
  assert (Hreg2 : registered h2 = true) by exact Hreg.
  assert (Hreq2 : _sync_request h2 = Some msg) by reflexivity.
  assert (Hq2 : _sync_replies h2 = []) by exact Hq.
  pose proof (notify_other h2 handle data other msg Hdec Hreg2 Hreq2 Hq2 Hcls)
    as Hnot. simpl in Hnot. rewrite Hreply in Hnot. destruct Hnot as [Hr3 Hq3].
  pose proof (wiring_notify handle data h2) as Hw.
  set (h3 := fst (_notify handle data h2)) in *.
  unfold wiring in Hw. inversion Hw as [[Hwr Hh Hc]].
  unfold send_await, queue_get, bind. cbv beta. rewrite Hq3.
  exists h3. split; [reflexivity|]. repeat split; try assumption.
  intros handle' data' reply Hdec' Hreply' Hcls'.
  assert (Hreg3 : registered h3 = true).
  { unfold registered. rewrite Hh. exact Hreg2. }
  pose proof (notify_other h3 handle' data' reply msg Hdec' Hreg3 Hr3 Hq3 Hcls')
    as Hnot'. simpl in Hnot'. rewrite Hreply' in Hnot'.
  destruct Hnot' as [_ Hq5].
  assert (Hlast : snd (send_await (fst (_notify handle' data' h3))) = Return reply).
  { destruct (send_await_reply _ reply [] Hq5 Hcls') as (h6 & -> & _).
    reflexivity. }
  exact Hlast.
Qed.

End Sending.

Section AttachmentEdges.
Context {proto : Protocol}.

(** Property X16.  A notification whose event is none of detached, attached
    and attached-virtual makes the attachment handler raise
    [AssertionError] and leaves the instance untouched. *)
Theorem unknown_event_rejected (h : Hub) (port event : Z) (payload : list Z) :
  event <> EVENT_DETACHED ->
  event <> EVENT_ATTACHED ->
  event <> EVENT_ATTACHED_VIRTUAL ->
  Hub_handle_device_change (MsgHubAttachedIO port event payload) h
  = (h, Raise AssertionError)
  /\ _handle_device_change (MsgHubAttachedIO port event payload) h
     = (h, Raise AssertionError).
Proof.
  intros Hd Ha Hv.
  apply Z.eqb_neq in Hd, Ha, Hv.
  assert (Hbase : Hub_handle_device_change (MsgHubAttachedIO port event payload) h
                  = (h, Raise AssertionError)).
  { unfold Hub_handle_device_change. exec_all. rewrite Hd, Ha, Hv. reflexivity. }
  split; [exact Hbase|].
  unfold _handle_device_change, MoveHub_handle_device_change. exec_all.
  destruct (hub_class h); rewrite Hbase; reflexivity.
Qed.

(** Property X17.  An attach notification with a payload too short for what
    the handler reads raises, and what it has done by then stays: when the
    device type cannot be read nothing is installed, and when the device
    type can be read but the revisions or the port pair cannot, the new
    peripheral is already in [peripherals] at the port. *)
Theorem attach_truncated_payload
    (h : Hub) (port event : Z) (payload : list Z) :
  is_attach (MsgHubAttachedIO port event payload) = true ->
  readable (MsgHubAttachedIO port event payload) = false ->
  match ushort payload 0 with
  | Err e =>
      Hub_handle_device_change (MsgHubAttachedIO port event payload) h
      = (h, Raise e)
  | Ok dev_type =>
      exists h' e o,
        Hub_handle_device_change (MsgHubAttachedIO port event payload) h
        = (h', Raise e)
        /\ peripherals h' = <[port := length (objects h)]> (peripherals h)
        /\ objects h' = objects h ++ [o]
        /\ p_type o = class_for dev_type
        /\ virtual_ports o = None
  end.
Proof.
  simpl. intros Hatt Hread.
  apply andb_prop in Hatt as [Hnd Hev]. apply negb_true_iff in Hnd.
  unfold Hub_handle_device_change.
  destruct (ushort payload 0) as [dev_type|e] eqn:Hdt.
  - simpl in Hread. unfold class_for. exec_all. rewrite Hnd, Hev. simpl.
    rewrite Hdt. simpl. revert Hread.
    destruct (PERIPHERAL_TYPES !! dev_type) as [cls|] eqn:Hcls; simpl;
      rewrite lookup_insert_eq; simpl;
      (destruct (event =? EVENT_ATTACHED) eqn:Ea;
       [| destruct (event =? EVENT_ATTACHED_VIRTUAL) eqn:Ev; [|discriminate]]);
      repeat match goal with
        | |- context [usbyte payload ?k] =>
            destruct (usbyte payload k); simpl
        end;
      intros Hread; try discriminate Hread;
      do 3 eexists; (split; [reflexivity|]); simpl; rewrite ?Hcls;
      repeat split.
  - exec_all. rewrite Hnd, Hev. simpl. rewrite Hdt. reflexivity.
Qed.

(** Property X18.  An attach at a port that holds no peripheral, followed by
    the detach of that port, leaves [peripherals] as it was before the two;
    both notifications return, and the instance that was created stays in
    the store. *)
Theorem attach_then_detach_restores
    (h : Hub) (port event : Z) (payload payload' : list Z) :
  is_attach (MsgHubAttachedIO port event payload) = true ->
  readable (MsgHubAttachedIO port event payload) = true ->
  peripherals h !! port = None ->
  exists h1 h2 o,
    _handle_device_change (MsgHubAttachedIO port event payload) h
    = (h1, Return tt)
    /\ _handle_device_change (MsgHubAttachedIO port EVENT_DETACHED payload') h1
       = (h2, Return tt)
    /\ peripherals h1 !! port = Some (length (objects h))
    /\ peripherals h2 = peripherals h
    /\ objects h2 = objects h ++ [o].
Proof.
  intros Hatt Hread Hnone.
  destruct (attach_bound h port event payload Hatt Hread)
    as (h1 & dev_type & o & Hrun & _ & Hper & Hobj & _).
  assert (Hp : peripherals h1 !! port = Some (length (objects h))).
  { rewrite Hper. apply lookup_insert_eq. }
  exists h1. eexists. exists o. split; [exact Hrun|].
  rewrite detach_bound, (detach_present _ _ _ _ Hp).
  split; [reflexivity|]. simpl. repeat split; try assumption.
  rewrite Hper, delete_insert_eq. apply delete_id, Hnone.
Qed.

(** Property X19.  An attached-virtual notification (with constants that
    tell it from attached) stores at the new instance the pair of ports read
    from bytes 2 and 3 of the payload; an attached notification leaves
    [virtual_ports] of the new instance unset. *)
Theorem virtual_attach_records_ports
    (h : Hub) (port event : Z) (payload : list Z) :
  is_attach (MsgHubAttachedIO port event payload) = true ->
  readable (MsgHubAttachedIO port event payload) = true ->
  exists h' o,
    Hub_handle_device_change (MsgHubAttachedIO port event payload) h
    = (h', Return tt)
    /\ objects h' = objects h ++ [o]
    /\ p_port o = port
    /\ port_data o = []
    /\ if event =? EVENT_ATTACHED then virtual_ports o = None
       else exists a b,
           usbyte payload 2 = Ok a /\ usbyte payload 3 = Ok b
           /\ virtual_ports o = Some (a, b).
Proof.
  simpl. intros Hatt Hread.
  apply andb_prop in Hatt as [Hnd Hev]. apply negb_true_iff in Hnd.
  apply andb_prop in Hread as [Hus Hrest].
  destruct (ushort payload 0) as [dev_type|] eqn:Hdt; [|discriminate].
  unfold Hub_handle_device_change. exec_all.
  rewrite Hnd, Hev. simpl. rewrite Hdt. simpl. revert Hrest.
  destruct (PERIPHERAL_TYPES !! dev_type) as [cls|] eqn:Hcls; simpl;
    rewrite lookup_insert_eq; simpl;
    (destruct (event =? EVENT_ATTACHED) eqn:Ea;
     [| destruct (event =? EVENT_ATTACHED_VIRTUAL) eqn:Ev; [|discriminate]]);
    repeat match goal with
      | |- context [usbyte payload ?k] =>
          destruct (usbyte payload k); simpl
      end;
    intros Hrest; try discriminate Hrest;
    rewrite ?lookup_insert_eq; simpl; rewrite ?alter_last;
    do 2 eexists; (split; [reflexivity|]); simpl;
    repeat split; eauto.
Qed.

End AttachmentEdges.

Section MoveHubFields.
Context {proto : Protocol}.

Lemma MoveHub_attach_fields h port event payload :
  is_attach (MsgHubAttachedIO port event payload) = true ->
  readable (MsgHubAttachedIO port event payload) = true ->
  exists h1 dev_type,
    Hub_handle_device_change (MsgHubAttachedIO port event payload) h
    = (h1, Return tt)
    /\ ushort payload 0 = Ok dev_type
    /\ peripherals h1 = <[port := length (objects h)]> (peripherals h)
    /\ shortcuts h1 = shortcuts h
    /\ MoveHub_handle_device_change (MsgHubAttachedIO port event payload) h
       = (set_shortcuts
            (bound_by_type port (class_for dev_type) (length (objects h))
               (bound_by_port port (length (objects h)) (shortcuts h))) h1,
          Return tt).
Proof.
  intros Hatt Hread.
  destruct (attach_effect h port event payload Hatt Hread)
    as (h1 & dev_type & o & Hrun & Hdt & Hper & Hobj & Hty & _ & _ & Hs & _).
  exists h1, dev_type. repeat split; try assumption.
  simpl in Hatt. apply andb_prop in Hatt as [Hnd _]. apply negb_true_iff in Hnd.
  assert (Hp : peripherals h1 !! port = Some (length (objects h))).
  { rewrite Hper. apply lookup_insert_eq. }
  assert (Ho : objects h1 !! length (objects h) = Some o).
  { rewrite Hobj. apply list_lookup_middle. reflexivity. }
  unfold MoveHub_handle_device_change. unfold bind at 1. rewrite Hrun.
  unfold isinstance. simpl. unfold bind at 1. simpl. rewrite Hnd. simpl.
  unfold bind at 1. simpl.
  assert (Hfield : forall w h2,
    peripherals h2 = peripherals h1 ->
    bind_field w port h2
    = (set_shortcuts (w (length (objects h)) (shortcuts h2)) h2, Return tt)).
  { intros w h2 Hh2. apply bind_field_run. rewrite Hh2. exact Hp. }
  assert (Hchain :
    (if port =? PORT_A then bind_field with_motor_A port
     else if port =? PORT_B then bind_field with_motor_B port
     else if port =? PORT_AB then bind_field with_motor_AB port
     else if port =? PORT_C then bind_field with_port_C port
     else if port =? PORT_D then bind_field with_port_D port
     else if port =? PORT_LED then bind_field with_led port
     else if port =? PORT_TILT_SENSOR then bind_field with_tilt_sensor port
     else if port =? PORT_CURRENT then bind_field with_current port
     else if port =? PORT_VOLTAGE then bind_field with_voltage port
     else ret tt) h1
    = (set_shortcuts (bound_by_port port (length (objects h)) (shortcuts h)) h1,
       Return tt)).
  { unfold bound_by_port. rewrite <- Hs.
    repeat match goal with
      | |- context [if ?b then _ else _] =>
          destruct b; [rewrite Hfield by reflexivity; reflexivity|]
      end.
    rewrite set_shortcuts_same. reflexivity. }
  unfold bind at 1. rewrite Hchain.
  set (s1 := bound_by_port _ _ _).
  unfold bound_by_type. rewrite <- Hty.
  unfold bind at 1. unfold peripherals_getitem at 1. simpl. rewrite Hp.
  unfold bind at 1. unfold type_of at 1. simpl. rewrite Ho.
  destruct (bool_decide (p_type o = VisionSensor)).
  - rewrite Hfield by reflexivity. reflexivity.
  - unfold bind at 1. unfold peripherals_getitem at 1. simpl. rewrite Hp.
    unfold bind at 1. unfold type_of at 1. simpl. rewrite Ho.
    match goal with
    | |- context [if ?b then _ else _] => destruct b
    end; [rewrite Hfield by reflexivity; reflexivity|reflexivity].
Qed.

End MoveHubFields.

Lemma fields_kept_refl s : fields_kept s s.
Proof. unfold fields_kept. tauto. Qed.

Lemma fields_kept_trans s1 s2 s3 :
  fields_kept s1 s2 -> fields_kept s2 s3 -> fields_kept s1 s3.
Proof. unfold fields_kept. intros H1 H2. intuition. Qed.

Lemma keeps_fields_preserved {A} (m : M A) :
  preserves shortcuts m -> keeps_fields m.
Proof. intros Hm h. rewrite Hm. apply fields_kept_refl. Qed.

Lemma keeps_fields_bind {A B} (m : M A) (k : A -> M B) :
  keeps_fields m -> (forall a, keeps_fields (k a)) -> keeps_fields (bind m k).
Proof.
  intros Hm Hk h. unfold bind. specialize (Hm h).
  destruct (m h) as [h1 [a|e|]]; simpl in *; try exact Hm.
  eapply fields_kept_trans; [exact Hm|apply Hk].
Qed.

Lemma keeps_fields_for_each {A} (xs : list A) body :
  (forall x, keeps_fields (body x)) -> keeps_fields (for_each xs body).
Proof.
  intros Hbody. induction xs as [|x xs IH]; simpl.
  - intros h. apply fields_kept_refl.
  - apply keeps_fields_bind; [apply Hbody|intros _; exact IH].
Qed.

Lemma keeps_fields_bind_field w port :
  (forall p s, fields_kept s (w p s)) -> keeps_fields (bind_field w port).
Proof.
  intros Hw h. unfold bind_field, bind, peripherals_getitem, set_field, modify.
  destruct (peripherals h !! port); simpl; [apply Hw|apply fields_kept_refl].
Qed.

Ltac fields_side :=
  intros ? s; destruct s; unfold fields_kept; simpl;
  repeat split; intros; eauto.

Ltac keep_fields :=
  repeat first
    [ apply keeps_fields_bind_field; solve [fields_side]
    | apply keeps_fields_preserved; solve [frame_with ltac:(idtac; reflexivity)]
    | apply keeps_fields_bind; [|intros ?]
    | match goal with
      | |- keeps_fields (if ?b then _ else _) => destruct b
      | |- keeps_fields (match ?x with _ => _ end) => destruct x
      end ].

Section MoveHubFields2.
Context {proto : Protocol}.

Lemma fields_Hub_handle_device_change msg :
  preserves shortcuts (Hub_handle_device_change msg).
Proof. unfold Hub_handle_device_change. frame_with ltac:(idtac; reflexivity). Qed.

Lemma fields_handle_device_change msg :
  keeps_fields (_handle_device_change msg).
Proof.
  unfold _handle_device_change, MoveHub_handle_device_change.
  apply keeps_fields_bind;
    [apply keeps_fields_preserved, preserves_get_state|intros h0].
  destruct (hub_class h0).
  - apply keeps_fields_preserved, fields_Hub_handle_device_change.
  - apply keeps_fields_bind;
      [apply keeps_fields_preserved, fields_Hub_handle_device_change|intros _].
    keep_fields.
Qed.

Lemma fields_call handler msg : keeps_fields (call handler msg).
Proof.
  destruct handler; simpl.
  - apply fields_handle_device_change.
  - apply keeps_fields_preserved. unfold _handle_sensor_data.
    frame_with ltac:(idtac; reflexivity).
  - apply keeps_fields_preserved. unfold _handle_error.
    frame_with ltac:(idtac; reflexivity).
  - apply keeps_fields_preserved. unfold _handle_action.
    frame_with ltac:(idtac; reflexivity).
  - apply keeps_fields_preserved. frame_with ltac:(idtac; reflexivity).
Qed.

Lemma fields_notify handle data : keeps_fields (_notify handle data).
Proof.
  unfold _notify.
  apply keeps_fields_bind; [keep_fields|intros _].
  apply keeps_fields_bind.
  { apply keeps_fields_preserved, preserves_get_upstream_msg. reflexivity. }
  intros msg.
  apply keeps_fields_bind; [unfold correlate; keep_fields|intros _].
  apply keeps_fields_bind; [keep_fields|intros h1].
  apply keeps_fields_for_each. intros entry. unfold dispatch.
  keep_fields. apply fields_call.
Qed.

Lemma all_kept h h' :
  fields_kept (shortcuts h) (shortcuts h') ->
  all (default_dev_set h) = true -> all (default_dev_set h') = true.
Proof.
  unfold fields_kept, all, default_dev_set. simpl.
  intros (Hled & Hcur & Hvol & HA & HB & HAB & _ & Htilt & _).
  rewrite !andb_true_iff, !bool_decide_eq_true. tauto.
Qed.

(** Property X20.  No notification unsets a shorthand field of the hub: a
    field that holds a peripheral before [_notify] holds one after it,
    whatever the frame and however [_notify] ends.  So once the devices
    that [_wait_for_devices] waits for are all set, they stay so. *)
Theorem notify_keeps_fields_set (h : Hub) (handle : Z) (data : list Z) :
  let h' := fst (_notify handle data h) in
  fields_kept (shortcuts h) (shortcuts h')
  /\ (all (default_dev_set h) = true -> all (default_dev_set h') = true).
Proof.
  simpl. pose proof (fields_notify handle data h) as Hkept.
  split; [exact Hkept|apply all_kept, Hkept].
Qed.

End MoveHubFields2.

Section MoveHubFields3.
Context {proto : Protocol}.

Lemma MoveHub_bound h port event payload :
  is_attach (MsgHubAttachedIO port event payload) = true ->
  readable (MsgHubAttachedIO port event payload) = true ->
  hub_class h = ClassMoveHub ->
  exists h' dev_type,
    _handle_device_change (MsgHubAttachedIO port event payload) h
    = (h', Return tt)
    /\ ushort payload 0 = Ok dev_type
    /\ peripherals h' !! port = Some (length (objects h))
    /\ hub_class h' = ClassMoveHub
    /\ shortcuts h'
       = bound_by_type port (class_for dev_type) (length (objects h))
           (bound_by_port port (length (objects h)) (shortcuts h)).
Proof.
  intros Hatt Hread Hcls.
  destruct (MoveHub_attach_fields h port event payload Hatt Hread)
    as (h1 & dev_type & Hrun & Hdt & Hper & Hs & Hmove).
  destruct (attach_effect h port event payload Hatt Hread)
    as (h1' & _ & _ & Hrun' & _ & _ & _ & _ & _ & Hsame & _).
  rewrite Hrun in Hrun'. inversion Hrun'. subst h1'.
  destruct Hsame as (Hc & _).
  unfold _handle_device_change. unfold bind, get_state. rewrite Hcls, Hmove.
  eexists _, dev_type. split; [reflexivity|]. simpl.
  repeat split; try assumption.
  - rewrite Hper. apply lookup_insert_eq.
  - congruence.
Qed.

(** Property X21.  On a [MoveHub], after an attach at one of the nine
    well-known ports the shorthand field of that port refers to the
    instance that [peripherals] now holds at the port. *)
Theorem movehub_binds_fixed_ports
    (h : Hub) (port event : Z) (payload : list Z) :
  is_attach (MsgHubAttachedIO port event payload) = true ->
  readable (MsgHubAttachedIO port event payload) = true ->
  hub_class h = ClassMoveHub ->
  exists h',
    _handle_device_change (MsgHubAttachedIO port event payload) h
    = (h', Return tt)
    /\ is_Some (peripherals h' !! port)
    /\ (port = PORT_A -> motor_A (shortcuts h') = peripherals h' !! port)
    /\ (port = PORT_B -> motor_B (shortcuts h') = peripherals h' !! port)
    /\ (port = PORT_AB -> motor_AB (shortcuts h') = peripherals h' !! port)
    /\ (port = PORT_C -> port_C (shortcuts h') = peripherals h' !! port)
    /\ (port = PORT_D -> port_D (shortcuts h') = peripherals h' !! port)
    /\ (port = PORT_LED -> led (shortcuts h') = peripherals h' !! port)
    /\ (port = PORT_TILT_SENSOR ->
        tilt_sensor (shortcuts h') = peripherals h' !! port)
    /\ (port = PORT_CURRENT -> current (shortcuts h') = peripherals h' !! port)
    /\ (port = PORT_VOLTAGE -> voltage (shortcuts h') = peripherals h' !! port).
Proof.
  intros Hatt Hread Hcls.
  destruct (MoveHub_bound h port event payload Hatt Hread Hcls)
    as (h' & dev_type & Hrun & _ & Hp & _ & Hs).
  exists h'. split; [exact Hrun|]. rewrite Hp, Hs. split; [eauto|].
  unfold bound_by_type.
  repeat split; intros ->; simpl;
    repeat match goal with
      | |- context [if ?b then _ else _] => destruct b
      end; reflexivity.
Qed.

(** Property X22.  On a [MoveHub], an attach of a vision sensor at any port
    sets [vision_sensor], and an attach of an encoded motor at a port other
    than A, B and AB sets [motor_external], to the instance at the port.
    An attach of another type leaves [vision_sensor] as it is, and
    [motor_external] changes for no other attach. *)
Theorem movehub_binds_by_type
    (h : Hub) (port event : Z) (payload : list Z) :
  is_attach (MsgHubAttachedIO port event payload) = true ->
  readable (MsgHubAttachedIO port event payload) = true ->
  hub_class h = ClassMoveHub ->
  exists h' dev_type,
    _handle_device_change (MsgHubAttachedIO port event payload) h
    = (h', Return tt)
    /\ ushort payload 0 = Ok dev_type
    /\ (class_for dev_type = VisionSensor ->
        vision_sensor (shortcuts h') = peripherals h' !! port)
    /\ (class_for dev_type <> VisionSensor ->
        vision_sensor (shortcuts h') = vision_sensor (shortcuts h))
    /\ (class_for dev_type = EncodedMotor ->
        port <> PORT_A -> port <> PORT_B -> port <> PORT_AB ->
        motor_external (shortcuts h') = peripherals h' !! port)
    /\ (class_for dev_type <> EncodedMotor
        \/ port = PORT_A \/ port = PORT_B \/ port = PORT_AB ->
        motor_external (shortcuts h') = motor_external (shortcuts h)).
Proof.
  intros Hatt Hread Hcls.
  destruct (MoveHub_bound h port event payload Hatt Hread Hcls)
    as (h' & dev_type & Hrun & Hdt & Hp & _ & Hs).
  exists h', dev_type. split; [exact Hrun|]. split; [exact Hdt|].
  rewrite Hp, Hs.
  assert (Hvis : forall p s, vision_sensor (bound_by_port port p s) = vision_sensor s).
  { intros p s. unfold bound_by_port.
    repeat match goal with
      | |- context [if ?b then _ else _] => destruct b
      end; reflexivity. }
  assert (Hext : forall p s, motor_external (bound_by_port port p s) = motor_external s).
  { intros p s. unfold bound_by_port.
    repeat match goal with
      | |- context [if ?b then _ else _] => destruct b
      end; reflexivity. }
  unfold bound_by_type. repeat split.
  - intros Ht. rewrite Ht. reflexivity.
  - intros Ht. rewrite bool_decide_eq_false_2 by exact Ht.
    match goal with
    | |- context [if ?b then _ else _] => destruct b
    end; simpl; apply Hvis.
  - intros Ht HA HB HAB. rewrite Ht. simpl.
    apply Z.eqb_neq in HA, HB, HAB. rewrite HA, HB, HAB. reflexivity.
  - intros Hor. case_bool_decide as Hv; simpl; [apply Hext|].
    case_bool_decide as Hm; simpl; [|apply Hext].
    destruct Hor as [Hn|[HA|[HB|HAB]]]; [contradiction|subst port..];
      reflexivity.
Qed.

End MoveHubFields3.

Section WaitAfterAttach.
Context {proto : Protocol}.

Lemma replay_returns h msgs :
  well_formed (dom (peripherals h)) [] msgs = true ->
  exists h',
    replay msgs h = (h', Return tt)
    /\ forall port, port ∈ dom (peripherals h')
         <-> attached_after (dom (peripherals h)) msgs port = true.
Proof.
  intros Hwf. induction msgs as [|msg msgs IH] using rev_ind.
  - exists h. split; [reflexivity|]. intros port.
    unfold attached_after, last_event. simpl.
    rewrite bool_decide_eq_true. reflexivity.
  - rewrite well_formed_snoc in Hwf. apply andb_prop in Hwf as [Hwf Hmsg].
    destruct (IH Hwf) as (h1 & Hrun & Hdom). clear IH.
    simpl in Hmsg. rewrite andb_true_r in Hmsg.
    unfold replay. rewrite for_each_app. unfold bind at 1.
    fold (replay msgs). rewrite Hrun. simpl. unfold bind at 1.
    destruct (is_detach msg) eqn:Hdet.
    + destruct msg as [port event payload| | | | | | |]; try discriminate.
      simpl in Hdet, Hmsg. apply Z.eqb_eq in Hdet. subst event.
      apply Hdom in Hmsg. apply elem_of_dom in Hmsg as [p Hp].
      rewrite detach_bound, (detach_present _ _ _ _ Hp).
      eexists. split; [reflexivity|]. intros q. simpl.
      unfold attached_after. rewrite last_event_snoc. simpl.
      rewrite dom_delete, elem_of_difference, elem_of_singleton.
      case_decide as Hq.
      * inversion Hq. subst q. cbn [is_attach]. rewrite Z.eqb_refl. simpl.
        split; [tauto|discriminate].
      * rewrite Hdom. unfold attached_after.
        split; [tauto|]. intros Ha. split; [exact Ha|congruence].
    + apply andb_prop in Hmsg as [Hatt Hread].
      destruct msg as [port event payload| | | | | | |]; try discriminate.
      destruct (attach_bound h1 port event payload Hatt Hread)
        as (h2 & dev_type & o & Hrun2 & _ & Hper & _).
      rewrite Hrun2. exists h2. split; [reflexivity|]. intros q.
      unfold attached_after. rewrite last_event_snoc.
      rewrite Hper, dom_insert, elem_of_union, elem_of_singleton.
      cbn [port_of]. case_decide as Hq.
      * inversion Hq. subst q. rewrite Hatt. split; [reflexivity|tauto].
      * rewrite Hdom. unfold attached_after.
        split; [|tauto]. intros [->|Ha]; [congruence|exact Ha].
Qed.

Lemma replay_class msgs : preserves hub_class (replay msgs).
Proof.
  unfold replay. apply preserves_for_each. intros msg h.
  pose proof (wiring_call cb_handle_device_change msg h) as Hw.
  unfold wiring in Hw. simpl in Hw. inversion Hw. congruence.
Qed.

Lemma replay_snoc msgs msg h h1 :
  replay msgs h = (h1, Return tt) ->
  fst (replay (msgs ++ [msg]) h) = fst (_handle_device_change msg h1).
Proof.
  intros Hrun. unfold replay. rewrite for_each_app. unfold bind at 1.
  fold (replay msgs). rewrite Hrun. simpl. unfold bind.
  destruct (_handle_device_change msg h1) as [h2 [[]|e|]]; reflexivity.
Qed.

Lemma replay_field (f : Shortcuts -> option nat) (P : Z) :
  (forall p s t, f (bound_by_type P t p (bound_by_port P p s)) = Some p) ->
  (forall s s', fields_kept s s' -> is_Some (f s) -> is_Some (f s')) ->
  forall msgs h,
    hub_class h = ClassMoveHub ->
    well_formed (dom (peripherals h)) [] msgs = true ->
    attaches_at P msgs = true ->
    is_Some (f (shortcuts (fst (replay msgs h)))).
Proof.
  intros Hset Hkept msgs h Hcls.
  induction msgs as [|msg msgs IH] using rev_ind; intros Hwf Hat.
  - discriminate.
  - rewrite well_formed_snoc in Hwf. apply andb_prop in Hwf as [Hwf Hmsg].
    destruct (replay_returns h msgs Hwf) as (h1 & Hrun & _).
    rewrite (replay_snoc msgs msg h h1 Hrun).
    assert (Hcls1 : hub_class h1 = ClassMoveHub).
    { pose proof (replay_class msgs h) as Hc. rewrite Hrun in Hc.
      simpl in Hc. congruence. }
    assert (Hh1 : h1 = fst (replay msgs h)) by (rewrite Hrun; reflexivity).
    unfold attaches_at in Hat. rewrite existsb_app in Hat. simpl in Hat.
    rewrite orb_false_r in Hat.
    destruct (is_attach msg && bool_decide (port_of msg = Some P)) eqn:Hhere.
    + apply andb_prop in Hhere as [Hatt Hport].
      apply bool_decide_eq_true in Hport.
      destruct msg as [port event payload| | | | | | |]; try discriminate.
      simpl in Hport. inversion Hport. subst port.
      simpl in Hmsg. rewrite andb_true_r in Hmsg.
      assert (Hnd : (event =? EVENT_DETACHED) = false).
      { simpl in Hatt. apply andb_prop in Hatt as [Hnd _].
        apply negb_true_iff, Hnd. }
      rewrite Hnd in Hmsg. apply andb_prop in Hmsg as [_ Hread].
      destruct (MoveHub_bound h1 P event payload Hatt Hread Hcls1)
        as (h2 & dev_type & Hrun2 & _ & _ & _ & Hs2).
      rewrite Hrun2. simpl. rewrite Hs2, Hset. eauto.
    + rewrite orb_false_r in Hat.
      eapply Hkept; [apply fields_handle_device_change|].
      rewrite Hh1. apply IH; assumption.
Qed.

(** Property X23.  On a [MoveHub], once notifications have attached a device
    at each of the ports A, B, AB, LED, tilt sensor, current and voltage
    (among attaches and detaches of any ports, a later detach of these
    included), the seven fields that [_wait_for_devices] looks at are set,
    and the wait returns at its first look, without a sleep and without a
    warning. *)
Theorem builtin_devices_end_the_wait (h : Hub) (msgs : list UpstreamMsg) :
  hub_class h = ClassMoveHub ->
  well_formed (dom (peripherals h)) [] msgs = true ->
  forallb (fun port => attaches_at port msgs) builtin_ports = true ->
  exists h',
    replay msgs h = (h', Return tt)
    /\ all (default_dev_set h') = true
    /\ _wait_for_devices (fun _ => h') None
       = ([Log {| level := DEBUG; format := "All devices are present: %s";
                  args := [ArgDevices (default_dev_set h')] |}],
          Return tt).
Proof.
  intros Hcls Hwf Hports.
  destruct (replay_returns h msgs Hwf) as (h' & Hrun & _).
  exists h'. split; [exact Hrun|].
  assert (Hall : all (default_dev_set h') = true).
  { assert (Hh' : h' = fst (replay msgs h)) by (rewrite Hrun; reflexivity).
    simpl in Hports. rewrite andb_true_r in Hports.
    repeat (apply andb_prop in Hports as [?Hport Hports]).
    unfold all, default_dev_set. simpl.
    rewrite !andb_true_iff, !bool_decide_eq_true. rewrite Hh'.
    repeat split;
      [ apply (replay_field motor_A PORT_A)
      | apply (replay_field motor_B PORT_B)
      | apply (replay_field motor_AB PORT_AB)
      | apply (replay_field led PORT_LED)
      | apply (replay_field tilt_sensor PORT_TILT_SENSOR)
      | apply (replay_field current PORT_CURRENT)
      | apply (replay_field voltage PORT_VOLTAGE) ];
      try assumption.
    all: try (intros p s t; unfold bound_by_type, bound_by_port; simpl;
              repeat match goal with
                | |- context [if ?b then _ else _] => destruct b
                end; reflexivity).
    all: intros s s' Hk; unfold fields_kept in Hk; tauto. }
  split; [exact Hall|].
  unfold _wait_for_devices, range_0_60.
  change (Z.of_nat <$> seq 0 60) with (0 :: (Z.of_nat <$> seq 1 59)).
  cbn [wait_rounds]. rewrite Hall. reflexivity.
Qed.

End WaitAfterAttach.

(** ** Callbacks added to the handler table *)

Section Registration.
Context {proto : Protocol}.

Lemma ignores_ret {A} (a : A) : ignores_table (ret a).
Proof. intros t h. reflexivity. Qed.

Lemma ignores_raise {A} e : ignores_table (raise (A := A) e).
Proof. intros t h. reflexivity. Qed.

Lemma ignores_lift {A} (r : Result A) : ignores_table (lift r).
Proof. destruct r; intros t h; reflexivity. Qed.

Lemma ignores_assert b : ignores_table (assert b).
Proof. destruct b; intros t h; reflexivity. Qed.

Lemma ignores_modify (g : Hub -> Hub) :
  (forall t h, g (set_msg_handlers t h) = set_msg_handlers t (g h)) ->
  ignores_table (modify g).
Proof. intros Hg t h. unfold modify. rewrite Hg. reflexivity. Qed.

Lemma ignores_bind {A B} (m : M A) (k : A -> M B) :
  ignores_table m -> (forall a, ignores_table (k a)) -> ignores_table (bind m k).
Proof.
  intros Hm Hk t h. unfold bind. rewrite Hm.
  destruct (m h) as [h1 [a|e|]]; simpl; [apply Hk|reflexivity..].
Qed.

(** A method may read the instance, as long as what it does with it does
    not depend on the table. *)
Lemma ignores_get_state_bind {B} (k : Hub -> M B) :
  (forall t h0 h, k (set_msg_handlers t h0) h = k h0 h) ->
  (forall h0, ignores_table (k h0)) ->
  ignores_table (bind get_state k).
Proof.
  intros Hread Hk t h. unfold bind, get_state. rewrite Hread. apply Hk.
Qed.

Lemma ignores_getitem port : ignores_table (peripherals_getitem port).
Proof.
  intros t h. unfold peripherals_getitem. simpl.
  destruct (peripherals h !! port); reflexivity.
Qed.

Lemma ignores_type_of device : ignores_table (type_of device).
Proof.
  intros t h. unfold type_of. simpl. destruct (objects h !! device); reflexivity.
Qed.

Lemma ignores_new_peripheral cls port : ignores_table (new_peripheral cls port).
Proof. intros t h. reflexivity. Qed.

Lemma ignores_queue_put msg : ignores_table (queue_put msg).
Proof.
  intros t h. unfold queue_put. simpl.
  destruct (length (_sync_replies h) <? maxsize)%nat; reflexivity.
Qed.

Lemma ignores_for_each {A} (xs : list A) body :
  (forall x, ignores_table (body x)) -> ignores_table (for_each xs body).
Proof.
  intros Hbody. induction xs as [|x xs IH]; simpl.
  - apply ignores_ret.
  - apply ignores_bind; [apply Hbody|intros _; exact IH].
Qed.

Ltac table_free :=
  repeat first
    [ apply ignores_ret
    | apply ignores_raise
    | apply ignores_lift
    | apply ignores_assert
    | apply ignores_getitem
    | apply ignores_type_of
    | apply ignores_new_peripheral
    | apply ignores_queue_put
    | apply ignores_modify; intros; reflexivity
    | match goal with
      | |- ignores_table (bind get_state _) =>
          apply ignores_get_state_bind; [intros; reflexivity|intros ?]
      end
    | apply ignores_bind; [|intros ?]
    | match goal with
      | |- ignores_table (if ?b then _ else _) => destruct b
      | |- ignores_table (match ?x with _ => _ end) => destruct x
      end
    | progress unfold logging, peripherals_pop, peripherals_setitem,
        set_virtual_ports, queue_port_data, connection_write,
        connection_disconnect, bind_field, set_field, attr_event,
        attr_port, attr_payload, attr_action, msg_message ].

Lemma ignores_usbytes payload xs : ignores_table (usbytes payload xs).
Proof. induction xs as [|x xs IH]; simpl; table_free. exact IH. Qed.

Lemma ignores_Hub_handle_device_change msg :
  ignores_table (Hub_handle_device_change msg).
Proof.
  unfold Hub_handle_device_change. table_free; apply ignores_usbytes.
Qed.

Lemma ignores_handle_device_change msg :
  ignores_table (_handle_device_change msg).
Proof.
  unfold _handle_device_change, MoveHub_handle_device_change.
  table_free; apply ignores_Hub_handle_device_change.
Qed.

Lemma ignores_find_msg_kind data msg_type kinds :
  ignores_table (find_msg_kind data msg_type kinds).
Proof. induction kinds as [|k kinds IH]; simpl; table_free. exact IH. Qed.

Lemma ignores_get_upstream_msg data : ignores_table (_get_upstream_msg data).
Proof. unfold _get_upstream_msg. table_free. apply ignores_find_msg_kind. Qed.

Lemma ignores_correlate msg : ignores_table (correlate msg).
Proof. unfold correlate. table_free. Qed.

(** No callback of the table looks at the table. *)
Lemma ignores_call handler msg : ignores_table (call handler msg).
Proof.
  destruct handler; simpl.
  - apply ignores_handle_device_change.
  - unfold _handle_sensor_data. table_free.
  - unfold _handle_error. table_free.
  - unfold _handle_action. table_free.
  - table_free.
Qed.

Lemma ignores_dispatch msg entry : ignores_table (dispatch msg entry).
Proof. unfold dispatch. table_free. apply ignores_call. Qed.

Lemma ignores_notify_through table handle data :
  ignores_table (notify_through table handle data).
Proof.
  unfold notify_through.
  apply ignores_bind; [table_free|intros _].
  apply ignores_bind; [apply ignores_get_upstream_msg|intros msg].
  apply ignores_bind; [apply ignores_correlate|intros _].
  apply ignores_for_each. intros entry. apply ignores_dispatch.
Qed.

(** The loop of [_notify] runs over the table that the instance holds when
    [_notify] is called. *)
Lemma notify_table handle data h :
  _notify handle data h = notify_through (_msg_handlers h) handle data h.
Proof.
  unfold _notify, notify_through, bind. cbn [logging modify].
  set (h0 := set_log _ h).
  pose proof (preserves_get_upstream_msg _msg_handlers data
                (fun _ _ => eq_refl) h0) as Hdec.
  destruct (_get_upstream_msg data h0) as [h1 [msg|e|]]; try reflexivity.
  cbn [fst] in Hdec.
  assert (Hcor : _msg_handlers (fst (correlate msg h1)) = _msg_handlers h1).
  { unfold correlate, bind, ret, modify, get_state, logging, queue_put; simpl.
    destruct (_sync_request h1) as [req|]; simpl; [|reflexivity].
    destruct (is_reply req msg); simpl; [|reflexivity].
    destruct (length (_sync_replies h1) <? maxsize)%nat; reflexivity. }
  destruct (correlate msg h1) as [h2 [[]|e|]]; try reflexivity.
  cbn [fst] in Hcor. unfold get_state. rewrite Hcor, Hdec. reflexivity.
Qed.

(** Whether a frame decodes, and to what, does not depend on the
    instance. *)
Lemma find_msg_kind_outcome data msg_type kinds h h' :
  snd (find_msg_kind data msg_type kinds h)
  = snd (find_msg_kind data msg_type kinds h').
Proof.
  induction kinds as [|k kinds IH]; simpl; [reflexivity|].
  destruct (msg_type =? TYPE k); [|exact IH].
  unfold bind, lift, logging, modify, ret, raise.
  destruct (decode k data); reflexivity.
Qed.

Lemma get_upstream_msg_outcome data h h' :
  snd (_get_upstream_msg data h) = snd (_get_upstream_msg data h').
Proof.
  unfold _get_upstream_msg. unfold bind at 1 3. unfold lift.
  destruct (usbyte data 2) as [t|e]; [|reflexivity].
  unfold ret at 1 3. unfold bind.
  pose proof (find_msg_kind_outcome data t UPSTREAM_MSGS h h') as Hk.
  destruct (find_msg_kind data t UPSTREAM_MSGS h) as [h1 [[m|]|e|]],
           (find_msg_kind data t UPSTREAM_MSGS h') as [h1' [[m'|]|e'|]];
    simpl in *; congruence.
Qed.

(** One more entry at the end of the table: the run is the run over the
    table without it, followed, if that run returns, by the dispatch to the
    entry. *)
Lemma notify_through_snoc table entry handle data h :
  match notify_through table handle data h with
  | (h', Return _) =>
      exists msg,
        snd (_get_upstream_msg data h) = Return msg
        /\ notify_through (table ++ [entry]) handle data h
           = dispatch msg entry h'
  | (h', out) =>
      notify_through (table ++ [entry]) handle data h = (h', out)
  end.
Proof.
  unfold notify_through, bind. cbn [logging modify].
  set (h0 := set_log _ h).
  rewrite (get_upstream_msg_outcome data h h0).
  destruct (_get_upstream_msg data h0) as [h1 [msg|e|]]; try reflexivity.
  destruct (correlate msg h1) as [h2 [[]|e|]]; try reflexivity.
  rewrite for_each_app. unfold bind.
  destruct (for_each table (dispatch msg) h2) as [h3 [[]|e|]];
    try reflexivity.
  exists msg. split; [reflexivity|]. simpl. unfold bind.
  destruct (dispatch msg entry h3) as [h4 [[]|e|]]; reflexivity.
Qed.

(** Property X24.  A callback of another object that [add_message_handler]
    has added is called by [_notify] last: the notification does what it
    does without the callback, ends the same way, and leaves
    [peripherals], the request, the queue, the connection and the shorthand
    fields the same; when it returns, the added callback has been called
    once more, after every other call, with the decoded message if that is
    an instance of its class, and not at all otherwise.  When an earlier
    handler raises or the run is suspended, the added callback is not
    called. *)
Theorem added_callback_is_called_last
    (h : Hub) (classname : MsgClass) (name : string)
    (handle : Z) (data : list Z) :
  let h1 := fst (add_message_handler classname (cb_external name) h) in
  let r := _notify handle data h in
  let r1 := _notify handle data h1 in
  snd r1 = snd r
  /\ _msg_handlers (fst r1) = _msg_handlers h ++ [(classname, cb_external name)]
  /\ peripherals (fst r1) = peripherals (fst r)
  /\ sync_state (fst r1) = sync_state (fst r)
  /\ connection (fst r1) = connection (fst r)
  /\ shortcuts (fst r1) = shortcuts (fst r)
  /\ objects (fst r1) = objects (fst r)
  /\ exists called,
       external_calls (fst r1) = external_calls (fst r) ++ called
       /\ match snd r with
          | Return _ =>
              exists msg,
                snd (_get_upstream_msg data h) = Return msg
                /\ called = if isinstance msg classname then [(name, msg)] else []
          | _ => called = []
          end.
Proof.
  cbv zeta. unfold add_message_handler, modify. cbn [fst].
  set (entry := (classname, cb_external name)).
  set (t' := _msg_handlers h ++ [entry]).
  rewrite (notify_table handle data (set_msg_handlers t' h)).
  change (_msg_handlers (set_msg_handlers t' h)) with (_msg_handlers h ++ [entry]).
  rewrite (ignores_notify_through _ handle data t' h).
  cbn [fst snd].
  rewrite (notify_table handle data h).
  pose proof (notify_through_snoc (_msg_handlers h) entry handle data h) as Hsnoc.
  destruct (notify_through (_msg_handlers h) handle data h) as [h' [[]|e|]];
    cbn [fst snd].
  - destruct Hsnoc as (msg & Hdec & ->).
    unfold dispatch, entry. cbn [fst snd].
    destruct (isinstance msg classname) eqn:Hinst.
    + repeat split. exists [(name, msg)]. split; [reflexivity|].
      exists msg. rewrite Hinst. split; [exact Hdec|reflexivity].
    + repeat split. exists []. split; [simpl; rewrite app_nil_r; reflexivity|].
      exists msg. rewrite Hinst. split; [exact Hdec|reflexivity].
  - rewrite Hsnoc. repeat split. exists []. simpl. rewrite app_nil_r.
    split; reflexivity.
  - rewrite Hsnoc. repeat split. exists []. simpl. rewrite app_nil_r.
    split; reflexivity.
Qed.

End Registration.

(** ** The properties on concrete runs *)

#[local] Existing Instance Sample.protocol.

Lemma sample_decodes_error : decodes Sample.error_frame Sample.error_msg.
Proof. intros h. eexists. reflexivity. Qed.

Lemma replay_tracks_attached_ports_witness :
  well_formed (dom (peripherals Sample.new_hub)) []
    [Sample.attach_motor_A; Sample.attach_unknown_C; Sample.detach 0;
     Sample.attach_virtual_AB] = true
  /\ exists h',
      replay [Sample.attach_motor_A; Sample.attach_unknown_C; Sample.detach 0;
              Sample.attach_virtual_AB] Sample.new_hub = (h', Return tt)
      /\ (forall port,
            port ∈ dom (peripherals h')
            <-> attached_after (dom (peripherals Sample.new_hub))
                  [Sample.attach_motor_A; Sample.attach_unknown_C;
                   Sample.detach 0; Sample.attach_virtual_AB] port = true)
      /\ NoDup (map_to_list (peripherals h')).*1.
Proof.
  split; [vm_compute; reflexivity|].
  apply (replay_tracks_attached_ports (proto := Sample.protocol)).
  vm_compute. reflexivity.
Defined.

Lemma single_pending_request_witness :
  exists h',
    send (fun h => h) (Sample.property_request 1) Sample.waiting_hub
    = (h', Raise AssertionError)
    /\ connection h' = connection Sample.waiting_hub
    /\ _sync_request h' = Some (Sample.property_request 6)
    /\ _sync_replies h' = _sync_replies Sample.waiting_hub.
Proof.
  apply (proj1 (single_pending_request (proto := Sample.protocol)));
    reflexivity.
Defined.

(** The claim C3 as the spec words it fails: the request for a property is
    pending, an error arrives, [is_reply] does not hold of it, and yet it is
    put into the reply queue for the blocked sender. *)
Lemma error_delivered_without_is_reply :
  ~ (_sync_replies
       (fst (_notify HUB_HARDWARE_HANDLE Sample.error_frame Sample.waiting_hub))
     = [Sample.error_msg]
     <-> is_reply (Sample.property_request 6) Sample.error_msg = true).
Proof.
  intros [Hdelivered _].
  assert (Hq : _sync_replies
       (fst (_notify HUB_HARDWARE_HANDLE Sample.error_frame Sample.waiting_hub))
     = [Sample.error_msg]) by (vm_compute; reflexivity).
  apply Hdelivered in Hq. vm_compute in Hq. discriminate Hq.
Qed.

Lemma reply_delivered_iff_reply_or_error_witness :
  let h' :=
    fst (_notify HUB_HARDWARE_HANDLE Sample.error_frame Sample.waiting_hub) in
  (_sync_replies h' = [Sample.error_msg]
   <-> is_reply (Sample.property_request 6) Sample.error_msg = true
       \/ class_of Sample.error_msg = ClsGenericError)
  /\ (_sync_replies h' = [Sample.error_msg] /\ _sync_request h' = None
      \/ _sync_replies h' = []
         /\ _sync_request h' = Some (Sample.property_request 6))
  /\ (forall text,
        Sample.error_msg = MsgGenericError text ->
        snd (_notify HUB_HARDWARE_HANDLE Sample.error_frame Sample.waiting_hub)
        = Return tt
        /\ _sync_request h' = None
        /\ _sync_replies h' = [Sample.error_msg]
        /\ logs_between Sample.waiting_hub h' (command_error text)
        /\ snd (send_await h') = Raise (RuntimeError text)).
Proof.
  apply (reply_delivered_iff_reply_or_error (proto := Sample.protocol)).
  - exact sample_decodes_error.
  - reflexivity.
  - reflexivity.
  - reflexivity.
Defined.

Lemma send_error_reply_raises_witness :
  (forall h0 rest,
      _sync_replies h0 = Sample.error_msg :: rest ->
      snd (send_await h0) = Raise (RuntimeError "Command 0x41 caused error 0x06"))
  /\ exists h',
      send (fun h1 => fst (_notify HUB_HARDWARE_HANDLE Sample.error_frame h1))
        (Sample.property_request 6) Sample.new_hub
      = (h', Raise (RuntimeError "Command 0x41 caused error 0x06"))
      /\ _sync_request h' = None
      /\ _sync_replies h' = []
      /\ written (connection h')
         = written (connection Sample.new_hub)
           ++ [(HUB_HARDWARE_HANDLE, bytes (Sample.property_request 6))]
      /\ forall msg', snd (send_request msg' (bytes msg') h') = Return tt.
Proof.
  apply (send_error_reply_raises (proto := Sample.protocol)).
  - reflexivity.
  - reflexivity.
  - reflexivity.
  - reflexivity.
  - exact sample_decodes_error.
Defined.

Lemma attach_installs_registered_or_fallback_witness :
  exists h' dev_type o,
    Hub_handle_device_change Sample.attach_unknown_C Sample.new_hub
    = (h', Return tt)
    /\ ushort [0x99; 0; 0; 0; 0; 1; 0; 0; 0; 1] 0 = Ok dev_type
    /\ peripherals h' !! 2 = Some (length (objects Sample.new_hub))
    /\ objects h' !! length (objects Sample.new_hub) = Some o
    /\ p_port o = 2
    /\ match PERIPHERAL_TYPES !! dev_type with
       | None =>
           p_type o = Peripheral
           /\ logged WARNING
                "Have not dedicated class for peripheral type 0x%x on port 0x%x"
                (drop (length (log Sample.new_hub)) (log h'))
       | Some cls =>
           p_type o = cls
           /\ Forall (fun r => level r <> WARNING)
                (drop (length (log Sample.new_hub)) (log h'))
       end.
Proof.
  apply (attach_installs_registered_or_fallback (proto := Sample.protocol));
    reflexivity.
Defined.

Lemma attach_replaces_existing_witness :
  exists h' dev_type o,
    Hub_handle_device_change Sample.attach_motor_A Sample.hub_with_motor
    = (h', Return tt)
    /\ ushort [0x27; 0; 0; 0; 0; 1; 0; 0; 0; 1] 0 = Ok dev_type
    /\ peripherals h' !! 0 = Some (length (objects Sample.hub_with_motor))
    /\ length (objects Sample.hub_with_motor) <> 0%nat
    /\ objects Sample.hub_with_motor !! length (objects Sample.hub_with_motor)
       = None
    /\ objects h' !! length (objects Sample.hub_with_motor) = Some o
    /\ p_type o = class_for dev_type
    /\ (forall q, peripherals h' !! q <> Some 0%nat)
    /\ (forall q, q <> 0 ->
          peripherals h' !! q = peripherals Sample.hub_with_motor !! q)
    /\ objects h' !! 0%nat = objects Sample.hub_with_motor !! 0%nat
    /\ log h' =
        log Sample.hub_with_motor
        ++ match PERIPHERAL_TYPES !! dev_type with
           | Some _ => []
           | None =>
               [{| level := WARNING;
                   format := "Have not dedicated class for peripheral type 0x%x on port 0x%x";
                   args := [ArgInt dev_type; ArgInt 0] |}]
           end
        ++ [{| level := INFO; format := "Attached peripheral: %s";
               args := [ArgRef (length (objects Sample.hub_with_motor))] |}].
Proof.
  apply (attach_replaces_existing (proto := Sample.protocol)).
  - reflexivity.
  - reflexivity.
  - apply store_okb_sound. vm_compute. reflexivity.
  - vm_compute. reflexivity.
Defined.

Lemma notify_puts_at_most_one_witness :
  (let h := Sample2.hub_awaiting_any in
   let h1 := fst (correlate Sample.error_msg h) in
   let r := for_each (_msg_handlers h)
              (dispatch (proto := Sample.protocol) Sample.error_msg) h1 in
   (ClsGenericError, cb_handle_error) ∈ _msg_handlers h
   /\ isinstance Sample.error_msg ClsGenericError = true
   /\ snd (correlate Sample.error_msg h) = Return tt
   /\ _sync_replies h1 = _sync_replies h ++ [Sample.error_msg]
   /\ _sync_request h1 = None
   /\ _sync_replies (fst r) = _sync_replies h1
   /\ snd r <> Block)
  /\ (let h := Sample2.hub_with_unfetched_reply in
      let r := _notify (proto := Sample.protocol) HUB_HARDWARE_HANDLE
                 Sample.error_frame h in
      snd r = Block
      /\ (maxsize <= length (_sync_replies h))%nat
      /\ _sync_replies (fst r) = _sync_replies h
      /\ is_Some (_sync_request h))
  /\ (let steps := [ActCorrelate Sample.error_msg; ActAwait;
                    ActCall cb_handle_error Sample.error_msg] in
      placed_by_notification (proto := Sample.protocol) steps
        Sample2.hub_awaiting_any = 1%nat
      /\ (placed_by_notification (proto := Sample.protocol) steps
            Sample2.hub_awaiting_any <= 1)%nat).
Proof.
  split; [|split].
  - split; [vm_compute; set_solver|]. split; [reflexivity|].
    apply (proj1 (proj2 (proj2 (proj2
             (notify_puts_at_most_one (proto := Sample.protocol)
                Sample2.hub_awaiting_any HUB_HARDWARE_HANDLE
                Sample.error_frame))))
             Sample.error_msg (_msg_handlers Sample2.hub_awaiting_any)).
    vm_compute. discriminate.
  - split; [vm_compute; reflexivity|].
    apply (proj1 (proj2 (proj2
             (notify_puts_at_most_one (proto := Sample.protocol)
                Sample2.hub_with_unfetched_reply HUB_HARDWARE_HANDLE
                Sample.error_frame)))).
    vm_compute. reflexivity.
  - split; [vm_compute; reflexivity|].
    apply (proj2 (proj2 (proj2 (proj2 (proj2
             (notify_puts_at_most_one (proto := Sample.protocol)
                Sample2.hub_awaiting_any HUB_HARDWARE_HANDLE
                Sample.error_frame)))))).
    reflexivity.
Defined.

(** The claim C10 as the spec words it fails when the steps of the threads
    interleave: the handlers run after the locked block has been left, and
    a request that [send] accepts in between is answered by the error
    handler with the same notification, which is so placed into the queue
    twice. *)
Lemma error_notification_put_twice :
  ~ (placed_by_notification (proto := Sample.protocol)
       Sample2.interleaved_error Sample.new_hub <= 1)%nat.
Proof. vm_compute. lia. Qed.

(** After the motor at port 0 has detached, [motor_A] still refers to its
    instance, which [peripherals] no longer holds. *)
Example detached_motor_stays_in_motor_A :
  let h := fst (_handle_device_change (Sample.detach 0) Sample.hub_with_motor) in
  motor_A (shortcuts Sample.hub_with_motor) = Some 0%nat
  /\ peripherals Sample.hub_with_motor !! 0 = Some 0%nat
  /\ motor_A (shortcuts h) = Some 0%nat
  /\ peripherals h !! 0 = None
  /\ p_type <$> objects h !! 0%nat = Some EncodedMotor.
Proof. vm_compute. repeat split. Qed.

(** The handlers run after the locked block has been left: a [send] that
    another thread starts in between is answered by the error handler with
    the error that already answered the request before it. *)
Example error_answers_two_requests :
  let h1 := fst (correlate Sample.error_msg
                   (set_sync_request
                      (Some {| needs_reply := true; bytes := [];
                               is_reply := fun _ => true |})
                      Sample.new_hub)) in
  let h2 := fst (send_await h1) in
  let h3 := fst (send_request (Sample.property_request 6) [] h2) in
  let h4 := fst (call cb_handle_error Sample.error_msg h3) in
  _sync_replies h1 = [Sample.error_msg]
  /\ snd (send_request (Sample.property_request 6) [] h2) = Return tt
  /\ _sync_replies h4 = [Sample.error_msg]
  /\ _sync_request h4 = None.
Proof. vm_compute. repeat split. Qed.

(** ** The other properties on concrete runs *)

Lemma store_invariant_witness :
  store_ok (fst (_notify (proto := Sample.protocol) HUB_HARDWARE_HANDLE
                   Sample2.attach_frame Sample.hub_with_motor)).
Proof.
  apply (proj1 (store_invariant (proto := Sample.protocol))).
  apply store_okb_sound. vm_compute. reflexivity.
Defined.

Lemma notify_unknown_type_witness :
  _notify (proto := Sample.protocol) HUB_HARDWARE_HANDLE [3; 0; 0x99]
    Sample.new_hub
  = (set_log (log Sample.new_hub
              ++ [{| level := DEBUG; format := "Notification on %s: %s";
                     args := [ArgInt HUB_HARDWARE_HANDLE; ArgBytes [3; 0; 0x99]] |}])
       Sample.new_hub,
     Raise AssertionError).
Proof.
  apply (notify_unknown_type (proto := Sample.protocol) _ _ _ 0x99).
  - reflexivity.
  - apply (bool_decide_unpack _). vm_compute. exact I.
Defined.

Lemma get_upstream_msg_first_kind_witness :
  _get_upstream_msg (proto := Sample.protocol) Sample2.attach_frame Sample.new_hub
  = (set_log (log Sample.new_hub
              ++ [{| level := DEBUG; format := "Decoded message: %r";
                     args := [ArgUp Sample.attach_motor_A] |}])
       Sample.new_hub,
     Return Sample.attach_motor_A).
Proof.
  apply (get_upstream_msg_first_kind (proto := Sample.protocol)
           Sample.new_hub Sample2.attach_frame 0x04
           [{| TYPE := 0x01; decode := Sample.decode_properties |}]
           [{| TYPE := 0x05; decode := Sample.decode_generic_error |}]
           {| TYPE := 0x04; decode := Sample.decode_attached_io |}).
  - reflexivity.
  - reflexivity.
  - apply (bool_decide_unpack _). vm_compute. exact I.
  - reflexivity.
Defined.

Lemma sample_decodes_reply_6 :
  decodes (proto := Sample.protocol) Sample2.reply_frame_6 (MsgHubProperties 6 6 [100]).
Proof. intros h. eexists. reflexivity. Qed.

Lemma sample_decodes_reply_7 :
  decodes (proto := Sample.protocol) Sample2.reply_frame_7 (MsgHubProperties 7 6 [100]).
Proof. intros h. eexists. reflexivity. Qed.

Lemma sample_decodes_detach_3 :
  decodes (proto := Sample.protocol) Sample2.detach_frame_3 (MsgHubAttachedIO 3 0 []).
Proof. intros h. eexists. reflexivity. Qed.

Lemma sample_decodes_value :
  decodes (proto := Sample2.protocol) Sample2.value_frame Sample2.value_msg.
Proof. intros h. eexists. reflexivity. Qed.

Lemma sample_decodes_disconnect :
  decodes (proto := Sample2.protocol) Sample2.disconnect_frame (MsgHubAction 0x31).
Proof. intros h. eexists. reflexivity. Qed.

Lemma sample2_decodes_error :
  decodes (proto := Sample.protocol) Sample.error_frame Sample.error_msg.
Proof. intros h. eexists. reflexivity. Qed.

Lemma externals_called_in_order_witness :
  exists h',
    _notify (proto := Sample.protocol) HUB_HARDWARE_HANDLE Sample.error_frame
      Sample2.hub_with_callbacks = (h', Return tt)
    /\ external_calls h'
       = external_calls Sample2.hub_with_callbacks
         ++ calls_of Sample.error_msg (_msg_handlers Sample2.hub_with_callbacks)
    /\ peripherals h' = peripherals Sample2.hub_with_callbacks
    /\ shortcuts h' = shortcuts Sample2.hub_with_callbacks.
Proof.
  apply (externals_called_in_order (proto := Sample.protocol)).
  - exact sample2_decodes_error.
  - discriminate.
  - reflexivity.
  - left. reflexivity.
Defined.

Lemma port_value_reaches_device_witness :
  exists h',
    _notify (proto := Sample2.protocol) HUB_HARDWARE_HANDLE Sample2.value_frame
      Sample.hub_with_motor = (h', Return tt)
    /\ peripherals h' = peripherals Sample.hub_with_motor
    /\ match peripherals Sample.hub_with_motor !! 0 with
       | Some p =>
           objects h' !! p
           = with_port_data Sample2.value_msg <$> objects Sample.hub_with_motor !! p
           /\ (forall q, q <> p ->
                 objects h' !! q = objects Sample.hub_with_motor !! q)
       | None =>
           objects h' = objects Sample.hub_with_motor
           /\ logs_between Sample.hub_with_motor h'
                {| level := WARNING;
                   format := "Notification on port with no device: %s";
                   args := [ArgInt 0] |}
       end.
Proof.
  apply (port_value_reaches_device (proto := Sample2.protocol)
           _ _ _ _ 0 [0x2A; 0]).
  - exact sample_decodes_value.
  - left. reflexivity.
  - reflexivity.
  - left. reflexivity.
Defined.

Lemma error_without_request_is_logged_witness :
  exists h',
    _notify (proto := Sample.protocol) HUB_HARDWARE_HANDLE Sample.error_frame
      Sample.new_hub = (h', Return tt)
    /\ sync_state h' = sync_state Sample.new_hub
    /\ connection h' = connection Sample.new_hub
    /\ peripherals h' = peripherals Sample.new_hub
    /\ logs_between Sample.new_hub h'
         (command_error "Command 0x41 caused error 0x06").
Proof.
  apply (error_without_request_is_logged (proto := Sample.protocol)).
  - exact sample2_decodes_error.
  - reflexivity.
  - reflexivity.
Defined.

Lemma only_attachments_change_peripherals_witness :
  let h' := fst (_notify (proto := Sample.protocol) HUB_HARDWARE_HANDLE
                   Sample.error_frame Sample.hub_with_motor) in
  peripherals h' = peripherals Sample.hub_with_motor
  /\ shortcuts h' = shortcuts Sample.hub_with_motor.
Proof.
  apply (only_attachments_change_peripherals (proto := Sample.protocol)).
  intros h0 msg Hmsg. simpl in Hmsg. inversion Hmsg. discriminate.
Defined.

Lemma hub_action_disconnects_witness :
  exists h',
    _notify (proto := Sample2.protocol) HUB_HARDWARE_HANDLE
      Sample2.disconnect_frame Sample.new_hub = (h', Return tt)
    /\ alive (connection h') = false
    /\ written (connection h') = written (connection Sample.new_hub)
    /\ sync_state h' = correlated (MsgHubAction 0x31) Sample.new_hub.
Proof.
  apply (hub_action_disconnects (proto := Sample2.protocol)
           Sample.new_hub HUB_HARDWARE_HANDLE Sample2.disconnect_frame 0x31).
  - exact sample_decodes_disconnect.
  - reflexivity.
  - left. reflexivity.
Defined.

Lemma detach_unknown_port_aborts_dispatch_witness :
  let h := Sample2.hub_with_listener in
  let msg := MsgHubAttachedIO 3 0 [] in
  calls_of msg (_msg_handlers h) = [("listener", msg)]
  /\ _sync_request h = Some Sample2.port_request
  /\ correlated msg h = (None, [msg])
  /\ exists h',
       _notify (proto := Sample.protocol) HUB_HARDWARE_HANDLE
         Sample2.detach_frame_3 h = (h', Raise (KeyError 3))
       /\ external_calls h' = external_calls h
       /\ outside_sync h' = outside_sync h
       /\ sync_state h' = correlated msg h.
Proof.
  split; [reflexivity|]. split; [reflexivity|]. split; [reflexivity|].
  apply (detach_unknown_port_aborts_dispatch (proto := Sample.protocol)).
  - exact sample_decodes_detach_3.
  - reflexivity.
  - reflexivity.
  - right. reflexivity.
Defined.

Lemma send_without_reply_witness :
  exists h',
    send (fun h => h) Sample2.fire_and_forget
      Sample.waiting_hub = (h', Return None)
    /\ written (connection h')
       = written (connection Sample.waiting_hub)
         ++ [(HUB_HARDWARE_HANDLE, bytes Sample2.fire_and_forget)]
    /\ sync_state h' = sync_state Sample.waiting_hub
    /\ peripherals h' = peripherals Sample.waiting_hub.
Proof. apply send_without_reply. reflexivity. Defined.

Lemma send_returns_matching_reply_witness :
  exists h',
    send
      (fun h1 => fst (_notify (proto := Sample.protocol) HUB_HARDWARE_HANDLE
                        Sample2.reply_frame_6 h1))
      (Sample.property_request 6) Sample.new_hub
    = (h', Return (Some (MsgHubProperties 6 6 [100])))
    /\ _sync_request h' = None
    /\ _sync_replies h' = []
    /\ written (connection h')
       = written (connection Sample.new_hub)
         ++ [(HUB_HARDWARE_HANDLE, bytes (Sample.property_request 6))].
Proof.
  apply (send_returns_matching_reply (proto := Sample.protocol)).
  - reflexivity.
  - reflexivity.
  - reflexivity.
  - reflexivity.
  - exact sample_decodes_reply_6.
  - reflexivity.
  - discriminate.
Defined.

Lemma send_waits_for_matching_reply_witness :
  exists h',
    send
      (fun h1 => fst (_notify (proto := Sample.protocol) HUB_HARDWARE_HANDLE
                        Sample2.reply_frame_7 h1))
      (Sample.property_request 6) Sample.new_hub
    = (h', Block)
    /\ _sync_request h' = Some (Sample.property_request 6)
    /\ _sync_replies h' = []
    /\ written (connection h')
       = written (connection Sample.new_hub)
         ++ [(HUB_HARDWARE_HANDLE, bytes (Sample.property_request 6))]
    /\ forall handle' data' reply,
         decodes (proto := Sample.protocol) data' reply ->
         is_reply (Sample.property_request 6) reply = true ->
         class_of reply <> ClsGenericError ->
         snd (send_await (fst (_notify (proto := Sample.protocol)
                                 handle' data' h'))) = Return reply.
Proof.
  apply (send_waits_for_matching_reply (proto := Sample.protocol)
           _ _ _ _ (MsgHubProperties 7 6 [100])).
  - reflexivity.
  - reflexivity.
  - reflexivity.
  - reflexivity.
  - exact sample_decodes_reply_7.
  - reflexivity.
  - discriminate.
Defined.

Lemma unknown_event_rejected_witness :
  Hub_handle_device_change (proto := Sample.protocol)
    (MsgHubAttachedIO 0 7 []) Sample.new_hub
  = (Sample.new_hub, Raise AssertionError)
  /\ _handle_device_change (proto := Sample.protocol)
       (MsgHubAttachedIO 0 7 []) Sample.new_hub
     = (Sample.new_hub, Raise AssertionError).
Proof.
  apply (unknown_event_rejected (proto := Sample.protocol)); discriminate.
Defined.

Lemma attach_truncated_payload_witness :
  exists h' e o,
    Hub_handle_device_change (proto := Sample.protocol) Sample2.attach_truncated
      Sample.new_hub = (h', Raise e)
    /\ peripherals h'
       = <[0 := length (objects Sample.new_hub)]> (peripherals Sample.new_hub)
    /\ objects h' = objects Sample.new_hub ++ [o]
    /\ p_type o = class_for (proto := Sample.protocol) 0x27
    /\ virtual_ports o = None.
Proof.
  apply (attach_truncated_payload (proto := Sample.protocol)
           Sample.new_hub 0 0x01 [0x27; 0]); reflexivity.
Defined.

Lemma attach_then_detach_restores_witness :
  exists h1 h2 o,
    _handle_device_change (proto := Sample.protocol) Sample.attach_motor_A
      Sample.new_hub = (h1, Return tt)
    /\ _handle_device_change (proto := Sample.protocol)
         (MsgHubAttachedIO 0 0 []) h1 = (h2, Return tt)
    /\ peripherals h1 !! 0 = Some (length (objects Sample.new_hub))
    /\ peripherals h2 = peripherals Sample.new_hub
    /\ objects h2 = objects Sample.new_hub ++ [o].
Proof.
  apply (attach_then_detach_restores (proto := Sample.protocol)
           Sample.new_hub 0 0x01 _ []); reflexivity.
Defined.

Lemma virtual_attach_records_ports_witness :
  exists h' o,
    Hub_handle_device_change (proto := Sample.protocol) Sample.attach_virtual_AB
      Sample.new_hub = (h', Return tt)
    /\ objects h' = objects Sample.new_hub ++ [o]
    /\ p_port o = 0x10
    /\ port_data o = []
    /\ exists a b,
         usbyte (Protocol := Sample.protocol) [0x27; 0; 0; 1] 2 = Ok a
         /\ usbyte (Protocol := Sample.protocol) [0x27; 0; 0; 1] 3 = Ok b
         /\ virtual_ports o = Some (a, b).
Proof.
  apply (virtual_attach_records_ports (proto := Sample.protocol)
           Sample.new_hub 0x10 0x02 [0x27; 0; 0; 1]); reflexivity.
Defined.

Lemma notify_keeps_fields_set_witness :
  all (default_dev_set
         (fst (_notify (proto := Sample.protocol) HUB_HARDWARE_HANDLE
                 Sample2.detach_frame_0 Sample2.full_hub))) = true.
Proof.
  apply (proj2 (notify_keeps_fields_set (proto := Sample.protocol)
                  Sample2.full_hub HUB_HARDWARE_HANDLE Sample2.detach_frame_0)).
  vm_compute. reflexivity.
Defined.

Lemma movehub_binds_fixed_ports_witness :
  exists h',
    _handle_device_change (proto := Sample.protocol) Sample.attach_motor_A
      Sample.new_hub = (h', Return tt)
    /\ is_Some (peripherals h' !! 0)
    /\ (0 = PORT_A -> motor_A (shortcuts h') = peripherals h' !! 0)
    /\ (0 = PORT_B -> motor_B (shortcuts h') = peripherals h' !! 0)
    /\ (0 = PORT_AB -> motor_AB (shortcuts h') = peripherals h' !! 0)
    /\ (0 = PORT_C -> port_C (shortcuts h') = peripherals h' !! 0)
    /\ (0 = PORT_D -> port_D (shortcuts h') = peripherals h' !! 0)
    /\ (0 = PORT_LED -> led (shortcuts h') = peripherals h' !! 0)
    /\ (0 = PORT_TILT_SENSOR -> tilt_sensor (shortcuts h') = peripherals h' !! 0)
    /\ (0 = PORT_CURRENT -> current (shortcuts h') = peripherals h' !! 0)
    /\ (0 = PORT_VOLTAGE -> voltage (shortcuts h') = peripherals h' !! 0).
Proof.
  apply (movehub_binds_fixed_ports (proto := Sample.protocol)
           Sample.new_hub 0 0x01); reflexivity.
Defined.

Lemma movehub_binds_by_type_witness :
  exists h' dev_type,
    _handle_device_change (proto := Sample.protocol) Sample2.attach_vision_C
      Sample.new_hub = (h', Return tt)
    /\ ushort (Protocol := Sample.protocol)
         [0x25; 0; 0; 0; 0; 1; 0; 0; 0; 1] 0 = Ok dev_type
    /\ (class_for (proto := Sample.protocol) dev_type = VisionSensor ->
        vision_sensor (shortcuts h') = peripherals h' !! 2)
    /\ (class_for (proto := Sample.protocol) dev_type <> VisionSensor ->
        vision_sensor (shortcuts h') = vision_sensor (shortcuts Sample.new_hub))
    /\ (class_for (proto := Sample.protocol) dev_type = EncodedMotor ->
        2 <> PORT_A -> 2 <> PORT_B -> 2 <> PORT_AB ->
        motor_external (shortcuts h') = peripherals h' !! 2)
    /\ (class_for (proto := Sample.protocol) dev_type <> EncodedMotor
        \/ 2 = PORT_A \/ 2 = PORT_B \/ 2 = PORT_AB ->
        motor_external (shortcuts h') = motor_external (shortcuts Sample.new_hub)).
Proof.
  apply (movehub_binds_by_type (proto := Sample.protocol)
           Sample.new_hub 2 0x01); reflexivity.
Defined.

Lemma builtin_devices_end_the_wait_witness :
  exists h',
    replay (proto := Sample.protocol) Sample2.builtin_attaches Sample.new_hub
    = (h', Return tt)
    /\ all (default_dev_set h') = true
    /\ _wait_for_devices (fun _ => h') None
       = ([Log {| level := DEBUG; format := "All devices are present: %s";
                  args := [ArgDevices (default_dev_set h')] |}],
          Return tt).
Proof.
  apply (builtin_devices_end_the_wait (proto := Sample.protocol)).
  - reflexivity.
  - vm_compute. reflexivity.
  - vm_compute. reflexivity.
Defined.

Lemma added_callback_is_called_last_witness :
  let h := Sample2.hub_with_callbacks in
  let h1 := fst (add_message_handler ClsGenericError (cb_external "monitor") h) in
  let r := _notify (proto := Sample.protocol) HUB_HARDWARE_HANDLE
             Sample.error_frame h in
  let r1 := _notify (proto := Sample.protocol) HUB_HARDWARE_HANDLE
              Sample.error_frame h1 in
  external_calls (fst r) = [("logger", Sample.error_msg)]
  /\ external_calls (fst r1)
     = [("logger", Sample.error_msg); ("monitor", Sample.error_msg)]
  /\ snd r1 = snd r
  /\ _msg_handlers (fst r1)
     = _msg_handlers h ++ [(ClsGenericError, cb_external "monitor")]
  /\ peripherals (fst r1) = peripherals (fst r)
  /\ sync_state (fst r1) = sync_state (fst r)
  /\ connection (fst r1) = connection (fst r)
  /\ shortcuts (fst r1) = shortcuts (fst r)
  /\ objects (fst r1) = objects (fst r)
  /\ exists called,
       external_calls (fst r1) = external_calls (fst r) ++ called
       /\ match snd r with
          | Return _ =>
              exists msg,
                snd (_get_upstream_msg (proto := Sample.protocol)
                       Sample.error_frame h) = Return msg
                /\ called
                   = if isinstance msg ClsGenericError
                     then [("monitor", msg)] else []
          | _ => called = []
          end.
Proof.
  split; [reflexivity|]. split; [reflexivity|].
  apply (added_callback_is_called_last (proto := Sample.protocol)
           Sample2.hub_with_callbacks ClsGenericError "monitor"
           HUB_HARDWARE_HANDLE Sample.error_frame).
Defined.
